(** * FullTask AI Lite: the chat orchestration logic

    A shallow embedding of the root component ([app.component.ts]), of the
    message model ([models/chat.model.ts]) and of the gateway service that
    wraps the generative-AI SDK.  Signals become fields of a state record,
    every asynchronous method becomes a function from the state and from
    the answers of the outside world (clock readings, provider responses)
    to an outcome, and the event loop becomes a transition function on
    configurations that carry the suspended continuations. *)

From Stdlib Require Import List ZArith String Ascii Bool Lia Arith Sorted.
Import ListNotations.

Local Open Scope string_scope.
Local Open Scope Z_scope.

(** ** JavaScript strings and truthiness

    A string is the UTF-8 encoding of the text: a character outside ASCII
    takes two to four bytes, as in the string literals of this file.  The
    helpers below follow the methods of [String.prototype] the component
    calls.  Positions count bytes; the component uses a position only to
    cut a data URL after its first comma, and a comma is one byte that is
    part of no longer character, so the text cut off is the same. *)

Module JS.

(** [!s] is true exactly for the empty string. *)
Definition truthy (s : string) : bool :=
  match s with EmptyString => false | String _ _ => true end.

(** [a || b] on strings. *)
Definition or_else (a : option string) (b : string) : string :=
  match a with
  | Some s => if truthy s then s else b
  | None => b
  end.

(** [a || b] on values that are objects when present (always truthy). *)
Definition or_obj {A : Type} (a b : option A) : option A :=
  match a with Some _ => a | None => b end.

(** White space removed by [trim]: the [WhiteSpace] and [LineTerminator]
    code points of ECMAScript.  The one-byte ones are TAB, LF, VT, FF, CR
    and SPACE. *)
Definition isWhiteSpace (c : ascii) : bool :=
  let n := nat_of_ascii c in
  ((9 <=? n)%nat && (n <=? 13)%nat) || (n =? 32)%nat.

(** U+00A0 NO-BREAK SPACE is the bytes C2 A0. *)
Definition isWhiteSpace2 (c1 c2 : ascii) : bool :=
  ((nat_of_ascii c1 =? 194) && (nat_of_ascii c2 =? 160))%nat.

(** The three-byte ones: U+1680 (E1 9A 80); U+2000 to U+200A (E2 80 80 to
    E2 80 8A); the separators U+2028 and U+2029 (E2 80 A8, E2 80 A9);
    U+202F (E2 80 AF); U+205F (E2 81 9F); U+3000 (E3 80 80); and U+FEFF
    (EF BB BF). *)
Definition isWhiteSpace3 (c1 c2 c3 : ascii) : bool :=
  let n1 := nat_of_ascii c1 in
  let n2 := nat_of_ascii c2 in
  let n3 := nat_of_ascii c3 in
  (((n1 =? 225) && (n2 =? 154) && (n3 =? 128))
   || ((n1 =? 226) && (n2 =? 128)
       && (((128 <=? n3) && (n3 <=? 138))
           || (n3 =? 168) || (n3 =? 169) || (n3 =? 175)))
   || ((n1 =? 226) && (n2 =? 129) && (n3 =? 159))
   || ((n1 =? 227) && (n2 =? 128) && (n3 =? 128))
   || ((n1 =? 239) && (n2 =? 187) && (n3 =? 191)))%nat.

(** [trimStart]: white space is dropped from the front, one code point
    (one, two or three bytes) at a time. *)
Fixpoint trimStart (s : string) : string :=
  match s with
  | EmptyString => EmptyString
  | String c1 r1 =>
      if isWhiteSpace c1 then trimStart r1
      else
        match r1 with
        | EmptyString => s
        | String c2 r2 =>
            if isWhiteSpace2 c1 c2 then trimStart r2
            else
              match r2 with
              | EmptyString => s
              | String c3 r3 =>
                  if isWhiteSpace3 c1 c2 c3 then trimStart r3 else s
              end
        end
  end.

(** A string of white space only. *)
Definition blank (s : string) : bool :=
  match trimStart s with EmptyString => true | String _ _ => false end.

(** [trimEnd]: the longest blank end is dropped.  A white-space code
    point starts with a byte that is no continuation byte, so a blank end
    always starts where a code point starts. *)
Fixpoint trimEnd (s : string) : string :=
  match s with
  | EmptyString => EmptyString
  | String c r => if blank s then EmptyString else String c (trimEnd r)
  end.

Definition trim (s : string) : string := trimEnd (trimStart s).

Definition startsWith (s p : string) : bool := String.prefix p s.

(** [s.indexOf(c)]: position of the first occurrence, [-1] when absent. *)
Fixpoint indexOf (c : ascii) (s : string) : Z :=
  match s with
  | EmptyString => -1
  | String d r =>
      if Ascii.eqb c d then 0
      else let i := indexOf c r in if i <? 0 then -1 else i + 1
  end.

Fixpoint drop (n : nat) (s : string) : string :=
  match n, s with
  | O, _ => s
  | S _, EmptyString => EmptyString
  | S k, String _ r => drop k r
  end.

(** [s.substring(start)]: a negative start counts as 0. *)
Definition substring (start : Z) (s : string) : string :=
  drop (Z.to_nat start) s.

Definition quote : string := String (ascii_of_nat 34) EmptyString.

End JS.

(** ** models/chat.model.ts *)

Module ChatModel.

Inductive ChatRole := user | model.

Record MediaAttachment := {
  dataUrl : string;
  mimeType : string;
}.

Record WebSource := {
  uri : string;
  title : string;
}.

Record GroundingChunk := {
  web : option WebSource;
}.

Record ChatMessage := {
  id : Z;
  role : ChatRole;
  text : string;
  image : option MediaAttachment;
  video : option MediaAttachment;
  audio : option MediaAttachment;
  groundingChunks : option (list GroundingChunk);
  isLoading : option bool;
  isPlayingAudio : option bool;
}.

(** [{ ...m, text: t }] and the other object spreads of the component. *)
Definition with_text (t : string) (m : ChatMessage) : ChatMessage :=
  {| id := id m; role := role m; text := t; image := image m;
     video := video m; audio := audio m;
     groundingChunks := groundingChunks m; isLoading := isLoading m;
     isPlayingAudio := isPlayingAudio m |}.

Definition with_image (a : option MediaAttachment) (m : ChatMessage) : ChatMessage :=
  {| id := id m; role := role m; text := text m; image := a;
     video := video m; audio := audio m;
     groundingChunks := groundingChunks m; isLoading := isLoading m;
     isPlayingAudio := isPlayingAudio m |}.

Definition with_video (a : option MediaAttachment) (m : ChatMessage) : ChatMessage :=
  {| id := id m; role := role m; text := text m; image := image m;
     video := a; audio := audio m;
     groundingChunks := groundingChunks m; isLoading := isLoading m;
     isPlayingAudio := isPlayingAudio m |}.

Definition with_groundingChunks (g : option (list GroundingChunk))
  (m : ChatMessage) : ChatMessage :=
  {| id := id m; role := role m; text := text m; image := image m;
     video := video m; audio := audio m;
     groundingChunks := g; isLoading := isLoading m;
     isPlayingAudio := isPlayingAudio m |}.

Definition with_isLoading (b : option bool) (m : ChatMessage) : ChatMessage :=
  {| id := id m; role := role m; text := text m; image := image m;
     video := video m; audio := audio m;
     groundingChunks := groundingChunks m; isLoading := b;
     isPlayingAudio := isPlayingAudio m |}.

Definition with_isPlayingAudio (b : option bool) (m : ChatMessage) : ChatMessage :=
  {| id := id m; role := role m; text := text m; image := image m;
     video := video m; audio := audio m;
     groundingChunks := groundingChunks m; isLoading := isLoading m;
     isPlayingAudio := b |}.

(** [history.map(m => m.id === k ? f(m) : m)]: the replace-by-id update
    every handler uses.  Every message that carries the id is replaced. *)
Definition updateById (k : Z) (f : ChatMessage -> ChatMessage)
  (history : list ChatMessage) : list ChatMessage :=
  map (fun m => if id m =? k then f m else m) history.

(** A flag that is absent ([undefined]) is falsy. *)
Definition loading (m : ChatMessage) : bool :=
  match isLoading m with Some b => b | None => false end.

Definition playing (m : ChatMessage) : bool :=
  match isPlayingAudio m with Some b => b | None => false end.

(** The citations a message shows; an absent list shows none. *)
Definition citations (m : ChatMessage) : list GroundingChunk :=
  match groundingChunks m with Some l => l | None => [] end.

End ChatModel.

(** ** services/gemini.service.ts: the gateway *)

Module GeminiService.
Import ChatModel.

Record MediaPart := {
  data : string;
  partMimeType : string;
}.

Inductive Part :=
| TextPart (t : string)
| InlineData (d : string) (mime : string).

(** One fragment of the generator: [{ text?, groundingChunks? }]. *)
Record Fragment := {
  fragText : option string;
  fragGrounding : option (list GroundingChunk);
}.

(** What the SDK is asked: the argument of [model.generateContentStream]. *)
Record ProviderRequest := {
  reqModel : string;
  reqParts : list Part;
  reqThinkingBudget : option Z;
  reqGoogleSearch : bool;
}.

(** What the SDK answers: the chunks it delivers, each seen through the
    two fields the generator reads ([chunk.text] and the grounding chunks
    of the first candidate), and whether the call or the iteration then
    fails.  A request that fails outright is the response with no chunk
    and [failsAfter = true]. *)
Record ProviderResponse := {
  chunks : list Fragment;
  failsAfter : bool;
}.

Definition Provider := ProviderRequest -> ProviderResponse.

Record StreamArgs := {
  prompt : string;
  modelName : string;
  useThinking : bool;
  useWebSearch : bool;
  media : option (list MediaPart);
}.

Definition errorText : string :=
  "An error occurred. Please check the console for details.".

Definition errorFragment : Fragment :=
  {| fragText := Some errorText; fragGrounding := None |}.

(** [parts.unshift(...)] for each media item, in order. *)
Definition buildParts (a : StreamArgs) : list Part :=
  match media a with
  | Some ms =>
      fold_left (fun parts m => InlineData (data m) (partMimeType m) :: parts)
        ms [TextPart (prompt a)]
  | None => [TextPart (prompt a)]
  end.

Definition buildRequest (a : StreamArgs) : ProviderRequest :=
  {| reqModel := modelName a;
     reqParts := buildParts a;
     reqThinkingBudget := if useThinking a then Some 32768 else None;
     reqGoogleSearch := useWebSearch a |}.

(** [generateContentStream]: the fragments the generator yields.  The
    [try] covers the call and the whole iteration, so a failure ends the
    stream with [errorFragment] and nothing is thrown to the consumer. *)
Definition generateContentStream (remote : Provider) (a : StreamArgs)
  : list Fragment :=
  let response := remote (buildRequest a) in
  chunks response ++ (if failsAfter response then [errorFragment] else []).

(** A video-generation job handle: [done] and, under
    [response.generatedVideos[0].video.uri], the result locator. *)
Record Operation := {
  done : bool;
  resultUri : option string;
  metadataState : option string;
}.

(** *** textToSpeech: the copy of the decoded audio into a byte array

    [window.atob] gives a string with one character per byte;
    [binaryString] below is that string, held here with one [ascii] per
    character (every character of it is below 256). *)

(** [s.charCodeAt(i)]; outside the string it is [NaN], which a byte
    array stores as 0. *)
Definition charCodeAt (i : nat) (s : string) : Z :=
  match String.get i s with
  | Some c => Z.of_nat (nat_of_ascii c)
  | None => 0
  end.

(** [bytes[i] = v] on a [Uint8Array]: the value is taken modulo 256, and
    a write outside the array is ignored. *)
Fixpoint store (i : nat) (v : Z) (bytes : list Z) : list Z :=
  match bytes, i with
  | [], _ => []
  | _ :: rest, O => (v mod 256) :: rest
  | b :: rest, S j => b :: store j v rest
  end.

(** [for (let i = ...; i < len; i++) bytes[i] = binaryString.charCodeAt(i)],
    with [remaining = len - i]. *)
Fixpoint copyLoop (binaryString : string) (i remaining : nat) (bytes : list Z)
  : list Z :=
  match remaining with
  | O => bytes
  | S n => copyLoop binaryString (S i) n (store i (charCodeAt i binaryString) bytes)
  end.

Definition decodedBytes (binaryString : string) : list Z :=
  let len := String.length binaryString in
  copyLoop binaryString 0 len (repeat 0 len).

End GeminiService.

(** ** Outcomes of asynchronous methods

    A promise either resolves, rejects, or stays pending for ever (the
    video poll loop has no bound).  Each outcome carries the component
    state at that point. *)

Inductive Outcome (S : Type) :=
| Resolved (s : S)
| Rejected (s : S)
| Pending (s : S).

Arguments Resolved {S} s.
Arguments Rejected {S} s.
Arguments Pending {S} s.

Definition stateOf {S : Type} (o : Outcome S) : S :=
  match o with Resolved s | Rejected s | Pending s => s end.

(** [await o; k]: the continuation runs only after a resolution. *)
Definition andThen {S : Type} (o : Outcome S) (k : S -> Outcome S) : Outcome S :=
  match o with
  | Resolved s => k s
  | Rejected s => Rejected s
  | Pending s => Pending s
  end.

Definition isResolved {S : Type} (o : Outcome S) : bool :=
  match o with Resolved _ => true | _ => false end.

Definition isRejected {S : Type} (o : Outcome S) : bool :=
  match o with Rejected _ => true | _ => false end.

(** The poll loop [while (!operation.done) { await delay; operation = await
    getVideosOperation(operation) }] against the successive answers of the
    provider ([None]: the call throws). *)
Inductive PollResult :=
| PollDone (op : GeminiService.Operation)
| PollThrows
| PollForever.

Inductive AppMode := ModeChat | ModeImage | ModeVideo.

Inductive ChatModelName := Gemini25Flash | Gemini3ProPreview.

Definition chatModelString (m : ChatModelName) : string :=
  match m with
  | Gemini25Flash => "gemini-2.5-flash"
  | Gemini3ProPreview => "gemini-3-pro-preview"
  end.

Inductive ImageAspectRatio := R1x1 | R16x9 | R9x16 | R4x3 | R3x4.

Definition aspectRatioString (r : ImageAspectRatio) : string :=
  match r with
  | R1x1 => "1:1" | R16x9 => "16:9" | R9x16 => "9:16"
  | R4x3 => "4:3" | R3x4 => "3:4"
  end.

(** [private stripDataUrlPrefix]; the same in both revisions. *)
Definition stripDataUrlPrefix (dataUrl : string) : string :=
  JS.substring (JS.indexOf "," dataUrl + 1) dataUrl.

(** [f?.mimeType.startsWith(p) ? f : undefined] *)
Definition slotFor (p : string) (f : option ChatModel.MediaAttachment)
  : option ChatModel.MediaAttachment :=
  match f with
  | Some a => if JS.startsWith (ChatModel.mimeType a) p then Some a else None
  | None => None
  end.

Definition toMediaPart (a : ChatModel.MediaAttachment) : GeminiService.MediaPart :=
  {| GeminiService.data := stripDataUrlPrefix (ChatModel.dataUrl a);
     GeminiService.partMimeType := ChatModel.mimeType a |}.

(** ** app.component.ts, first revision (lines 1-378)

    The revision with persistence, audio attachments and the microphone
    error state.  Handlers create their own placeholder. *)

Module AppComponent.
Import ChatModel.

(** *** Persisted state

    One local-storage entry under [storageKey].  [JSON.stringify] and
    [JSON.parse] are taken at the level of the value the text denotes:
    an array of [{role, text, groundingChunks}] objects, the empty text,
    or a text on which [JSON.parse] or the following [map] throws. *)

Definition storageKey : string := "fulltask_ai_lite_history".

Record SavedMessage := {
  savedRole : ChatRole;
  savedText : string;
  savedGroundingChunks : option (list GroundingChunk);
}.

Inductive StorageItem :=
| JsonHistory (l : list SavedMessage)
| EmptyText
| Unparsable.

Record State := {
  currentMode : AppMode;
  chatHistory : list ChatMessage;
  isLoading : bool;
  isRecording : bool;
  micError : option string;
  userInput : string;
  uploadedFile : option MediaAttachment;
  chatModel : ChatModelName;
  useWebSearch : bool;
  imageAspectRatio : ImageAspectRatio;
  fileInputValue : option string;   (* the [fileInput] element, when rendered *)
  hasRecorder : bool;               (* [mediaRecorder !== null] *)
  localStorage : option StorageItem; (* the entry under [storageKey] *)
}.

Definition set_chatHistory (h : list ChatMessage) (s : State) : State :=
  {| currentMode := currentMode s; chatHistory := h; isLoading := isLoading s;
     isRecording := isRecording s; micError := micError s;
     userInput := userInput s; uploadedFile := uploadedFile s;
     chatModel := chatModel s; useWebSearch := useWebSearch s;
     imageAspectRatio := imageAspectRatio s;
     fileInputValue := fileInputValue s; hasRecorder := hasRecorder s;
     localStorage := localStorage s |}.

Definition set_isLoading (b : bool) (s : State) : State :=
  {| currentMode := currentMode s; chatHistory := chatHistory s; isLoading := b;
     isRecording := isRecording s; micError := micError s;
     userInput := userInput s; uploadedFile := uploadedFile s;
     chatModel := chatModel s; useWebSearch := useWebSearch s;
     imageAspectRatio := imageAspectRatio s;
     fileInputValue := fileInputValue s; hasRecorder := hasRecorder s;
     localStorage := localStorage s |}.

Definition set_isRecording (b : bool) (s : State) : State :=
  {| currentMode := currentMode s; chatHistory := chatHistory s;
     isLoading := isLoading s;
     isRecording := b; micError := micError s;
     userInput := userInput s; uploadedFile := uploadedFile s;
     chatModel := chatModel s; useWebSearch := useWebSearch s;
     imageAspectRatio := imageAspectRatio s;
     fileInputValue := fileInputValue s; hasRecorder := hasRecorder s;
     localStorage := localStorage s |}.

Definition set_micError (e : option string) (s : State) : State :=
  {| currentMode := currentMode s; chatHistory := chatHistory s;
     isLoading := isLoading s;
     isRecording := isRecording s; micError := e;
     userInput := userInput s; uploadedFile := uploadedFile s;
     chatModel := chatModel s; useWebSearch := useWebSearch s;
     imageAspectRatio := imageAspectRatio s;
     fileInputValue := fileInputValue s; hasRecorder := hasRecorder s;
     localStorage := localStorage s |}.

Definition set_userInput (t : string) (s : State) : State :=
  {| currentMode := currentMode s; chatHistory := chatHistory s;
     isLoading := isLoading s;
     isRecording := isRecording s; micError := micError s;
     userInput := t; uploadedFile := uploadedFile s;
     chatModel := chatModel s; useWebSearch := useWebSearch s;
     imageAspectRatio := imageAspectRatio s;
     fileInputValue := fileInputValue s; hasRecorder := hasRecorder s;
     localStorage := localStorage s |}.

Definition set_uploadedFile (f : option MediaAttachment) (s : State) : State :=
  {| currentMode := currentMode s; chatHistory := chatHistory s;
     isLoading := isLoading s;
     isRecording := isRecording s; micError := micError s;
     userInput := userInput s; uploadedFile := f;
     chatModel := chatModel s; useWebSearch := useWebSearch s;
     imageAspectRatio := imageAspectRatio s;
     fileInputValue := fileInputValue s; hasRecorder := hasRecorder s;
     localStorage := localStorage s |}.

Definition set_fileInputValue (v : option string) (s : State) : State :=
  {| currentMode := currentMode s; chatHistory := chatHistory s;
     isLoading := isLoading s;
     isRecording := isRecording s; micError := micError s;
     userInput := userInput s; uploadedFile := uploadedFile s;
     chatModel := chatModel s; useWebSearch := useWebSearch s;
     imageAspectRatio := imageAspectRatio s;
     fileInputValue := v; hasRecorder := hasRecorder s;
     localStorage := localStorage s |}.

Definition set_hasRecorder (b : bool) (s : State) : State :=
  {| currentMode := currentMode s; chatHistory := chatHistory s;
     isLoading := isLoading s;
     isRecording := isRecording s; micError := micError s;
     userInput := userInput s; uploadedFile := uploadedFile s;
     chatModel := chatModel s; useWebSearch := useWebSearch s;
     imageAspectRatio := imageAspectRatio s;
     fileInputValue := fileInputValue s; hasRecorder := b;
     localStorage := localStorage s |}.

Definition set_localStorage (v : option StorageItem) (s : State) : State :=
  {| currentMode := currentMode s; chatHistory := chatHistory s;
     isLoading := isLoading s;
     isRecording := isRecording s; micError := micError s;
     userInput := userInput s; uploadedFile := uploadedFile s;
     chatModel := chatModel s; useWebSearch := useWebSearch s;
     imageAspectRatio := imageAspectRatio s;
     fileInputValue := fileInputValue s; hasRecorder := hasRecorder s;
     localStorage := v |}.

(** [this.chatHistory.update(f)] *)
Definition update_chatHistory (f : list ChatMessage -> list ChatMessage)
  (s : State) : State :=
  set_chatHistory (f (chatHistory s)) s.

(** The field initialisers of the class, before the constructor body. *)
Definition initialState (stored : option StorageItem)
  (input : option string) : State :=
  {| currentMode := ModeChat; chatHistory := []; isLoading := false;
     isRecording := false; micError := None; userInput := EmptyString;
     uploadedFile := None; chatModel := Gemini25Flash;
     useWebSearch := false; imageAspectRatio := R1x1;
     fileInputValue := input; hasRecorder := false;
     localStorage := stored |}.

(** *** Persistence *)

Definition toSaved (msg : ChatMessage) : SavedMessage :=
  {| savedRole := role msg; savedText := text msg;
     savedGroundingChunks := groundingChunks msg |}.

(** [saveChatHistory].  [accepted] tells whether [localStorage.setItem]
    takes the write; when it throws (quota), the [catch] only logs. *)
Definition saveChatHistory (accepted : bool) (s : State) : State :=
  let historyToSave := map toSaved (chatHistory s) in
  if accepted then set_localStorage (Some (JsonHistory historyToSave)) s
  else s.

(** [{ ...msg, id: Date.now() + index, isLoading: false,
      isPlayingAudio: false }] for a parsed entry. *)
Definition withId (now : Z) (index : nat) (msg : SavedMessage) : ChatMessage :=
  {| id := now + Z.of_nat index; role := savedRole msg; text := savedText msg;
     image := None; video := None; audio := None;
     groundingChunks := savedGroundingChunks msg;
     ChatModel.isLoading := Some false; isPlayingAudio := Some false |}.

(** [parsedHistory.map((msg, index) => ...)]; [clock i] is the reading
    of [Date.now()] taken while entry [i] is mapped. *)
Fixpoint mapWithIds (clock : nat -> Z) (index : nat) (l : list SavedMessage)
  : list ChatMessage :=
  match l with
  | [] => []
  | msg :: rest => withId (clock index) index msg :: mapWithIds clock (S index) rest
  end.

Definition loadChatHistory (clock : nat -> Z) (s : State) : State :=
  match localStorage s with
  | None => s                               (* [getItem] gives [null] *)
  | Some EmptyText => s                     (* falsy string *)
  | Some (JsonHistory parsedHistory) =>
      set_chatHistory (mapWithIds clock 0 parsedHistory) s
  | Some Unparsable => set_localStorage None s   (* [catch]: [removeItem] *)
  end.

Definition startNewConversation (s : State) : State :=
  set_localStorage None
    (set_uploadedFile None
       (set_userInput EmptyString
          (set_chatHistory [] s))).

Definition removeUploadedFile (s : State) : State :=
  let s1 := set_uploadedFile None s in
  match fileInputValue s1 with
  | Some _ => set_fileInputValue (Some EmptyString) s1
  | None => s1
  end.

(** *** The outside world of one [sendMessage]

    The readings of [Date.now()], and what the provider answers to each
    request.  [None] stands for a call that throws (a rejected promise).
    [fetchVideoAsDataUrl] is a gateway method whose body is not in the
    source tree; it is network input and is taken as an answer of the
    world, like the others.

    The functions of a world give every chat and image request its
    answer, so [sendMessage] below tells what the method does once the
    provider has answered; only the list of poll answers can run out.  A
    request that is not answered yet is a suspended continuation of the
    event loop further down, where any event may come first or never. *)

Record World := {
  nowUser : Z;     (* [Date.now()] in [sendMessage] *)
  nowModel : Z;    (* [Date.now()] in the handler *)
  remote : GeminiService.Provider;
  generateImage : string -> string -> option string;
  generateVideo : string -> option GeminiService.MediaPart
                  -> option GeminiService.Operation;
  getVideosOperation : list (option GeminiService.Operation);
  fetchVideoAsDataUrl : string -> option string;
}.

(** *** Writes to the history signal *)

Definition placeholder (k : Z) (t : string) : ChatMessage :=
  {| id := k; role := model; text := t; image := None; video := None;
     audio := None; groundingChunks := None;
     ChatModel.isLoading := Some true; isPlayingAudio := None |}.

Definition pushMessage (m : ChatMessage) (s : State) : State :=
  update_chatHistory (fun history => (history ++ [m])%list) s.

Definition writeChunk (k : Z) (fullText : string)
  (groundingChunks : list GroundingChunk) (s : State) : State :=
  update_chatHistory
    (updateById k (fun m =>
       with_groundingChunks (Some groundingChunks) (with_text fullText m))) s.

Definition settle (k : Z) (s : State) : State :=
  update_chatHistory (updateById k (with_isLoading (Some false))) s.

Definition writeText (k : Z) (t : string) (s : State) : State :=
  update_chatHistory (updateById k (with_text t)) s.

Definition settleWithText (k : Z) (t : string) (s : State) : State :=
  update_chatHistory
    (updateById k (fun m => with_isLoading (Some false) (with_text t m))) s.

Definition settleWithImage (k : Z) (a : MediaAttachment) (s : State) : State :=
  update_chatHistory
    (updateById k (fun m =>
       with_isLoading (Some false)
         (with_image (Some a) (with_text EmptyString m)))) s.

Definition settleWithVideo (k : Z) (a : MediaAttachment) (s : State) : State :=
  update_chatHistory
    (updateById k (fun m =>
       with_isLoading (Some false)
         (with_video (Some a) (with_text EmptyString m)))) s.

(** *** handleChat *)

(** The call [this.geminiService.generateContentStream(userMessage.text,
    this.chatModel(), this.useWebSearch(), mediaParts)] of lines 278-283:
    its four arguments, in the order in which they are passed. *)
Record StreamCall := {
  callPrompt : string;
  callModel : string;
  callUseWebSearch : bool;
  callMedia : option (list GeminiService.MediaPart);
}.

Definition chatCall (userMessage : ChatMessage) (s : State) : StreamCall :=
  let media := JS.or_obj (image userMessage)
                 (JS.or_obj (video userMessage) (audio userMessage)) in
  let mediaParts :=
    match media with
    | Some a => Some [toMediaPart a]
    | None => None
    end in
  {| callPrompt := text userMessage;
     callModel := chatModelString (chatModel s);
     callUseWebSearch := useWebSearch s;
     callMedia := mediaParts |}.

(** The parameters of the gateway that receive them.  The gateway of the
    source tree is [generateContentStream(prompt, modelName, useThinking,
    useWebSearch, media?)], with five parameters, and a JavaScript call
    binds its arguments position by position: the third argument, the
    web-search switch, is read as [useThinking]; the fourth, the media
    array, is read as [useWebSearch] (an array is truthy, [undefined] is
    not); [media] is left [undefined]. *)
Definition bindArgs (c : StreamCall) : GeminiService.StreamArgs :=
  {| GeminiService.prompt := callPrompt c;
     GeminiService.modelName := callModel c;
     GeminiService.useThinking := callUseWebSearch c;
     GeminiService.useWebSearch :=
       match callMedia c with Some _ => true | None => false end;
     GeminiService.media := None |}.

Definition chatArgs (userMessage : ChatMessage) (s : State)
  : GeminiService.StreamArgs :=
  bindArgs (chatCall userMessage s).

(** One turn of [for await (const chunk of stream)]: the new values of
    the locals [fullText] and [groundingChunks]. *)
Definition nextText (fullText : string) (chunk : GeminiService.Fragment) : string :=
  fullText ++ JS.or_else (GeminiService.fragText chunk) EmptyString.

Definition nextGrounding (groundingChunks : list GroundingChunk)
  (chunk : GeminiService.Fragment) : list GroundingChunk :=
  match GeminiService.fragGrounding chunk with
  | Some cs => (groundingChunks ++ cs)%list
  | None => groundingChunks
  end.

Fixpoint consumeStream (k : Z) (stream : list GeminiService.Fragment)
  (fullText : string) (groundingChunks : list GroundingChunk) (s : State)
  : State :=
  match stream with
  | [] => s
  | chunk :: rest =>
      let fullText' := nextText fullText chunk in
      let groundingChunks' := nextGrounding groundingChunks chunk in
      consumeStream k rest fullText' groundingChunks'
        (writeChunk k fullText' groundingChunks' s)
  end.

Definition handleChat (w : World) (userMessage : ChatMessage) (s : State)
  : Outcome State :=
  let modelResponseId := nowModel w + 1 in
  let s1 := pushMessage (placeholder modelResponseId EmptyString) s in
  let stream :=
    GeminiService.generateContentStream (remote w) (chatArgs userMessage s1) in
  let s2 := consumeStream modelResponseId stream EmptyString [] s1 in
  Resolved (settle modelResponseId s2).

(** *** handleImageGeneration *)

(** [`Generating an image for: "${userMessage.text}"`] *)
Definition imagePending (userMessage : ChatMessage) : string :=
  "Generating an image for: " ++ JS.quote ++ text userMessage ++ JS.quote.

Definition imageApology : string :=
  "Sorry, I was unable to generate the image. Please try again.".

Definition handleImageGeneration (w : World) (userMessage : ChatMessage)
  (s : State) : Outcome State :=
  let modelResponseId := nowModel w + 1 in
  let s1 := pushMessage (placeholder modelResponseId (imagePending userMessage)) s in
  match generateImage w (text userMessage)
          (aspectRatioString (imageAspectRatio s1)) with
  | Some imageBytes =>
      let dataUrl := "data:image/png;base64," ++ imageBytes in
      let imageAttachment := {| dataUrl := dataUrl; mimeType := "image/png" |} in
      Resolved (settleWithImage modelResponseId imageAttachment s1)
  | None =>
      Resolved (settleWithText modelResponseId imageApology s1)
  end.

(** *** handleVideoGeneration *)

Definition videoStarting : string :=
  "🎬 Starting video generation... This may take a few minutes.".
Definition videoProcessing : string :=
  "🤖 Processing video request... The AI is thinking.".
Definition videoDownloading : string :=
  "✅ Video processed! Downloading...".
Definition videoApology : string :=
  "Sorry, I was unable to generate the video. Please try again or check the console.".

Fixpoint pollLoop (operation : GeminiService.Operation)
  (answers : list (option GeminiService.Operation)) {struct answers}
  : PollResult :=
  if GeminiService.done operation then PollDone operation
  else
    match answers with
    | [] => PollForever
    | None :: _ => PollThrows
    | Some operation' :: rest => pollLoop operation' rest
    end.

(** [if (uri)]: an absent or empty locator is falsy. *)
Definition truthyUri (operation : GeminiService.Operation) : option string :=
  match GeminiService.resultUri operation with
  | Some u => if JS.truthy u then Some u else None
  | None => None
  end.

Definition videoImage (userMessage : ChatMessage) (s : State)
  : option GeminiService.MediaPart :=
  match image userMessage with
  | Some a => Some (toMediaPart a)
  | None =>
      match slotFor "image/" (uploadedFile s) with
      | Some a => Some (toMediaPart a)
      | None => None
      end
  end.

Definition handleVideoGeneration (w : World) (userMessage : ChatMessage)
  (s : State) : Outcome State :=
  let modelResponseId := nowModel w + 1 in
  let s1 := pushMessage (placeholder modelResponseId videoStarting) s in
  let caught := fun s' => Resolved (settleWithText modelResponseId videoApology s') in
  match generateVideo w (text userMessage) (videoImage userMessage s1) with
  | None => caught s1
  | Some operation =>
      let s2 := writeText modelResponseId videoProcessing s1 in
      match pollLoop operation (getVideosOperation w) with
      | PollForever => Pending s2
      | PollThrows => caught s2
      | PollDone operation' =>
          match truthyUri operation' with
          | Some uri =>
              let s3 := writeText modelResponseId videoDownloading s2 in
              match fetchVideoAsDataUrl w uri with
              | Some dataUrl =>
                  let videoAttachment :=
                    {| dataUrl := dataUrl; mimeType := "video/mp4" |} in
                  Resolved (settleWithVideo modelResponseId videoAttachment s3)
              | None => caught s3
              end
          | None => caught s2   (* [throw new Error(...)] inside the [try] *)
          end
      end
  end.

(** *** sendMessage *)

Definition guard (s : State) : bool :=
  let userMessageText := JS.trim (userInput s) in
  (negb (JS.truthy userMessageText)
     && match uploadedFile s with Some _ => false | None => true end)
  || isLoading s.

Definition makeUserMessage (now : Z) (s : State) : ChatMessage :=
  {| id := now; role := user; text := JS.trim (userInput s);
     image := slotFor "image/" (uploadedFile s);
     video := slotFor "video/" (uploadedFile s);
     audio := slotFor "audio/" (uploadedFile s);
     groundingChunks := None; ChatModel.isLoading := None;
     isPlayingAudio := None |}.

(** The end of [sendMessage], after the awaited handler. *)
Definition sendTail (s : State) : State :=
  set_isLoading false (removeUploadedFile s).

Definition dispatch (w : World) (userMessage : ChatMessage) (s : State)
  : Outcome State :=
  match currentMode s with
  | ModeChat => handleChat w userMessage s
  | ModeImage => handleImageGeneration w userMessage s
  | ModeVideo => handleVideoGeneration w userMessage s
  end.

Definition sendMessage (w : World) (s : State) : Outcome State :=
  if guard s then Resolved s
  else
    let s1 := set_isLoading true s in
    let userMessage := makeUserMessage (nowUser w) s1 in
    let s2 := pushMessage userMessage s1 in
    let s3 := set_userInput EmptyString s2 in
    andThen (dispatch w userMessage s3) (fun s4 => Resolved (sendTail s4)).

(** *** playAudio, recording: the synchronous pieces *)

Definition setPlaying (k : Z) (b : bool) (s : State) : State :=
  update_chatHistory (updateById k (with_isPlayingAudio (Some b))) s.

Definition micDenied : string :=
  "Microphone permission denied. Please allow access in your browser settings.".
Definition micUnavailable : string :=
  "Could not access the microphone. Please ensure it is connected and enabled.".

Definition micErrorFor (errorName : string) : string :=
  if (errorName =? "NotAllowedError")%string
     || (errorName =? "PermissionDeniedError")%string
  then micDenied else micUnavailable.

(** *** The event loop

    Between two [await]s a method runs without interruption; other
    handlers run while it is suspended.  A configuration is the component
    state and the suspended continuations with their local variables. *)

Inductive Task :=
| ChatTask (modelResponseId : Z) (fullText : string)
    (groundingChunks : list GroundingChunk)
| ImageTask (modelResponseId : Z)
| VideoSubmitTask (modelResponseId : Z)
| VideoPollTask (modelResponseId : Z)
| VideoFetchTask (modelResponseId : Z)
| SpeechTask (messageId : Z)
| PlaybackTask (messageId : Z)
| MicTask
| EncodeTask
| TranscribeTask (fullResponse : string).

Record Config := {
  st : State;
  tasks : list Task;
}.

Inductive Event :=
(* user actions *)
| EvSend (nowUser nowModel : Z)
| EvNewConversation
| EvSetInput (t : string)
| EvSetMode (m : AppMode)
| EvSetChatModel (m : ChatModelName)
| EvSetWebSearch (b : bool)
| EvSetAspectRatio (r : ImageAspectRatio)
| EvFileSelected (a : MediaAttachment)
| EvRemoveUploadedFile
| EvPlayAudio (position : nat)
| EvStartRecording
| EvStopRecording
(* answers of the world to the suspended task number [i] *)
| EvChunk (i : nat) (chunk : GeminiService.Fragment)
| EvStreamEnd (i : nat)
| EvImage (i : nat) (imageBytes : string)
| EvOperation (i : nat) (operation : GeminiService.Operation)
| EvVideoData (i : nat) (dataUrl : string)
| EvSpeech (i : nat)
| EvPlaybackEnded (i : nat)
| EvMicGranted (i : nat)
| EvEncoded (i : nat)
| EvThrow (i : nat) (errorName : string)
(* the [effect] that mirrors the history to local storage *)
| EvSaveEffect (accepted : bool).

Definition removeTask (i : nat) (ts : list Task) : list Task :=
  (firstn i ts ++ skipn (S i) ts)%list.

Definition replaceTask (i : nat) (t : Task) (ts : list Task) : list Task :=
  (firstn i ts ++ t :: skipn (S i) ts)%list.

Definition set_currentMode (m : AppMode) (s : State) : State :=
  {| currentMode := m; chatHistory := chatHistory s; isLoading := isLoading s;
     isRecording := isRecording s; micError := micError s;
     userInput := userInput s; uploadedFile := uploadedFile s;
     chatModel := chatModel s; useWebSearch := useWebSearch s;
     imageAspectRatio := imageAspectRatio s;
     fileInputValue := fileInputValue s; hasRecorder := hasRecorder s;
     localStorage := localStorage s |}.

Definition set_chatModel (m : ChatModelName) (s : State) : State :=
  {| currentMode := currentMode s; chatHistory := chatHistory s;
     isLoading := isLoading s;
     isRecording := isRecording s; micError := micError s;
     userInput := userInput s; uploadedFile := uploadedFile s;
     chatModel := m; useWebSearch := useWebSearch s;
     imageAspectRatio := imageAspectRatio s;
     fileInputValue := fileInputValue s; hasRecorder := hasRecorder s;
     localStorage := localStorage s |}.

Definition set_useWebSearch (b : bool) (s : State) : State :=
  {| currentMode := currentMode s; chatHistory := chatHistory s;
     isLoading := isLoading s;
     isRecording := isRecording s; micError := micError s;
     userInput := userInput s; uploadedFile := uploadedFile s;
     chatModel := chatModel s; useWebSearch := b;
     imageAspectRatio := imageAspectRatio s;
     fileInputValue := fileInputValue s; hasRecorder := hasRecorder s;
     localStorage := localStorage s |}.

Definition set_imageAspectRatio (r : ImageAspectRatio) (s : State) : State :=
  {| currentMode := currentMode s; chatHistory := chatHistory s;
     isLoading := isLoading s;
     isRecording := isRecording s; micError := micError s;
     userInput := userInput s; uploadedFile := uploadedFile s;
     chatModel := chatModel s; useWebSearch := useWebSearch s;
     imageAspectRatio := r;
     fileInputValue := fileInputValue s; hasRecorder := hasRecorder s;
     localStorage := localStorage s |}.

(** [sendMessage] up to its first [await]: the guard, the user message,
    the placeholder of the handler, and the continuation left behind. *)
Definition beginSend (nowUser nowModel : Z) (c : Config) : Config :=
  let s := st c in
  if guard s then c
  else
    let s1 := set_isLoading true s in
    let userMessage := makeUserMessage nowUser s1 in
    let s3 := set_userInput EmptyString (pushMessage userMessage s1) in
    let k := nowModel + 1 in
    match currentMode s3 with
    | ModeChat =>
        {| st := pushMessage (placeholder k EmptyString) s3;
           tasks := (tasks c ++ [ChatTask k EmptyString []])%list |}
    | ModeImage =>
        {| st := pushMessage (placeholder k (imagePending userMessage)) s3;
           tasks := (tasks c ++ [ImageTask k])%list |}
    | ModeVideo =>
        {| st := pushMessage (placeholder k videoStarting) s3;
           tasks := (tasks c ++ [VideoSubmitTask k])%list |}
    end.

(** The handler is over: its [catch]/success write [w], then the end of
    [sendMessage]; the continuation [i] is gone. *)
Definition finishSend (i : nat) (w : State -> State) (c : Config) : Config :=
  {| st := sendTail (w (st c)); tasks := removeTask i (tasks c) |}.

(** [while (!operation.done)] and the inspection of the finished job. *)
Definition afterOperation (i : nat) (k : Z) (operation : GeminiService.Operation)
  (c : Config) : Config :=
  if GeminiService.done operation then
    match truthyUri operation with
    | Some _ =>
        {| st := writeText k videoDownloading (st c);
           tasks := replaceTask i (VideoFetchTask k) (tasks c) |}
    | None => finishSend i (settleWithText k videoApology) c
    end
  else {| st := st c; tasks := replaceTask i (VideoPollTask k) (tasks c) |}.

Definition fire (e : Event) (c : Config) : option Config :=
  let s := st c in
  let stay := fun s' => Some {| st := s'; tasks := tasks c |} in
  match e with
  | EvSend nowUser nowModel => Some (beginSend nowUser nowModel c)
  | EvNewConversation => stay (startNewConversation s)
  | EvSetInput t => stay (set_userInput t s)
  | EvSetMode m => stay (set_currentMode m s)
  | EvSetChatModel m => stay (set_chatModel m s)
  | EvSetWebSearch b => stay (set_useWebSearch b s)
  | EvSetAspectRatio r => stay (set_imageAspectRatio r s)
  | EvFileSelected a => stay (set_uploadedFile (Some a) s)
  | EvRemoveUploadedFile => stay (removeUploadedFile s)
  | EvSaveEffect accepted => stay (saveChatHistory accepted s)
  | EvPlayAudio position =>
      match nth_error (chatHistory s) position with
      | Some message =>
          if playing message then Some c
          else Some {| st := setPlaying (id message) true s;
                       tasks := (tasks c ++ [SpeechTask (id message)])%list |}
      | None => None
      end
  | EvStartRecording =>
      if isRecording s then Some c
      else Some {| st := set_micError None s;
                   tasks := (tasks c ++ [MicTask])%list |}
  | EvStopRecording =>
      if hasRecorder s && isRecording s
      then Some {| st := set_isRecording false s;
                   tasks := (tasks c ++ [EncodeTask])%list |}
      else Some c
  | EvChunk i chunk =>
      match nth_error (tasks c) i with
      | Some (ChatTask k fullText groundingChunks) =>
          let fullText' := nextText fullText chunk in
          let groundingChunks' := nextGrounding groundingChunks chunk in
          Some {| st := writeChunk k fullText' groundingChunks' s;
                  tasks := replaceTask i (ChatTask k fullText' groundingChunks')
                             (tasks c) |}
      | Some (TranscribeTask fullResponse) =>
          Some {| st := s;
                  tasks := replaceTask i
                             (TranscribeTask (nextText fullResponse chunk))
                             (tasks c) |}
      | _ => None
      end
  | EvStreamEnd i =>
      match nth_error (tasks c) i with
      | Some (ChatTask k _ _) => Some (finishSend i (settle k) c)
      | Some (TranscribeTask fullResponse) =>
          Some {| st := set_isLoading false
                          (set_userInput (JS.trim fullResponse) s);
                  tasks := removeTask i (tasks c) |}
      | _ => None
      end
  | EvImage i imageBytes =>
      match nth_error (tasks c) i with
      | Some (ImageTask k) =>
          let imageAttachment :=
            {| dataUrl := "data:image/png;base64," ++ imageBytes;
               mimeType := "image/png" |} in
          Some (finishSend i (settleWithImage k imageAttachment) c)
      | _ => None
      end
  | EvOperation i operation =>
      match nth_error (tasks c) i with
      | Some (VideoSubmitTask k) =>
          Some (afterOperation i k operation
                  {| st := writeText k videoProcessing s; tasks := tasks c |})
      | Some (VideoPollTask k) => Some (afterOperation i k operation c)
      | _ => None
      end
  | EvVideoData i dataUrl =>
      match nth_error (tasks c) i with
      | Some (VideoFetchTask k) =>
          let videoAttachment :=
            {| dataUrl := dataUrl; mimeType := "video/mp4" |} in
          Some (finishSend i (settleWithVideo k videoAttachment) c)
      | _ => None
      end
  | EvSpeech i =>
      match nth_error (tasks c) i with
      | Some (SpeechTask k) =>
          Some {| st := s; tasks := replaceTask i (PlaybackTask k) (tasks c) |}
      | _ => None
      end
  | EvPlaybackEnded i =>
      match nth_error (tasks c) i with
      | Some (PlaybackTask k) =>
          Some {| st := setPlaying k false s; tasks := removeTask i (tasks c) |}
      | _ => None
      end
  | EvMicGranted i =>
      match nth_error (tasks c) i with
      | Some MicTask =>
          Some {| st := set_hasRecorder true (set_isRecording true s);
                  tasks := removeTask i (tasks c) |}
      | _ => None
      end
  | EvEncoded i =>
      match nth_error (tasks c) i with
      | Some EncodeTask =>
          Some {| st := set_isLoading true s;
                  tasks := replaceTask i (TranscribeTask EmptyString) (tasks c) |}
      | _ => None
      end
  | EvThrow i errorName =>
      match nth_error (tasks c) i with
      | Some (ImageTask k) =>
          Some (finishSend i (settleWithText k imageApology) c)
      | Some (VideoSubmitTask k) | Some (VideoPollTask k)
      | Some (VideoFetchTask k) =>
          Some (finishSend i (settleWithText k videoApology) c)
      | Some (SpeechTask k) =>
          Some {| st := setPlaying k false s; tasks := removeTask i (tasks c) |}
      | Some MicTask =>
          Some {| st := set_isRecording false
                          (set_micError (Some (micErrorFor errorName)) s);
                  tasks := removeTask i (tasks c) |}
      | Some EncodeTask =>      (* [fileToBase64] rejects inside [onstop] *)
          Some {| st := s; tasks := removeTask i (tasks c) |}
      | _ => None
      end
  end.

Fixpoint run (es : list Event) (c : Config) : option Config :=
  match es with
  | [] => Some c
  | e :: rest =>
      match fire e c with
      | Some c' => run rest c'
      | None => None
      end
  end.

(** The constructor: field initialisers, then [loadChatHistory]. *)
Definition boot (stored : option StorageItem) (input : option string)
  (clock : nat -> Z) : Config :=
  {| st := loadChatHistory clock (initialState stored input); tasks := [] |}.

Definition Reachable (c : Config) : Prop :=
  exists stored input clock es, run es (boot stored input clock) = Some c.

(** [startNewChat(prompt)]: the synchronous part, then the microtask. *)
Definition startNewChat (prompt : string) (nowUser nowModel : Z) : list Event :=
  [EvNewConversation; EvSetInput prompt; EvSend nowUser nowModel].

(** The events of one chat exchange whose continuation is task [i]:
    the fragments in order, then the end of the stream. *)
Definition chatEvents (i : nat) (stream : list GeminiService.Fragment)
  : list Event :=
  (map (EvChunk i) stream ++ [EvStreamEnd i])%list.

(** The configurations a run goes through, the first one included. *)
Fixpoint trace (es : list Event) (c : Config) : list Config :=
  c :: match es with
       | [] => []
       | e :: rest =>
           match fire e c with
           | Some c' => trace rest c'
           | None => []
           end
       end.

(** The loading flag of the message at a position of the history. *)
Definition loadingAt (n : nat) (c : Config) : option bool :=
  option_map loading (nth_error (chatHistory (st c)) n).

(** How often a sequence of flags goes from set to cleared. *)
Fixpoint clearings (flags : list (option bool)) : nat :=
  match flags with
  | [] => O
  | a :: rest =>
      (match a, rest with
       | Some true, Some false :: _ => 1
       | _, _ => 0
       end + clearings rest)%nat
  end.

(** [startNewConversation] is the one operation that deletes messages. *)
Definition clears (e : Event) : bool :=
  match e with EvNewConversation => true | _ => false end.

(** Requests in flight: the suspended [sendMessage] calls. *)
Definition requestId (t : Task) : option Z :=
  match t with
  | ChatTask k _ _ | ImageTask k | VideoSubmitTask k
  | VideoPollTask k | VideoFetchTask k => Some k
  | _ => None
  end.

Fixpoint requestIds (ts : list Task) : list Z :=
  match ts with
  | [] => []
  | t :: rest =>
      match requestId t with
      | Some k => k :: requestIds rest
      | None => requestIds rest
      end
  end.

Fixpoint loadingIds (history : list ChatMessage) : list Z :=
  match history with
  | [] => []
  | m :: rest => if loading m then id m :: loadingIds rest else loadingIds rest
  end.

(** The messages one event appends to the history: the user message
    and the placeholder of a [sendMessage] that passes the guard. *)
Definition placeholderText (userMessage : ChatMessage) (m : AppMode) : string :=
  match m with
  | ModeChat => EmptyString
  | ModeImage => imagePending userMessage
  | ModeVideo => videoStarting
  end.

Definition appended (e : Event) (c : Config) : list ChatMessage :=
  match e with
  | EvSend nowUser nowModel =>
      if guard (st c) then []
      else
        let userMessage := makeUserMessage nowUser (set_isLoading true (st c)) in
        [userMessage;
         placeholder (nowModel + 1)
           (placeholderText userMessage (currentMode (st c)))]
  | _ => []
  end.

(** A history moves forward: every message keeps its position, id and
    role, a cleared loading flag stays cleared, and the new messages
    [extra] come at the end. *)
Definition forwardBy (extra h h' : list ChatMessage) : Prop :=
  exists g,
    h' = (map g h ++ extra)%list
    /\ forall m, id (g m) = id m /\ role (g m) = role m
                 /\ (loading m = false -> loading (g m) = false).

Definition forward (h h' : list ChatMessage) : Prop :=
  exists extra, forwardBy extra h h'.

(** *** Clock readings *)

Definition nondecreasing (clock : nat -> Z) : Prop :=
  forall i, clock i <= clock (S i).

(** A reading later than every id in the history. *)
Definition laterThanAll (history : list ChatMessage) (now : Z) : Prop :=
  forall m, In m history -> id m < now.

(** The readings of a [sendMessage] that passes the guard: the first
    is later than every id in use, the second is no earlier. *)
Definition timely (e : Event) (c : Config) : Prop :=
  match e with
  | EvSend nowUser nowModel =>
      guard (st c) = false ->
      laterThanAll (chatHistory (st c)) nowUser /\ nowUser <= nowModel
  | _ => True
  end.

Fixpoint timelyRun (es : list Event) (c : Config) : Prop :=
  match es with
  | [] => True
  | e :: rest =>
      timely e c
      /\ match fire e c with
         | Some c' => timelyRun rest c'
         | None => True
         end
  end.

(** Per id, no more loading messages than requests in flight. *)
Definition covered (c : Config) : Prop :=
  forall x,
    (count_occ Z.eq_dec (loadingIds (chatHistory (st c))) x
     <= count_occ Z.eq_dec (requestIds (tasks c)) x)%nat.

End AppComponent.

(** ** app.component.ts, second revision (lines 379-685)

    The revision with the thinking flag and without persistence or audio
    attachments.  [sendMessage] creates the placeholder itself and wraps
    the dispatch in [try]/[catch]/[finally]. *)

Module AppComponentRev2.
Import ChatModel.

Record State := {
  currentMode : AppMode;
  chatHistory : list ChatMessage;
  isLoading : bool;
  isRecording : bool;
  userInput : string;
  uploadedFile : option MediaAttachment;
  chatModel : ChatModelName;
  useWebSearch : bool;
  imageAspectRatio : ImageAspectRatio;
  fileInputValue : option string;
}.

Definition set_chatHistory (h : list ChatMessage) (s : State) : State :=
  {| currentMode := currentMode s; chatHistory := h; isLoading := isLoading s;
     isRecording := isRecording s; userInput := userInput s;
     uploadedFile := uploadedFile s; chatModel := chatModel s;
     useWebSearch := useWebSearch s; imageAspectRatio := imageAspectRatio s;
     fileInputValue := fileInputValue s |}.

Definition set_isLoading (b : bool) (s : State) : State :=
  {| currentMode := currentMode s; chatHistory := chatHistory s; isLoading := b;
     isRecording := isRecording s; userInput := userInput s;
     uploadedFile := uploadedFile s; chatModel := chatModel s;
     useWebSearch := useWebSearch s; imageAspectRatio := imageAspectRatio s;
     fileInputValue := fileInputValue s |}.

Definition set_userInput (t : string) (s : State) : State :=
  {| currentMode := currentMode s; chatHistory := chatHistory s;
     isLoading := isLoading s;
     isRecording := isRecording s; userInput := t;
     uploadedFile := uploadedFile s; chatModel := chatModel s;
     useWebSearch := useWebSearch s; imageAspectRatio := imageAspectRatio s;
     fileInputValue := fileInputValue s |}.

Definition set_uploadedFile (f : option MediaAttachment) (s : State) : State :=
  {| currentMode := currentMode s; chatHistory := chatHistory s;
     isLoading := isLoading s;
     isRecording := isRecording s; userInput := userInput s;
     uploadedFile := f; chatModel := chatModel s;
     useWebSearch := useWebSearch s; imageAspectRatio := imageAspectRatio s;
     fileInputValue := fileInputValue s |}.

Definition set_fileInputValue (v : option string) (s : State) : State :=
  {| currentMode := currentMode s; chatHistory := chatHistory s;
     isLoading := isLoading s;
     isRecording := isRecording s; userInput := userInput s;
     uploadedFile := uploadedFile s; chatModel := chatModel s;
     useWebSearch := useWebSearch s; imageAspectRatio := imageAspectRatio s;
     fileInputValue := v |}.

Definition update_chatHistory (f : list ChatMessage -> list ChatMessage)
  (s : State) : State :=
  set_chatHistory (f (chatHistory s)) s.

Definition removeUploadedFile (s : State) : State :=
  let s1 := set_uploadedFile None s in
  match fileInputValue s1 with
  | Some _ => set_fileInputValue (Some EmptyString) s1
  | None => s1
  end.

(** The outside world of one [sendMessage]; [apiKey] is
    [process.env.API_KEY]. *)
Record World := {
  nowUser : Z;
  nowModel : Z;
  apiKey : string;
  remote : GeminiService.Provider;
  generateImage : string -> string -> option string;
  generateVideo : string -> option GeminiService.MediaPart
                  -> option GeminiService.Operation;
  getVideosOperation : list (option GeminiService.Operation);
  fetchAsDataUrl : string -> option string;  (* [fetch], [blob], [fileToBase64] *)
}.

Definition pushMessage (m : ChatMessage) (s : State) : State :=
  update_chatHistory (fun history => (history ++ [m])%list) s.

Definition placeholder (k : Z) : ChatMessage :=
  {| id := k; role := model; text := EmptyString; image := None; video := None;
     audio := None; groundingChunks := None;
     ChatModel.isLoading := Some true; isPlayingAudio := None |}.

Definition writeText (k : Z) (t : string) (s : State) : State :=
  update_chatHistory (updateById k (with_text t)) s.

Definition settle (k : Z) (s : State) : State :=
  update_chatHistory (updateById k (with_isLoading (Some false))) s.

Definition settleWithText (k : Z) (t : string) (s : State) : State :=
  update_chatHistory
    (updateById k (fun msg => with_isLoading (Some false) (with_text t msg))) s.

(** *** handleChat *)

Definition chatArgs (userMessage : ChatMessage) (s : State)
  : GeminiService.StreamArgs :=
  let media := JS.or_obj (image userMessage) (video userMessage) in
  {| GeminiService.prompt := text userMessage;
     GeminiService.modelName := chatModelString (chatModel s);
     GeminiService.useThinking :=
       match chatModel s with Gemini3ProPreview => true | _ => false end;
     GeminiService.useWebSearch := useWebSearch s;
     GeminiService.media :=
       match media with
       | Some a => Some [toMediaPart a]
       | None => None
       end |}.

(** [{ ...msg, text: msg.text + (chunk.text || ''),
       groundingChunks: chunk.groundingChunks || msg.groundingChunks }] *)
Definition absorb (chunk : GeminiService.Fragment) (msg : ChatMessage)
  : ChatMessage :=
  with_groundingChunks
    (JS.or_obj (GeminiService.fragGrounding chunk) (groundingChunks msg))
    (with_text (text msg ++ JS.or_else (GeminiService.fragText chunk) EmptyString)
       msg).

Fixpoint consumeStream (k : Z) (stream : list GeminiService.Fragment)
  (s : State) : State :=
  match stream with
  | [] => s
  | chunk :: rest =>
      consumeStream k rest (update_chatHistory (updateById k (absorb chunk)) s)
  end.

(** What the loop makes of one message that carries the id. *)
Definition absorbAll (stream : list GeminiService.Fragment) (msg : ChatMessage)
  : ChatMessage :=
  fold_left (fun m chunk => absorb chunk m) stream msg.

Definition handleChat (w : World) (userMessage : ChatMessage)
  (modelMessageId : Z) (s : State) : Outcome State :=
  let stream :=
    GeminiService.generateContentStream (remote w) (chatArgs userMessage s) in
  Resolved (settle modelMessageId (consumeStream modelMessageId stream s)).

(** *** handleImageGeneration *)

Definition handleImageGeneration (w : World) (prompt : string)
  (modelMessageId : Z) (s : State) : Outcome State :=
  match generateImage w prompt (aspectRatioString (imageAspectRatio s)) with
  | None => Rejected s
  | Some base64Image =>
      let image := {| dataUrl := "data:image/png;base64," ++ base64Image;
                      mimeType := "image/png" |} in
      Resolved
        (update_chatHistory
           (updateById modelMessageId (fun msg =>
              with_isLoading (Some false)
                (with_image (Some image)
                   (with_text ("Here is the generated image for: " ++ JS.quote
                                 ++ prompt ++ JS.quote) msg)))) s)
  end.

(** *** handleVideoGeneration *)

Definition videoStarted : string :=
  "ðŸ“¹ Video generation started... This might take a few minutes.".

Definition videoProgress (operation : GeminiService.Operation) : string :=
  "ðŸ“¹ Video generation in progress... Status: "
    ++ JS.or_else (GeminiService.metadataState operation) "processing".

Definition videoFailed : string := "Sorry, video generation failed.".

(** The poll loop; each answer is written to the placeholder. *)
Fixpoint pollLoop (k : Z) (operation : GeminiService.Operation)
  (answers : list (option GeminiService.Operation)) (s : State)
  {struct answers} : PollResult * State :=
  if GeminiService.done operation then (PollDone operation, s)
  else
    match answers with
    | [] => (PollForever, s)
    | None :: _ => (PollThrows, s)
    | Some operation' :: rest =>
        pollLoop k operation' rest (writeText k (videoProgress operation') s)
    end.

Definition truthyUri (operation : GeminiService.Operation) : option string :=
  match GeminiService.resultUri operation with
  | Some u => if JS.truthy u then Some u else None
  | None => None
  end.

Definition handleVideoGeneration (w : World) (userMessage : ChatMessage)
  (modelMessageId : Z) (s : State) : Outcome State :=
  let imageAttachment :=
    match image userMessage with
    | Some a => Some (toMediaPart a)
    | None => None
    end in
  match generateVideo w (text userMessage) imageAttachment with
  | None => Rejected s
  | Some operation =>
      let s1 := writeText modelMessageId videoStarted s in
      match pollLoop modelMessageId operation (getVideosOperation w) s1 with
      | (PollForever, s2) => Pending s2
      | (PollThrows, s2) => Rejected s2
      | (PollDone operation', s2) =>
          match truthyUri operation' with
          | Some videoUri =>
              let videoUrl := videoUri ++ "&key=" ++ apiKey w in
              match fetchAsDataUrl w videoUrl with
              | None => Rejected s2
              | Some d =>
                  let dataUrl := {| dataUrl := d; mimeType := "video/mp4" |} in
                  Resolved
                    (update_chatHistory
                       (updateById modelMessageId (fun msg =>
                          with_isLoading (Some false)
                            (with_video (Some dataUrl)
                               (with_text
                                  ("Here is the generated video for: "
                                     ++ JS.quote ++ text userMessage
                                     ++ JS.quote) msg)))) s2)
              end
          | None => Resolved (settleWithText modelMessageId videoFailed s2)
          end
      end
  end.

(** *** sendMessage *)

Definition genericFailure : string :=
  "I'm sorry, I encountered an error. Please try again.".

Definition guard (s : State) : bool :=
  let userMessageText := JS.trim (userInput s) in
  (negb (JS.truthy userMessageText)
     && match uploadedFile s with Some _ => false | None => true end)
  || isLoading s.

Definition makeUserMessage (now : Z) (s : State) : ChatMessage :=
  {| id := now; role := user; text := JS.trim (userInput s);
     image := slotFor "image/" (uploadedFile s);
     video := slotFor "video/" (uploadedFile s);
     audio := None;
     groundingChunks := None; ChatModel.isLoading := None;
     isPlayingAudio := None |}.

Definition dispatch (w : World) (userMessage : ChatMessage)
  (modelMessageId : Z) (s : State) : Outcome State :=
  match currentMode s with
  | ModeChat => handleChat w userMessage modelMessageId s
  | ModeImage => handleImageGeneration w (text userMessage) modelMessageId s
  | ModeVideo => handleVideoGeneration w userMessage modelMessageId s
  end.

(** The state in which the handler is entered, and the id of the
    placeholder: everything [sendMessage] does before its [try]. *)
Definition prepare (w : World) (s : State) : ChatMessage * Z * State :=
  let s1 := set_isLoading true s in
  let userMessage := makeUserMessage (nowUser w) s1 in
  let s2 := pushMessage userMessage s1 in
  let s3 := removeUploadedFile (set_userInput EmptyString s2) in
  let modelMessageId := nowModel w + 1 in
  (userMessage, modelMessageId, pushMessage (placeholder modelMessageId) s3).

Definition sendMessage (w : World) (s : State) : Outcome State :=
  if guard s then Resolved s
  else
    let '(userMessage, modelMessageId, s4) := prepare w s in
    match dispatch w userMessage modelMessageId s4 with
    | Resolved s5 => Resolved (set_isLoading false s5)
    | Rejected s5 =>
        Resolved (set_isLoading false
                    (settleWithText modelMessageId genericFailure s5))
    | Pending s5 => Pending s5
    end.

(** *** startNewChat *)

Definition set_currentMode (m : AppMode) (s : State) : State :=
  {| currentMode := m; chatHistory := chatHistory s; isLoading := isLoading s;
     isRecording := isRecording s; userInput := userInput s;
     uploadedFile := uploadedFile s; chatModel := chatModel s;
     useWebSearch := useWebSearch s; imageAspectRatio := imageAspectRatio s;
     fileInputValue := fileInputValue s |}.

(** [startNewChat(prompt)]: chat mode, the prompt as input, then
    [sendMessage]; the conversation is not cleared in this revision. *)
Definition startNewChat (prompt : string) (w : World) (s : State) : Outcome State :=
  sendMessage w (set_userInput prompt (set_currentMode ModeChat s)).

End AppComponentRev2.

(** ** Vocabulary of the specification *)

Module Spec.
Import ChatModel.

(** The text a fragment contributes: [chunk.text || '']. *)
Definition fragmentText (chunk : GeminiService.Fragment) : string :=
  JS.or_else (GeminiService.fragText chunk) EmptyString.

(** The ordered concatenation of the fragments' texts. *)
Definition concatTexts (stream : list GeminiService.Fragment) : string :=
  fold_right (fun chunk rest => fragmentText chunk ++ rest) EmptyString stream.

(** The citations a fragment supplies, and all of them in stream order. *)
Definition suppliedBy (chunk : GeminiService.Fragment) : list GroundingChunk :=
  match GeminiService.fragGrounding chunk with Some cs => cs | None => [] end.

Definition suppliedCitations (stream : list GeminiService.Fragment)
  : list GroundingChunk :=
  flat_map suppliedBy stream.

(** The message a handler appended to a history of [n] messages. *)
Definition messageAt (n : nat) (history : list ChatMessage) : option ChatMessage :=
  nth_error history n.

(** The persisted view of a message: text, role and citations. *)
Definition triple (m : ChatMessage)
  : string * ChatRole * option (list GroundingChunk) :=
  (text m, role m, groundingChunks m).

Definition ids (history : list ChatMessage) : list Z := map id history.

(** What no write of a handler changes: the id and the role. *)
Definition key (m : ChatMessage) : Z * ChatRole := (id m, role m).

Definition keys (history : list ChatMessage) : list (Z * ChatRole) :=
  map key history.

(** The citation list that the last fragment carrying one supplies. *)
Definition lastSupplied (stream : list GeminiService.Fragment)
  (before : option (list GroundingChunk)) : option (list GroundingChunk) :=
  fold_left (fun g chunk => JS.or_obj (GeminiService.fragGrounding chunk) g)
    stream before.

Definition citation (u t : string) : GroundingChunk :=
  {| web := Some {| uri := u; title := t |} |}.

Definition fragment (t : string) (cs : list GroundingChunk)
  : GeminiService.Fragment :=
  {| GeminiService.fragText := Some t; GeminiService.fragGrounding := Some cs |}.

Definition textFragment (t : string) : GeminiService.Fragment :=
  {| GeminiService.fragText := Some t; GeminiService.fragGrounding := None |}.

(** A provider that answers every request with the same response. *)
Definition answering (cs : list GeminiService.Fragment) (fails : bool)
  : GeminiService.Provider :=
  fun _ => {| GeminiService.chunks := cs; GeminiService.failsAfter := fails |}.

End Spec.

(** ** Sample inputs *)

Module Samples.
Import ChatModel.

Definition c1 : GroundingChunk := Spec.citation "https://a.example" "A".
Definition c2 : GroundingChunk := Spec.citation "https://b.example" "B".

(** Two fragments, each supplying a subset of the citations [c1; c2]. *)
Definition overlapping : list GeminiService.Fragment :=
  [Spec.fragment "a" [c1]; Spec.fragment "b" [c1; c2]].

(** Two fragments supplying one citation each. *)
Definition disjoint : list GeminiService.Fragment :=
  [Spec.fragment "a" [c1]; Spec.fragment "b" [c2]].

Definition idle : AppComponent.State :=
  AppComponent.set_userInput "hello" (AppComponent.initialState None (Some EmptyString)).

Definition world (cs : list GeminiService.Fragment) (fails : bool)
  : AppComponent.World :=
  {| AppComponent.nowUser := 1000;
     AppComponent.nowModel := 1000;
     AppComponent.remote := Spec.answering cs fails;
     AppComponent.generateImage := fun _ _ => None;
     AppComponent.generateVideo := fun _ _ => None;
     AppComponent.getVideosOperation := [];
     AppComponent.fetchVideoAsDataUrl := fun _ => None |}.

Definition hello : ChatMessage := AppComponent.makeUserMessage 1000 idle.

(** Texts outside ASCII, by their UTF-8 bytes: U+00A0 (C2 A0), U+3000
    (E3 80 80), U+FEFF (EF BB BF) and the letter U+00E0 (C3 A0). *)
Definition bytes (l : list nat) : string :=
  string_of_list_ascii (map ascii_of_nat l).

Definition nbsp : string := bytes [194; 160]%nat.
Definition ideographicSpace : string := bytes [227; 128; 128]%nat.
Definition byteOrderMark : string := bytes [239; 187; 191]%nat.
Definition aGrave : string := bytes [195; 160]%nat.

(** Job handles: still running, finished with a locator, finished
    without one. *)
Definition running : GeminiService.Operation :=
  {| GeminiService.done := false; GeminiService.resultUri := None;
     GeminiService.metadataState := None |}.

Definition finished (u : option string) : GeminiService.Operation :=
  {| GeminiService.done := true; GeminiService.resultUri := u;
     GeminiService.metadataState := None |}.

Definition videoUri : string := "https://video.example/v1?alt=media".

(** The job is submitted, two polls find it running, the third finds it
    finished with [u]; the fetch of [videoUri] gives ["data:video"]. *)
Definition videoWorld (u : option string) : AppComponent.World :=
  {| AppComponent.nowUser := 1000;
     AppComponent.nowModel := 1000;
     AppComponent.remote := Spec.answering [] false;
     AppComponent.generateImage := fun _ _ => None;
     AppComponent.generateVideo := fun _ _ => Some running;
     AppComponent.getVideosOperation :=
       [Some running; Some running; Some (finished u)];
     AppComponent.fetchVideoAsDataUrl :=
       fun x => if (x =? videoUri)%string then Some "data:video" else None |}.

(** A pending upload that is neither image, video nor audio. *)
Definition pdf : MediaAttachment :=
  {| dataUrl := "data:application/pdf;base64,JVBERi0="; mimeType := "application/pdf" |}.

Definition withPdf : AppComponent.Config :=
  {| AppComponent.st := AppComponent.set_uploadedFile (Some pdf) idle;
     AppComponent.tasks := [] |}.

(** A message with an image and an audio attachment. *)
Definition png : MediaAttachment :=
  {| dataUrl := "data:image/png;base64,iVBORw0="; mimeType := "image/png" |}.

Definition webm : MediaAttachment :=
  {| dataUrl := "data:audio/webm;base64,GkXf"; mimeType := "audio/webm" |}.

Definition twoSlots : ChatMessage :=
  with_image (Some png)
    {| id := 1000; role := user; text := "look"; image := None; video := None;
       audio := Some webm; groundingChunks := None; isLoading := None;
       isPlayingAudio := None |}.

(** The configuration just after [sendMessage] appended the user
    message and the placeholder in chat mode. *)
Definition afterSend : AppComponent.Config :=
  AppComponent.beginSend 1000 1000
    {| AppComponent.st := idle; AppComponent.tasks := [] |}.

(** Three persisted messages, and the component constructed over them
    with the clock at 1000. *)
Definition saved (t : string) : AppComponent.SavedMessage :=
  {| AppComponent.savedRole := user; AppComponent.savedText := t;
     AppComponent.savedGroundingChunks := None |}.

Definition stored3 : option AppComponent.StorageItem :=
  Some (AppComponent.JsonHistory [saved "one"; saved "two"; saved "three"]).

Definition booted : AppComponent.Config :=
  AppComponent.boot stored3 (Some EmptyString) (fun _ => 1000).

(** The run in which a transcription ends while a request is in flight
    and clears the global flag, so that a second request starts. *)
Definition overlappingSends : list AppComponent.Event :=
  [AppComponent.EvSetInput "first"; AppComponent.EvSend 1000 1000;
   AppComponent.EvStartRecording; AppComponent.EvMicGranted 1;
   AppComponent.EvStopRecording; AppComponent.EvEncoded 1;
   AppComponent.EvStreamEnd 1;
   AppComponent.EvSetInput "second"; AppComponent.EvSend 2000 2000].

Definition videoWorld2 (u : option string) : AppComponentRev2.World :=
  {| AppComponentRev2.nowUser := 1000;
     AppComponentRev2.nowModel := 1000;
     AppComponentRev2.apiKey := "k";
     AppComponentRev2.remote := Spec.answering [] false;
     AppComponentRev2.generateImage := fun _ _ => None;
     AppComponentRev2.generateVideo := fun _ _ => Some running;
     AppComponentRev2.getVideosOperation :=
       [Some running; Some running; Some (finished u)];
     AppComponentRev2.fetchAsDataUrl :=
       fun x => if (x =? videoUri ++ "&key=k")%string
                then Some "data:video" else None |}.

Definition idle2In (mode : AppMode) : AppComponentRev2.State :=
  {| AppComponentRev2.currentMode := mode;
     AppComponentRev2.chatHistory := [];
     AppComponentRev2.isLoading := false;
     AppComponentRev2.isRecording := false;
     AppComponentRev2.userInput := "hello";
     AppComponentRev2.uploadedFile := None;
     AppComponentRev2.chatModel := Gemini25Flash;
     AppComponentRev2.useWebSearch := false;
     AppComponentRev2.imageAspectRatio := R1x1;
     AppComponentRev2.fileInputValue := Some EmptyString |}.

Definition idle2 : AppComponentRev2.State := idle2In ModeChat.

Definition world2 (cs : list GeminiService.Fragment) (fails : bool)
  : AppComponentRev2.World :=
  {| AppComponentRev2.nowUser := 1000;
     AppComponentRev2.nowModel := 1000;
     AppComponentRev2.apiKey := "k";
     AppComponentRev2.remote := Spec.answering cs fails;
     AppComponentRev2.generateImage := fun _ _ => None;
     AppComponentRev2.generateVideo := fun _ _ => None;
     AppComponentRev2.getVideosOperation := [];
     AppComponentRev2.fetchAsDataUrl := fun _ => None |}.

End Samples.

(** ** Observations on states, requests and strings *)

Module Observe.
Import ChatModel.

(** No comma among the characters of a string. *)
Fixpoint commaFree (s : string) : bool :=
  match s with
  | EmptyString => true
  | String c r => negb (Ascii.eqb "," c) && commaFree r
  end.

(** The part a media item becomes, and the media of a call. *)
Definition inlinePart (m : GeminiService.MediaPart) : GeminiService.Part :=
  GeminiService.InlineData (GeminiService.data m) (GeminiService.partMimeType m).

Definition mediaOf (a : GeminiService.StreamArgs) : list GeminiService.MediaPart :=
  match GeminiService.media a with Some ms => ms | None => [] end.

(** The character codes of a string, in order. *)
Definition codes (s : string) : list Z :=
  map (fun c => Z.of_nat (nat_of_ascii c)) (list_ascii_of_string s).

(** The three attachment slots of a message. *)
Definition attachments (m : ChatMessage)
  : option MediaAttachment * option MediaAttachment * option MediaAttachment :=
  (image m, video m, audio m).

(** Everything a message holds but its playing flag. *)
Definition content (m : ChatMessage) :=
  (id m, role m, text m, attachments m, groundingChunks m, ChatModel.isLoading m).



(** The texts a run of fragments has delivered after each of them. *)
Fixpoint textsSoFar (before : string) (stream : list GeminiService.Fragment)
  : list string :=
  match stream with
  | [] => []
  | chunk :: rest =>
      let now := (before ++ Spec.fragmentText chunk)%string in
      now :: textsSoFar now rest
  end.

(** The text of the message at a position of the history. *)
Definition textAt (n : nat) (c : AppComponent.Config) : option string :=
  option_map text (nth_error (AppComponent.chatHistory (AppComponent.st c)) n).

End Observe.

Module MoreSamples.
Import ChatModel.

(** A message with an image, as a user of the first revision sends it. *)
Definition withPng : AppComponent.State :=
  AppComponent.set_uploadedFile (Some Samples.png) Samples.idle.

(** A state of the second revision whose history ends with the user
    message and the placeholder that [sendMessage] has just appended. *)
Definition waiting2 : AppComponentRev2.State :=
  AppComponentRev2.pushMessage (AppComponentRev2.placeholder 1001)
    (AppComponentRev2.pushMessage Samples.hello Samples.idle2).

(** A world whose image request succeeds. *)
Definition imageWorld2 : AppComponentRev2.World :=
  {| AppComponentRev2.nowUser := 1000;
     AppComponentRev2.nowModel := 1000;
     AppComponentRev2.apiKey := "k";
     AppComponentRev2.remote := Spec.answering [] false;
     AppComponentRev2.generateImage := fun _ _ => Some "iVBORw0=";
     AppComponentRev2.generateVideo := fun _ _ => None;
     AppComponentRev2.getVideosOperation := [];
     AppComponentRev2.fetchAsDataUrl := fun _ => None |}.

(** A configuration with one message, already played once, and one with
    a message that is playing. *)
Definition played : ChatMessage :=
  AppComponent.withId 1000 0 (Samples.saved "one").

Definition quiet : AppComponent.Config :=
  {| AppComponent.st := AppComponent.set_chatHistory [played] Samples.idle;
     AppComponent.tasks := [] |}.

Definition sounding : AppComponent.Config :=
  {| AppComponent.st :=
       AppComponent.set_chatHistory [with_isPlayingAudio (Some true) played]
         Samples.idle;
     AppComponent.tasks := [] |}.

(** A configuration in which a transcription is running while a chat
    request is in flight. *)
Definition transcribing : AppComponent.Config :=
  {| AppComponent.st := AppComponent.st Samples.afterSend;
     AppComponent.tasks :=
       (AppComponent.tasks Samples.afterSend
          ++ [AppComponent.TranscribeTask "so far "])%list |}.

(** A recorder that is recording. *)
Definition recording : AppComponent.Config :=
  {| AppComponent.st :=
       AppComponent.set_hasRecorder true
         (AppComponent.set_isRecording true Samples.idle);
     AppComponent.tasks := [] |}.

(** A state with a message that carries an image, and a storage entry. *)
Definition illustrated : AppComponent.State :=
  AppComponent.set_chatHistory
    [with_image (Some Samples.png) Samples.hello] Samples.idle.

End MoreSamples.

(** * Properties *)

Local Open Scope list_scope.

(** ** Lists, strings and the replace-by-id update *)

Lemma append_assoc (a b c : string) : ((a ++ b) ++ c = a ++ (b ++ c))%string.
Proof. induction a as [|x a IH]; simpl; [reflexivity | now rewrite IH]. Qed.

Lemma append_empty_r (a : string) : (a ++ EmptyString = a)%string.
Proof. induction a as [|x a IH]; simpl; [reflexivity | now rewrite IH]. Qed.

Lemma updateById_length k f h : List.length (ChatModel.updateById k f h) = List.length h.
Proof. apply length_map. Qed.

Lemma updateById_nth k f h n :
  nth_error (ChatModel.updateById k f h) n =
  option_map (fun m => if ChatModel.id m =? k then f m else m) (nth_error h n).
Proof. apply nth_error_map. Qed.

Lemma updateById_app k f h1 h2 :
  ChatModel.updateById k f (h1 ++ h2) =
  (ChatModel.updateById k f h1 ++ ChatModel.updateById k f h2)%list.
Proof. apply map_app. Qed.

(** Two writes to the same id fuse when the second overrides the first. *)
Lemma updateById_fuse k f g h :
  (forall m, ChatModel.id (f m) = ChatModel.id m) ->
  (forall m, g (f m) = g m) ->
  ChatModel.updateById k g (ChatModel.updateById k f h) = ChatModel.updateById k g h.
Proof.
  intros Hid Hover. unfold ChatModel.updateById.
  rewrite map_map. apply map_ext. intro m.
  destruct (ChatModel.id m =? k) eqn:E.
  - rewrite Hid, E. apply Hover.
  - now rewrite E.
Qed.

Lemma updateById_ids k f h :
  (forall m, ChatModel.id (f m) = ChatModel.id m) ->
  Spec.ids (ChatModel.updateById k f h) = Spec.ids h.
Proof.
  intro Hid. unfold Spec.ids, ChatModel.updateById.
  rewrite map_map. apply map_ext. intro m.
  destruct (ChatModel.id m =? k); [apply Hid | reflexivity].
Qed.

Lemma updateById_keys k f h :
  (forall m, Spec.key (f m) = Spec.key m) ->
  Spec.keys (ChatModel.updateById k f h) = Spec.keys h.
Proof.
  intro Hkey. unfold Spec.keys, ChatModel.updateById.
  rewrite map_map. apply map_ext. intro m.
  destruct (ChatModel.id m =? k); [apply Hkey | reflexivity].
Qed.

Lemma nth_error_snoc {A} (l : list A) (x : A) :
  nth_error (l ++ [x]) (List.length l) = Some x.
Proof.
  rewrite nth_error_app2 by lia. now rewrite Nat.sub_diag.
Qed.

(** ** The stream loop of the first revision *)

Module StreamFacts.
Import ChatModel AppComponent.

Lemma fold_nextText stream acc :
  fold_left nextText stream acc = (acc ++ Spec.concatTexts stream)%string.
Proof.
  revert acc. induction stream as [|chunk rest IH]; intro acc; simpl.
  - now rewrite append_empty_r.
  - rewrite IH. unfold nextText, Spec.fragmentText. apply append_assoc.
Qed.

Lemma fold_nextGrounding stream acc :
  fold_left nextGrounding stream acc = (acc ++ Spec.suppliedCitations stream)%list.
Proof.
  revert acc. induction stream as [|chunk rest IH]; intro acc; simpl.
  - now rewrite app_nil_r.
  - rewrite IH. unfold nextGrounding, Spec.suppliedBy.
    destruct (GeminiService.fragGrounding chunk); simpl.
    + now rewrite <- app_assoc.
    + reflexivity.
Qed.

Lemma writeChunk_twice k t1 g1 t2 g2 s :
  writeChunk k t2 g2 (writeChunk k t1 g1 s) = writeChunk k t2 g2 s.
Proof.
  unfold writeChunk, update_chatHistory, set_chatHistory; simpl.
  f_equal. now apply updateById_fuse.
Qed.

(** The loop leaves the last write only. *)
Lemma consumeStream_last k chunk rest fullText groundingChunks s :
  consumeStream k (chunk :: rest) fullText groundingChunks s =
  writeChunk k (fold_left nextText (chunk :: rest) fullText)
    (fold_left nextGrounding (chunk :: rest) groundingChunks) s.
Proof.
  revert chunk fullText groundingChunks s.
  induction rest as [|chunk' rest IH]; intros chunk fullText groundingChunks s.
  - reflexivity.
  - change (consumeStream k (chunk :: chunk' :: rest) fullText groundingChunks s)
      with (consumeStream k (chunk' :: rest) (nextText fullText chunk)
              (nextGrounding groundingChunks chunk)
              (writeChunk k (nextText fullText chunk)
                 (nextGrounding groundingChunks chunk) s)).
    rewrite IH. now rewrite writeChunk_twice.
Qed.

(** The placeholder once [handleChat] is over. *)
Lemma handleChat_placeholder w userMessage s :
  let stream := GeminiService.generateContentStream (remote w) (chatArgs userMessage s) in
  exists m,
    handleChat w userMessage s =
      Resolved (set_chatHistory
                  (updateById (nowModel w + 1) (with_isLoading (Some false))
                     (chatHistory
                        (consumeStream (nowModel w + 1) stream EmptyString []
                           (pushMessage (placeholder (nowModel w + 1) EmptyString) s))))
                  s)
    /\ Spec.messageAt (List.length (chatHistory s))
         (chatHistory (stateOf (handleChat w userMessage s))) = Some m
    /\ text m = Spec.concatTexts stream
    /\ citations m = Spec.suppliedCitations stream
    /\ ChatModel.isLoading m = Some false
    /\ id m = nowModel w + 1.
Proof.
  intro stream.
  set (k := nowModel w + 1).
  set (s1 := pushMessage (placeholder k EmptyString) s).
  assert (Hh : handleChat w userMessage s =
               Resolved (settle k (consumeStream k stream EmptyString [] s1)))
    by reflexivity.
  destruct stream as [|chunk rest] eqn:Es.
  - exists (with_isLoading (Some false) (placeholder k EmptyString)).
    rewrite Hh. simpl.
    split; [reflexivity|].
    split.
    + unfold Spec.messageAt. rewrite updateById_nth, nth_error_snoc. simpl.
      now rewrite Z.eqb_refl.
    + repeat split; reflexivity.
  - rewrite Hh, consumeStream_last.
    set (t := fold_left nextText (chunk :: rest) EmptyString).
    set (g := fold_left nextGrounding (chunk :: rest) []).
    exists (with_isLoading (Some false)
              (with_groundingChunks (Some g)
                 (with_text t (placeholder k EmptyString)))).
    split; [reflexivity|].
    split.
    + unfold Spec.messageAt. simpl.
      rewrite !updateById_nth, nth_error_snoc. simpl.
      rewrite Z.eqb_refl. simpl. now rewrite Z.eqb_refl.
    + split; [|split; [|split; reflexivity]]; simpl.
      * unfold t. now rewrite fold_nextText.
      * unfold g. now rewrite fold_nextGrounding.
Qed.

End StreamFacts.

(** C1, as stated, fails on the first revision: two fragments that each
    supply a duplicate-free subset of the citations [c1; c2] leave the
    placeholder with [c1] twice. *)
Lemma handleChat_repeats_shared_citation :
  (forall chunk, In chunk Samples.overlapping ->
     NoDup (Spec.suppliedBy chunk)
     /\ incl (Spec.suppliedBy chunk) [Samples.c1; Samples.c2])
  /\ exists m,
       Spec.messageAt 0
         (AppComponent.chatHistory
            (stateOf (AppComponent.handleChat
                        (Samples.world Samples.overlapping false)
                        Samples.hello Samples.idle))) = Some m
       /\ ChatModel.citations m = [Samples.c1; Samples.c1; Samples.c2]
       /\ ~ NoDup (ChatModel.citations m).
Proof.
  split.
  - intros chunk [<- | [<- | []]]; simpl; split.
    + repeat constructor; simpl; tauto.
    + intros x [<- | []]; simpl; tauto.
    + repeat constructor; simpl; [|tauto].
      intros [H | []]. discriminate H.
    + apply incl_refl.
  - eexists. split; [reflexivity|]. split; [reflexivity|].
    simpl. intro H. inversion H as [|x l Hnot _]. apply Hnot. now left.
Qed.

(** ** The stream loop of the second revision *)

Module StreamFactsRev2.
Import ChatModel AppComponentRev2.

Lemma absorbAll_id stream msg : id (absorbAll stream msg) = id msg.
Proof.
  revert msg. induction stream as [|chunk rest IH]; intro msg; simpl.
  - reflexivity.
  - unfold absorbAll in IH. now rewrite IH.
Qed.

Lemma absorbAll_role stream msg : role (absorbAll stream msg) = role msg.
Proof.
  revert msg. induction stream as [|chunk rest IH]; intro msg; simpl.
  - reflexivity.
  - unfold absorbAll in IH. now rewrite IH.
Qed.

Lemma absorbAll_text stream msg :
  text (absorbAll stream msg) = (text msg ++ Spec.concatTexts stream)%string.
Proof.
  revert msg. induction stream as [|chunk rest IH]; intro msg; simpl.
  - now rewrite append_empty_r.
  - unfold absorbAll in IH. rewrite IH. simpl.
    unfold Spec.fragmentText. apply append_assoc.
Qed.

Lemma absorbAll_grounding stream msg :
  groundingChunks (absorbAll stream msg) =
  Spec.lastSupplied stream (groundingChunks msg).
Proof.
  revert msg. induction stream as [|chunk rest IH]; intro msg; simpl.
  - reflexivity.
  - unfold absorbAll in IH. now rewrite IH.
Qed.

Lemma absorbAll_isLoading stream msg :
  ChatModel.isLoading (absorbAll stream msg) = ChatModel.isLoading msg.
Proof.
  revert msg. induction stream as [|chunk rest IH]; intro msg; simpl.
  - reflexivity.
  - unfold absorbAll in IH. now rewrite IH.
Qed.

Lemma consumeStream_history k stream s :
  chatHistory (consumeStream k stream s) =
  updateById k (absorbAll stream) (chatHistory s).
Proof.
  revert s. induction stream as [|chunk rest IH]; intro s; simpl.
  - unfold updateById. rewrite <- (map_id (chatHistory s)) at 1.
    apply map_ext. intro m. now destruct (id m =? k).
  - rewrite IH. simpl. unfold updateById. rewrite map_map.
    apply map_ext. intro m. destruct (id m =? k) eqn:E.
    + change (id (absorb chunk m)) with (id m). now rewrite E.
    + now rewrite E.
Qed.

(** A message that carries the placeholder id ends with its text
    extended by the concatenation, with the citations of the last
    fragment that carried any, and settled. *)
Lemma handleChat_message w userMessage k s n msg :
  nth_error (chatHistory s) n = Some msg ->
  id msg = k ->
  let stream :=
    GeminiService.generateContentStream (remote w) (chatArgs userMessage s) in
  exists m,
    nth_error (chatHistory (stateOf (handleChat w userMessage k s))) n = Some m
    /\ text m = (text msg ++ Spec.concatTexts stream)%string
    /\ groundingChunks m = Spec.lastSupplied stream (groundingChunks msg)
    /\ ChatModel.isLoading m = Some false.
Proof.
  intros Hn Hid stream.
  exists (with_isLoading (Some false) (absorbAll stream msg)).
  split.
  - unfold handleChat. fold stream. simpl.
    rewrite consumeStream_history, !updateById_nth, Hn. simpl.
    rewrite Hid, Z.eqb_refl, absorbAll_id, Hid, Z.eqb_refl. reflexivity.
  - simpl. rewrite absorbAll_text, absorbAll_grounding. auto.
Qed.

(** The second revision replaces the citation list: of two fragments
    supplying one citation each, only the second survives. *)
Example handleChat_replaces_citations :
  option_map citations
    (nth_error
       (chatHistory
          (stateOf (sendMessage (Samples.world2 Samples.disjoint false)
                      Samples.idle2))) 1)
  = Some [Samples.c2].
Proof. reflexivity. Qed.

(** Whatever the placeholder ends with was supplied by a fragment or
    was there before. *)
Lemma lastSupplied_supplied stream before c :
  In c (match Spec.lastSupplied stream before with Some l => l | None => [] end) ->
  In c (Spec.suppliedCitations stream)
  \/ In c (match before with Some l => l | None => [] end).
Proof.
  revert before. induction stream as [|chunk rest IH]; intros before Hc.
  - now right.
  - unfold Spec.lastSupplied in *. simpl in Hc.
    destruct (IH _ Hc) as [H | H].
    + left. simpl. apply in_or_app. now right.
    + unfold JS.or_obj, Spec.suppliedCitations in *. simpl.
      unfold Spec.suppliedBy at 1.
      destruct (GeminiService.fragGrounding chunk) as [cs|].
      * left. apply in_or_app. now left.
      * now right.
Qed.

End StreamFactsRev2.

(** C1 (amended): for every stream the gateway delivers to [handleChat],
    the placeholder ends with the ordered concatenation of the fragments'
    texts, in both revisions of the handler.  In the first revision it
    ends with the ordered concatenation of the fragments' citation lists:
    no supplied citation is lost, and the list is duplicate-free exactly
    when no citation is supplied twice.  In the second revision it ends
    with the citation list of the last fragment that carried one, the
    lists of the fragments before it being replaced: every citation it
    holds was supplied by a fragment, and none is held when no fragment
    carried a list. *)
Theorem handleChat_assembles_stream :
  (forall (w : AppComponent.World) (userMessage : ChatModel.ChatMessage)
          (s : AppComponent.State),
      let stream :=
        GeminiService.generateContentStream (AppComponent.remote w)
          (AppComponent.chatArgs userMessage s) in
      exists m,
        Spec.messageAt (List.length (AppComponent.chatHistory s))
          (AppComponent.chatHistory
             (stateOf (AppComponent.handleChat w userMessage s))) = Some m
        /\ ChatModel.text m = Spec.concatTexts stream
        /\ ChatModel.citations m = Spec.suppliedCitations stream
        /\ (forall c, In c (Spec.suppliedCitations stream) ->
                      In c (ChatModel.citations m))
        /\ (NoDup (ChatModel.citations m) <-> NoDup (Spec.suppliedCitations stream))
        /\ ChatModel.isLoading m = Some false)
  /\ (forall (w : AppComponentRev2.World) (userMessage : ChatModel.ChatMessage)
             (modelMessageId : Z) (s : AppComponentRev2.State) (n : nat),
        Spec.messageAt n (AppComponentRev2.chatHistory s)
        = Some (AppComponentRev2.placeholder modelMessageId) ->
        let stream :=
          GeminiService.generateContentStream (AppComponentRev2.remote w)
            (AppComponentRev2.chatArgs userMessage s) in
        exists m,
          Spec.messageAt n
            (AppComponentRev2.chatHistory
               (stateOf (AppComponentRev2.handleChat w userMessage
                           modelMessageId s))) = Some m
          /\ ChatModel.text m = Spec.concatTexts stream
          /\ ChatModel.groundingChunks m = Spec.lastSupplied stream None
          /\ (forall c, In c (ChatModel.citations m) ->
                        In c (Spec.suppliedCitations stream))
          /\ ChatModel.isLoading m = Some false).
Proof.
  split.
  - intros w userMessage s stream.
    destruct (StreamFacts.handleChat_placeholder w userMessage s)
      as (m & _ & Hat & Htext & Hcit & Hload & _).
    exists m. fold stream in Htext, Hcit.
    repeat split; try assumption.
    + intros c Hc. now rewrite Hcit.
    + now rewrite Hcit.
    + now rewrite Hcit.
  - intros w userMessage k s n Hn stream.
    destruct (StreamFactsRev2.handleChat_message w userMessage k s n
                (AppComponentRev2.placeholder k) Hn eq_refl)
      as (m & Hat & Htext & Hg & Hload).
    exists m. fold stream in Htext, Hg. simpl in Htext, Hg.
    repeat split; try assumption.
    intros c Hc. unfold ChatModel.citations in Hc. rewrite Hg in Hc.
    destruct (StreamFactsRev2.lastSupplied_supplied stream None c Hc)
      as [H | []]. exact H.
Qed.

(** C1 at the second revision: two fragments with one citation each; the
    placeholder ends with both texts and the citation of the second. *)
Lemma handleChat_assembles_stream_witness :
  exists m,
    Spec.messageAt 1
      (AppComponentRev2.chatHistory
         (stateOf (AppComponentRev2.handleChat
                     (Samples.world2 Samples.disjoint false)
                     Samples.hello 1001 MoreSamples.waiting2))) = Some m
    /\ ChatModel.text m
       = Spec.concatTexts
           (GeminiService.generateContentStream
              (AppComponentRev2.remote (Samples.world2 Samples.disjoint false))
              (AppComponentRev2.chatArgs Samples.hello MoreSamples.waiting2))
    /\ ChatModel.groundingChunks m = Some [Samples.c2]
    /\ (forall c, In c (ChatModel.citations m) ->
                  In c [Samples.c1; Samples.c2])
    /\ ChatModel.isLoading m = Some false.
Proof.
  exact (proj2 handleChat_assembles_stream
           (Samples.world2 Samples.disjoint false) Samples.hello 1001
           MoreSamples.waiting2 1%nat eq_refl).
Defined.


(** ** The guard of [sendMessage] *)

Module SendFacts.
Import ChatModel AppComponent.

Lemma truthy_false (t : string) : JS.truthy t = false <-> t = EmptyString.
Proof. destruct t; simpl; split; congruence. Qed.

Lemma guard_cases s :
  guard s = true <->
  (JS.trim (userInput s) = EmptyString /\ uploadedFile s = None)
  \/ isLoading s = true.
Proof.
  unfold guard. rewrite orb_true_iff, andb_true_iff, negb_true_iff, truthy_false.
  destruct (uploadedFile s); intuition congruence.
Qed.

Ltac history_length :=
  repeat (simpl; rewrite ?updateById_length, ?length_app); simpl; try lia.

Lemma handleChat_length w userMessage s :
  List.length (chatHistory (stateOf (handleChat w userMessage s))) =
  S (List.length (chatHistory s)).
Proof.
  destruct (StreamFacts.handleChat_placeholder w userMessage s) as (m & -> & _).
  cbn [stateOf set_chatHistory chatHistory]. rewrite updateById_length.
  set (k := nowModel w + 1).
  generalize (GeminiService.generateContentStream (remote w) (chatArgs userMessage s)).
  intros [|chunk rest].
  - history_length.
  - rewrite StreamFacts.consumeStream_last. history_length.
Qed.

Lemma handleImageGeneration_length w userMessage s :
  List.length (chatHistory (stateOf (handleImageGeneration w userMessage s))) =
  S (List.length (chatHistory s)).
Proof.
  unfold handleImageGeneration.
  destruct (generateImage w _ _); history_length.
Qed.

Lemma handleVideoGeneration_length w userMessage s :
  List.length (chatHistory (stateOf (handleVideoGeneration w userMessage s))) =
  S (List.length (chatHistory s)).
Proof.
  unfold handleVideoGeneration.
  destruct (generateVideo w _ _); [|history_length].
  destruct (pollLoop _ _); [|history_length|history_length].
  destruct (truthyUri _); [|history_length].
  destruct (fetchVideoAsDataUrl w _); history_length.
Qed.

Lemma dispatch_length w userMessage s :
  List.length (chatHistory (stateOf (dispatch w userMessage s))) =
  S (List.length (chatHistory s)).
Proof.
  unfold dispatch. destruct (currentMode s).
  - apply handleChat_length.
  - apply handleImageGeneration_length.
  - apply handleVideoGeneration_length.
Qed.

Lemma andThen_history (o : Outcome State) :
  chatHistory (stateOf (andThen o (fun s4 => Resolved (sendTail s4)))) =
  chatHistory (stateOf o).
Proof.
  destruct o as [s'|s'|s']; simpl; try reflexivity.
  unfold sendTail, removeUploadedFile. simpl.
  now destruct (fileInputValue s').
Qed.

(** When the guard lets the call through, two messages are appended. *)
Lemma sendMessage_length w s :
  guard s = false ->
  List.length (chatHistory (stateOf (sendMessage w s))) =
  S (S (List.length (chatHistory s))).
Proof.
  intro Hg. unfold sendMessage. rewrite Hg.
  rewrite andThen_history, dispatch_length. history_length.
Qed.

End SendFacts.

(** C9: after [startNewConversation] the history is empty, the input is
    empty, no upload is pending and the storage entry is absent. *)
Theorem startNewConversation_clears :
  forall s : AppComponent.State,
    let s' := AppComponent.startNewConversation s in
    AppComponent.chatHistory s' = []
    /\ AppComponent.userInput s' = EmptyString
    /\ AppComponent.uploadedFile s' = None
    /\ AppComponent.localStorage s' = None.
Proof. intro s. repeat split. Qed.

(** The save effect that the cleared history triggers writes the entry
    again, as the empty array. *)
Remark startNewConversation_then_effect (s : AppComponent.State) :
  AppComponent.localStorage
    (AppComponent.saveChatHistory true (AppComponent.startNewConversation s))
  = Some (AppComponent.JsonHistory []).
Proof. reflexivity. Qed.

(** ** Persistence *)

Module PersistenceFacts.
Import ChatModel AppComponent.

Lemma mapWithIds_triples clock index l :
  map Spec.triple (mapWithIds clock index l) =
  map (fun msg => (savedText msg, savedRole msg, savedGroundingChunks msg)) l.
Proof.
  revert index. induction l as [|msg rest IH]; intro index; simpl.
  - reflexivity.
  - now rewrite IH.
Qed.

Lemma mapWithIds_flags clock index l m :
  In m (mapWithIds clock index l) ->
  ChatModel.isLoading m = Some false /\ isPlayingAudio m = Some false.
Proof.
  revert index. induction l as [|msg rest IH]; intro index; simpl.
  - intros [].
  - intros [<- | H]; [split; reflexivity | eauto].
Qed.

Lemma mapWithIds_ids clock index l :
  Spec.ids (mapWithIds clock index l) =
  map (fun i => clock i + Z.of_nat i) (seq index (List.length l)).
Proof.
  revert index. induction l as [|msg rest IH]; intro index; simpl.
  - reflexivity.
  - f_equal. apply IH.
Qed.

(** Loading over the entry a save has written. *)
Lemma load_after_save clock s s0 :
  localStorage s0 = localStorage (saveChatHistory true s) ->
  map Spec.triple (chatHistory (loadChatHistory clock s0)) =
  map Spec.triple (chatHistory s)
  /\ forall m, In m (chatHistory (loadChatHistory clock s0)) ->
       ChatModel.isLoading m = Some false /\ isPlayingAudio m = Some false.
Proof.
  intro H. unfold loadChatHistory. rewrite H. simpl. split.
  - rewrite mapWithIds_triples, map_map. apply map_ext. now intros [].
  - apply mapWithIds_flags.
Qed.

(** A write the store refuses leaves everything as it was. *)
Remark save_refused s : saveChatHistory false s = s.
Proof. reflexivity. Qed.

(** Corrupt data is dropped and the entry removed. *)
Remark load_corrupt clock s :
  localStorage s = Some Unparsable ->
  chatHistory (loadChatHistory clock s) = chatHistory s
  /\ localStorage (loadChatHistory clock s) = None.
Proof. intro H. unfold loadChatHistory. rewrite H. split; reflexivity. Qed.

End PersistenceFacts.

(** C4: a conversation saved (the store taking the write) and then
    loaded, in the same component or in one constructed later over the
    same storage, comes back with the same ordered (text, role,
    groundingChunks) triples and with every transient flag false.  The
    ids are assigned anew. *)
Theorem save_load_roundtrip :
  forall (s : AppComponent.State) (clock : nat -> Z) (input : option string),
    let saved := AppComponent.saveChatHistory true s in
    let reloaded := AppComponent.loadChatHistory clock saved in
    let rebooted :=
      AppComponent.st
        (AppComponent.boot (AppComponent.localStorage saved) input clock) in
    (map Spec.triple (AppComponent.chatHistory reloaded) =
       map Spec.triple (AppComponent.chatHistory s)
     /\ forall m, In m (AppComponent.chatHistory reloaded) ->
          ChatModel.isLoading m = Some false
          /\ ChatModel.isPlayingAudio m = Some false)
    /\ (map Spec.triple (AppComponent.chatHistory rebooted) =
          map Spec.triple (AppComponent.chatHistory s)
        /\ forall m, In m (AppComponent.chatHistory rebooted) ->
             ChatModel.isLoading m = Some false
             /\ ChatModel.isPlayingAudio m = Some false).
Proof.
  intros s clock input saved reloaded rebooted. split.
  - apply PersistenceFacts.load_after_save. reflexivity.
  - apply PersistenceFacts.load_after_save. reflexivity.
Qed.

(** ** Attachments *)

Module AttachmentFacts.
Import ChatModel AppComponent.

Lemma slotFor_none p a :
  JS.startsWith (mimeType a) p = false -> slotFor p (Some a) = None.
Proof. intro H. unfold slotFor. now rewrite H. Qed.

(** What [beginSend] leaves in the history at the first suspension. *)
Lemma beginSend_history nowUser nowModel c :
  guard (st c) = false ->
  exists t,
    chatHistory (st (beginSend nowUser nowModel c)) =
    chatHistory (st c)
      ++ [makeUserMessage nowUser (st c); placeholder (nowModel + 1) t].
Proof.
  intro Hg. unfold beginSend. rewrite Hg.
  cbn [currentMode set_userInput pushMessage update_chatHistory set_chatHistory
       set_isLoading chatHistory].
  destruct (currentMode (st c)); eexists; cbn; rewrite <- app_assoc; reflexivity.
Qed.

(** What the gateway of the source tree makes of the call: its five
    parameters take the four arguments position by position, so the
    request holds the prompt alone, asks for the thinking budget when the
    web-search switch is on, and asks for the search tool when a media
    array was passed. *)
Remark chatArgs_request userMessage s :
  let request := GeminiService.buildRequest (chatArgs userMessage s) in
  GeminiService.reqModel request = chatModelString (chatModel s)
  /\ GeminiService.reqParts request = [GeminiService.TextPart (text userMessage)]
  /\ GeminiService.reqThinkingBudget request
     = (if useWebSearch s then Some 32768 else None)
  /\ GeminiService.reqGoogleSearch request
     = match image userMessage, video userMessage, audio userMessage with
       | None, None, None => false
       | _, _, _ => true
       end.
Proof.
  unfold chatArgs, chatCall, bindArgs, GeminiService.buildRequest,
    GeminiService.buildParts, JS.or_obj.
  cbn. repeat split.
  destruct (image userMessage), (video userMessage), (audio userMessage);
    reflexivity.
Qed.

End AttachmentFacts.

(** C10: a pending upload whose mime type starts with none of [image/],
    [video/], [audio/] is dropped: the user message [sendMessage] appends
    has no attachment.  And of the attachment slots of a message handled
    in chat mode exactly one is passed to the gateway: the media argument
    of the [generateContentStream] call is an array of one part, made of
    the image before the video before the audio. *)
Theorem attachment_classification_and_priority :
  (forall (nowUser nowModel : Z) (c : AppComponent.Config)
          (a : ChatModel.MediaAttachment),
      AppComponent.uploadedFile (AppComponent.st c) = Some a ->
      AppComponent.isLoading (AppComponent.st c) = false ->
      JS.startsWith (ChatModel.mimeType a) "image/" = false ->
      JS.startsWith (ChatModel.mimeType a) "video/" = false ->
      JS.startsWith (ChatModel.mimeType a) "audio/" = false ->
      exists m,
        Spec.messageAt (List.length (AppComponent.chatHistory (AppComponent.st c)))
          (AppComponent.chatHistory
             (AppComponent.st (AppComponent.beginSend nowUser nowModel c)))
        = Some m
        /\ ChatModel.role m = ChatModel.user
        /\ ChatModel.text m = JS.trim (AppComponent.userInput (AppComponent.st c))
        /\ ChatModel.image m = None
        /\ ChatModel.video m = None
        /\ ChatModel.audio m = None)
  /\ (forall (userMessage : ChatModel.ChatMessage) (s : AppComponent.State),
        let chosen :=
          match ChatModel.image userMessage, ChatModel.video userMessage with
          | Some a, _ => Some a
          | None, Some a => Some a
          | None, None => ChatModel.audio userMessage
          end in
        forall a, chosen = Some a ->
          AppComponent.callMedia (AppComponent.chatCall userMessage s)
          = Some [{| GeminiService.data := stripDataUrlPrefix (ChatModel.dataUrl a);
                     GeminiService.partMimeType := ChatModel.mimeType a |}]).
Proof.
  split.
  - intros nowUser nowModel c a Hfile Hload Himg Hvid Haud.
    assert (Hg : AppComponent.guard (AppComponent.st c) = false).
    { unfold AppComponent.guard. rewrite Hfile, Hload.
      now rewrite andb_false_r. }
    destruct (AttachmentFacts.beginSend_history nowUser nowModel c Hg) as [t Ht].
    exists (AppComponent.makeUserMessage nowUser (AppComponent.st c)).
    unfold Spec.messageAt. rewrite Ht.
    split.
    + rewrite nth_error_app2 by lia. now rewrite Nat.sub_diag.
    + simpl. rewrite Hfile.
      rewrite !AttachmentFacts.slotFor_none by assumption. repeat split.
  - intros userMessage s chosen a Hchosen. subst chosen.
    unfold AppComponent.chatCall, JS.or_obj.
    cbn [AppComponent.callMedia].
    destruct (ChatModel.image userMessage) as [i|];
      [|destruct (ChatModel.video userMessage) as [v|]];
      [injection Hchosen as -> .. | rewrite Hchosen]; reflexivity.
Qed.

(** ** Video generation *)

Module VideoFacts.
Import ChatModel AppComponent.

(** Polls that find the job running are passed over. *)
Lemma pollLoop_pending operation pending final rest :
  GeminiService.done operation = false ->
  Forall (fun h => GeminiService.done h = false) pending ->
  GeminiService.done final = true ->
  pollLoop operation (map Some pending ++ Some final :: rest) = PollDone final.
Proof.
  intros Hop Hpending Hfinal. revert operation Hop.
  induction Hpending as [|h pending Hh _ IH]; intros operation Hop; simpl.
  - rewrite Hop. destruct rest; simpl; now rewrite Hfinal.
  - rewrite Hop. now apply IH.
Qed.

(** The loop returns for every finite list of answers. *)
Lemma pollLoop_total operation answers :
  (exists final, pollLoop operation answers = PollDone final
                 /\ GeminiService.done final = true)
  \/ pollLoop operation answers = PollThrows
  \/ pollLoop operation answers = PollForever.
Proof.
  revert operation. induction answers as [|[h|] rest IH]; intro operation; simpl;
    destruct (GeminiService.done operation) eqn:E; eauto.
Qed.

Lemma truthyUri_some operation u :
  GeminiService.resultUri operation = Some u -> u <> EmptyString ->
  truthyUri operation = Some u.
Proof.
  intros H Hu. unfold truthyUri. rewrite H.
  destruct u; [congruence | reflexivity].
Qed.

Lemma truthyUri_none operation :
  GeminiService.resultUri operation = None -> truthyUri operation = None.
Proof. intro H. unfold truthyUri. now rewrite H. Qed.

End VideoFacts.

(** C3: the job is submitted and found running, any number of polls (two
    in the claim) find it running, and the next finds it done.  If the
    finished handle carries the locator [U] and the fetch of [U] delivers
    [d], the placeholder ends with the video attachment [d], an empty
    text and [isLoading = false]; if it carries no locator, the
    placeholder ends with the fixed failure text and [isLoading = false]. *)
Theorem handleVideoGeneration_polls_to_completion :
  forall (w : AppComponent.World) (userMessage : ChatModel.ChatMessage)
         (s : AppComponent.State)
         (submitted final : GeminiService.Operation)
         (pending : list GeminiService.Operation)
         (rest : list (option GeminiService.Operation)),
    AppComponent.generateVideo w (ChatModel.text userMessage)
      (AppComponent.videoImage userMessage s) = Some submitted ->
    GeminiService.done submitted = false ->
    Forall (fun h => GeminiService.done h = false) pending ->
    GeminiService.done final = true ->
    AppComponent.getVideosOperation w = map Some pending ++ Some final :: rest ->
    let outcome := AppComponent.handleVideoGeneration w userMessage s in
    let placeholder :=
      Spec.messageAt (List.length (AppComponent.chatHistory s))
        (AppComponent.chatHistory (stateOf outcome)) in
    (forall U d,
        GeminiService.resultUri final = Some U -> U <> EmptyString ->
        AppComponent.fetchVideoAsDataUrl w U = Some d ->
        isResolved outcome = true
        /\ exists m, placeholder = Some m
             /\ ChatModel.video m =
                  Some {| ChatModel.dataUrl := d; ChatModel.mimeType := "video/mp4" |}
             /\ ChatModel.text m = EmptyString
             /\ ChatModel.isLoading m = Some false)
    /\ (GeminiService.resultUri final = None ->
        isResolved outcome = true
        /\ exists m, placeholder = Some m
             /\ ChatModel.text m = AppComponent.videoApology
             /\ ChatModel.video m = None
             /\ ChatModel.isLoading m = Some false).
Proof.
  intros w userMessage s submitted final pending rest
         Hsubmit Hrunning Hpending Hdone Hanswers outcome placeholder.
  assert (Hpoll : AppComponent.pollLoop submitted (AppComponent.getVideosOperation w)
                  = PollDone final).
  { rewrite Hanswers. now apply VideoFacts.pollLoop_pending. }
  subst placeholder outcome. unfold AppComponent.handleVideoGeneration.
  change (AppComponent.videoImage userMessage
            (AppComponent.pushMessage
               (AppComponent.placeholder (AppComponent.nowModel w + 1)
                  AppComponent.videoStarting) s))
    with (AppComponent.videoImage userMessage s).
  rewrite Hsubmit, Hpoll.
  split.
  - intros U d HU Hne Hfetch.
    rewrite (VideoFacts.truthyUri_some _ _ HU Hne), Hfetch.
    split; [reflexivity|].
    eexists. split.
    + unfold Spec.messageAt. simpl.
      rewrite !updateById_nth, nth_error_snoc. simpl.
      rewrite Z.eqb_refl. simpl. rewrite Z.eqb_refl. simpl.
      rewrite Z.eqb_refl. reflexivity.
    + repeat split.
  - intro Hnone. rewrite (VideoFacts.truthyUri_none _ Hnone).
    split; [reflexivity|].
    eexists. split.
    + unfold Spec.messageAt. simpl.
      rewrite !updateById_nth, nth_error_snoc. simpl.
      rewrite Z.eqb_refl. simpl. rewrite Z.eqb_refl. reflexivity.
    + repeat split.
Qed.

(** C3 at the handle sequence of the claim: running, running, done. *)
Lemma handleVideoGeneration_polls_to_completion_witness :
  (exists m,
     Spec.messageAt 0
       (AppComponent.chatHistory
          (stateOf (AppComponent.handleVideoGeneration
                      (Samples.videoWorld (Some Samples.videoUri))
                      Samples.hello Samples.idle))) = Some m
     /\ ChatModel.video m =
          Some {| ChatModel.dataUrl := "data:video";
                  ChatModel.mimeType := "video/mp4" |}
     /\ ChatModel.text m = EmptyString
     /\ ChatModel.isLoading m = Some false)
  /\ (exists m,
        Spec.messageAt 0
          (AppComponent.chatHistory
             (stateOf (AppComponent.handleVideoGeneration
                         (Samples.videoWorld None)
                         Samples.hello Samples.idle))) = Some m
        /\ ChatModel.text m = AppComponent.videoApology
        /\ ChatModel.video m = None
        /\ ChatModel.isLoading m = Some false).
Proof.
  split.
  - refine (proj2 (proj1 (handleVideoGeneration_polls_to_completion
             (Samples.videoWorld (Some Samples.videoUri)) Samples.hello Samples.idle
             Samples.running (Samples.finished (Some Samples.videoUri))
             [Samples.running; Samples.running] []
             eq_refl eq_refl _ eq_refl eq_refl)
             Samples.videoUri "data:video" eq_refl _ eq_refl)).
    + repeat constructor.
    + discriminate.
  - refine (proj2 (proj2 (handleVideoGeneration_polls_to_completion
             (Samples.videoWorld None) Samples.hello Samples.idle
             Samples.running (Samples.finished None)
             [Samples.running; Samples.running] []
             eq_refl eq_refl _ eq_refl eq_refl) eq_refl)).
    repeat constructor.
Defined.

(** ** Failures during dispatch (second revision) *)

Module DispatchFacts.
Import ChatModel AppComponentRev2.

Lemma keys_nth h h' n m :
  Spec.keys h' = Spec.keys h ->
  nth_error h n = Some m ->
  exists m', nth_error h' n = Some m' /\ id m' = id m /\ role m' = role m.
Proof.
  intros Hkeys Hn.
  assert (H : nth_error (Spec.keys h') n = Some (Spec.key m)).
  { rewrite Hkeys. unfold Spec.keys. now apply map_nth_error. }
  unfold Spec.keys in H. rewrite nth_error_map in H.
  destruct (nth_error h' n) as [m'|]; [|discriminate].
  exists m'. split; [reflexivity|]. simpl in H.
  unfold Spec.key in H. split; congruence.
Qed.

Lemma writeText_keys k t s :
  Spec.keys (chatHistory (writeText k t s)) = Spec.keys (chatHistory s).
Proof. simpl. now apply updateById_keys. Qed.

Lemma pollLoop_keys k operation answers s :
  Spec.keys (chatHistory (snd (pollLoop k operation answers s))) =
  Spec.keys (chatHistory s).
Proof.
  revert operation s.
  induction answers as [|[h|] rest IH]; intros operation s; simpl;
    destruct (GeminiService.done operation); simpl; try reflexivity.
  rewrite IH. apply writeText_keys.
Qed.

Lemma handleChat_keys w userMessage k s :
  Spec.keys (chatHistory (stateOf (handleChat w userMessage k s))) =
  Spec.keys (chatHistory s).
Proof.
  unfold handleChat. simpl.
  rewrite updateById_keys by reflexivity.
  rewrite StreamFactsRev2.consumeStream_history.
  apply updateById_keys. intro m. unfold Spec.key.
  now rewrite StreamFactsRev2.absorbAll_id, StreamFactsRev2.absorbAll_role.
Qed.

Lemma handleImageGeneration_keys w prompt k s :
  Spec.keys (chatHistory (stateOf (handleImageGeneration w prompt k s))) =
  Spec.keys (chatHistory s).
Proof.
  unfold handleImageGeneration.
  destruct (generateImage w _ _); simpl; [|reflexivity].
  now apply updateById_keys.
Qed.

Lemma handleVideoGeneration_keys w userMessage k s :
  Spec.keys (chatHistory (stateOf (handleVideoGeneration w userMessage k s))) =
  Spec.keys (chatHistory s).
Proof.
  unfold handleVideoGeneration.
  destruct (generateVideo w _ _) as [operation|]; [|reflexivity].
  pose proof (pollLoop_keys k operation (getVideosOperation w)
                (writeText k videoStarted s)) as Hp.
  rewrite writeText_keys in Hp.
  destruct (pollLoop k operation (getVideosOperation w) (writeText k videoStarted s))
    as [[final| |] s2]; simpl in Hp; simpl; try assumption.
  destruct (truthyUri final).
  - destruct (fetchAsDataUrl w _); simpl; [|assumption].
    rewrite updateById_keys by reflexivity. assumption.
  - simpl. rewrite updateById_keys by reflexivity. assumption.
Qed.

Lemma dispatch_keys w userMessage k s :
  Spec.keys (chatHistory (stateOf (dispatch w userMessage k s))) =
  Spec.keys (chatHistory s).
Proof.
  unfold dispatch. destruct (currentMode s).
  - apply handleChat_keys.
  - apply handleImageGeneration_keys.
  - apply handleVideoGeneration_keys.
Qed.

Lemma prepare_history w s :
  let '(userMessage, k, s4) := prepare w s in
  k = nowModel w + 1
  /\ chatHistory s4 = chatHistory s ++ [userMessage; placeholder k].
Proof.
  unfold prepare, removeUploadedFile. simpl.
  split; [reflexivity|].
  destruct (fileInputValue s); simpl; now rewrite <- app_assoc.
Qed.

(** The stream handler itself never rejects: the gateway turns every
    provider failure into a fragment. *)
Lemma handleChat_resolves w userMessage k s :
  isResolved (handleChat w userMessage k s) = true.
Proof. reflexivity. Qed.

End DispatchFacts.

(** C2: in every mode, when the dispatched handler throws, [sendMessage]
    still resolves; the placeholder then carries the generic failure text
    with [isLoading = false], and the global loading flag is false. *)
Theorem sendMessage_catches_handler_failure :
  forall (w : AppComponentRev2.World) (s : AppComponentRev2.State),
    AppComponentRev2.guard s = false ->
    (let '(userMessage, modelMessageId, s4) := AppComponentRev2.prepare w s in
     isRejected (AppComponentRev2.dispatch w userMessage modelMessageId s4) = true) ->
    exists s',
      AppComponentRev2.sendMessage w s = Resolved s'
      /\ AppComponentRev2.isLoading s' = false
      /\ exists m,
           Spec.messageAt (S (List.length (AppComponentRev2.chatHistory s)))
             (AppComponentRev2.chatHistory s') = Some m
           /\ ChatModel.role m = ChatModel.model
           /\ ChatModel.text m = AppComponentRev2.genericFailure
           /\ ChatModel.isLoading m = Some false.
Proof.
  intros w s Hg Hrej.
  unfold AppComponentRev2.sendMessage. rewrite Hg.
  pose proof (DispatchFacts.prepare_history w s) as Hprep.
  destruct (AppComponentRev2.prepare w s) as [[userMessage k] s4].
  destruct Hprep as [Hk Hhist].
  pose proof (DispatchFacts.dispatch_keys w userMessage k s4) as Hids.
  destruct (AppComponentRev2.dispatch w userMessage k s4) as [s5|s5|s5];
    try discriminate Hrej.
  eexists. split; [reflexivity|]. split; [reflexivity|].
  simpl in Hids.
  assert (Hn : nth_error (AppComponentRev2.chatHistory s4)
                 (S (List.length (AppComponentRev2.chatHistory s)))
               = Some (AppComponentRev2.placeholder k)).
  { rewrite Hhist. rewrite nth_error_app2 by lia.
    replace (S (List.length (AppComponentRev2.chatHistory s))
             - List.length (AppComponentRev2.chatHistory s))%nat with 1%nat by lia.
    reflexivity. }
  destruct (DispatchFacts.keys_nth _ _ _ _ Hids Hn) as (m' & Hm' & Hid & Hrole).
  exists (ChatModel.with_isLoading (Some false)
            (ChatModel.with_text AppComponentRev2.genericFailure m')).
  split.
  - unfold Spec.messageAt.
    cbn [AppComponentRev2.chatHistory AppComponentRev2.set_isLoading
         AppComponentRev2.settleWithText AppComponentRev2.update_chatHistory
         AppComponentRev2.set_chatHistory].
    rewrite updateById_nth, Hm'. simpl.
    simpl in Hid. now rewrite Hid, Z.eqb_refl.
  - repeat split. exact Hrole.
Qed.

(** C2 in image mode, with the image request failing. *)
Lemma sendMessage_catches_handler_failure_witness :
  exists s',
    AppComponentRev2.sendMessage (Samples.world2 [] false)
      (Samples.idle2In ModeImage) = Resolved s'
    /\ AppComponentRev2.isLoading s' = false
    /\ exists m,
         Spec.messageAt 1 (AppComponentRev2.chatHistory s') = Some m
         /\ ChatModel.role m = ChatModel.model
         /\ ChatModel.text m = AppComponentRev2.genericFailure
         /\ ChatModel.isLoading m = Some false.
Proof.
  apply (sendMessage_catches_handler_failure (Samples.world2 [] false)
           (Samples.idle2In ModeImage)); reflexivity.
Defined.

(** ** One chat exchange on the event loop *)

Module ExchangeFacts.
Import ChatModel AppComponent.

Lemma replaceTask_snoc ts t t' :
  replaceTask (List.length ts) t' (ts ++ [t]) = ts ++ [t'].
Proof.
  unfold replaceTask.
  rewrite skipn_all2 by (rewrite length_app; simpl; lia).
  rewrite firstn_app, Nat.sub_diag, firstn_all. simpl. now rewrite app_nil_r.
Qed.

Lemma removeTask_snoc ts t : removeTask (List.length ts) (ts ++ [t]) = ts.
Proof.
  unfold removeTask.
  rewrite skipn_all2 by (rewrite length_app; simpl; lia).
  rewrite firstn_app, Nat.sub_diag, firstn_all. simpl. now rewrite !app_nil_r.
Qed.

Lemma sendTail_history s : chatHistory (sendTail s) = chatHistory s.
Proof.
  unfold sendTail, removeUploadedFile. simpl. now destruct (fileInputValue s).
Qed.

Lemma sendTail_isLoading s : isLoading (sendTail s) = false.
Proof. reflexivity. Qed.

Lemma clearings_once n :
  clearings (repeat (Some true) (S n) ++ [Some false]) = 1%nat.
Proof.
  induction n as [|n IH].
  - reflexivity.
  - change (repeat (Some true) (S (S n)) ++ [Some false])
      with (Some true :: (repeat (Some true) (S n) ++ [Some false])).
    change (clearings (Some true :: (repeat (Some true) (S n) ++ [Some false])))
      with (0 + clearings (repeat (Some true) (S n) ++ [Some false]))%nat.
    now rewrite IH.
Qed.

(** The run of one exchange ends where [handleChat] and the end of
    [sendMessage] end. *)
Lemma run_chatEvents ts k stream fullText groundingChunks s :
  run (chatEvents (List.length ts) stream)
    {| st := s; tasks := ts ++ [ChatTask k fullText groundingChunks] |}
  = Some {| st := sendTail (settle k (consumeStream k stream fullText
                                        groundingChunks s));
            tasks := ts |}.
Proof.
  revert fullText groundingChunks s.
  induction stream as [|chunk rest IH]; intros fullText groundingChunks s.
  - unfold chatEvents. simpl. rewrite nth_error_snoc.
    unfold finishSend. simpl. now rewrite removeTask_snoc.
  - unfold chatEvents in *. cbn [map app run fire st tasks].
    rewrite nth_error_snoc, replaceTask_snoc. apply IH.
Qed.

(** Along the run the flag of a message that carries the id stays set
    until the end of the stream clears it. *)
Lemma trace_chatEvents ts k stream fullText groundingChunks s n m :
  nth_error (chatHistory s) n = Some m ->
  id m = k ->
  loading m = true ->
  map (loadingAt n)
    (trace (chatEvents (List.length ts) stream)
       {| st := s; tasks := ts ++ [ChatTask k fullText groundingChunks] |})
  = repeat (Some true) (S (List.length stream)) ++ [Some false].
Proof.
  revert fullText groundingChunks s m.
  induction stream as [|chunk rest IH];
    intros fullText groundingChunks s m Hn Hid Hload.
  - unfold chatEvents. cbn [map app trace fire st tasks].
    rewrite nth_error_snoc. cbn [trace map repeat app List.length].
    f_equal.
    + unfold loadingAt. simpl. now rewrite Hn, <- Hload.
    + f_equal. unfold loadingAt, finishSend.
      cbn [st]. rewrite sendTail_history. simpl.
      rewrite updateById_nth, Hn. simpl. now rewrite Hid, Z.eqb_refl.
  - unfold chatEvents in *. cbn [map app trace fire st tasks].
    rewrite nth_error_snoc, replaceTask_snoc.
    cbn [map repeat app List.length].
    f_equal.
    + unfold loadingAt. simpl. now rewrite Hn, <- Hload.
    + eapply IH.
      * simpl. rewrite updateById_nth, Hn. simpl.
        rewrite Hid, Z.eqb_refl. reflexivity.
      * exact Hid.
      * exact Hload.
Qed.

Lemma beginSend_chat nowUser nowModel c :
  guard (st c) = false ->
  currentMode (st c) = ModeChat ->
  beginSend nowUser nowModel c =
  {| st := pushMessage (placeholder (nowModel + 1) EmptyString)
             (set_userInput EmptyString
                (pushMessage (makeUserMessage nowUser (st c))
                   (set_isLoading true (st c))));
     tasks := tasks c ++ [ChatTask (nowModel + 1) EmptyString []] |}.
Proof.
  intros Hg Hmode. unfold beginSend. rewrite Hg. simpl. now rewrite Hmode.
Qed.

Lemma sendMessage_chat w s :
  guard s = false ->
  currentMode s = ModeChat ->
  sendMessage w s =
  Resolved
    (sendTail
       (stateOf
          (handleChat w (makeUserMessage (nowUser w) s)
             (set_userInput EmptyString
                (pushMessage (makeUserMessage (nowUser w) s)
                   (set_isLoading true s)))))).
Proof.
  intros Hg Hmode. unfold sendMessage, dispatch. rewrite Hg. simpl.
  now rewrite Hmode.
Qed.

(** The event loop, left alone with one chat exchange, computes what
    [sendMessage] computes. *)
Lemma sendMessage_chat_run w c :
  guard (st c) = false ->
  currentMode (st c) = ModeChat ->
  let stream :=
    GeminiService.generateContentStream (remote w)
      (chatArgs (makeUserMessage (nowUser w) (st c)) (st c)) in
  exists s',
    sendMessage w (st c) = Resolved s'
    /\ run (EvSend (nowUser w) (nowModel w)
            :: chatEvents (List.length (tasks c)) stream) c
       = Some {| st := s'; tasks := tasks c |}.
Proof.
  intros Hg Hmode stream.
  eexists. split.
  - now apply sendMessage_chat.
  - cbn [run fire]. rewrite beginSend_chat by assumption.
    rewrite run_chatEvents. reflexivity.
Qed.

End ExchangeFacts.

(** C6, as stated, fails when the provider fails after it has delivered
    text: the message then holds that text followed by the fallback, not
    the fallback alone. *)
Lemma stream_failure_keeps_partial_text :
  let w := Samples.world [Spec.textFragment "Hi"] true in
  GeminiService.failsAfter
    (AppComponent.remote w
       (GeminiService.buildRequest
          (AppComponent.chatArgs Samples.hello Samples.idle))) = true
  /\ exists m,
       Spec.messageAt 1
         (AppComponent.chatHistory
            (stateOf (AppComponent.sendMessage w Samples.idle))) = Some m
       /\ ChatModel.text m = ("Hi" ++ GeminiService.errorText)%string
       /\ ChatModel.text m <> GeminiService.errorText.
Proof.
  split; [reflexivity|].
  eexists. split; [reflexivity|]. split; [reflexivity|]. discriminate.
Qed.

(** C6 (amended): when the provider fails, [generateContentStream] ends
    the stream with one fragment that carries the fixed error string and
    throws nothing.  The model message then holds the text delivered
    before the failure followed by that string, which is the whole text
    when nothing was delivered, and its loading flag goes from set to
    cleared exactly once, at the end of the stream. *)
Theorem stream_failure_yields_fallback :
  forall (w : AppComponent.World) (c : AppComponent.Config),
    AppComponent.guard (AppComponent.st c) = false ->
    AppComponent.currentMode (AppComponent.st c) = ModeChat ->
    let s := AppComponent.st c in
    let args :=
      AppComponent.chatArgs
        (AppComponent.makeUserMessage (AppComponent.nowUser w) s) s in
    let response := AppComponent.remote w (GeminiService.buildRequest args) in
    let stream := GeminiService.generateContentStream (AppComponent.remote w) args in
    let delivered := Spec.concatTexts (GeminiService.chunks response) in
    let position := S (List.length (AppComponent.chatHistory s)) in
    let flags :=
      map (AppComponent.loadingAt position)
        (AppComponent.trace
           (AppComponent.chatEvents (List.length (AppComponent.tasks c)) stream)
           (AppComponent.beginSend (AppComponent.nowUser w)
              (AppComponent.nowModel w) c)) in
    GeminiService.failsAfter response = true ->
    stream = GeminiService.chunks response ++ [GeminiService.errorFragment]
    /\ (exists s' m,
          AppComponent.sendMessage w s = Resolved s'
          /\ AppComponent.run
               (AppComponent.EvSend (AppComponent.nowUser w) (AppComponent.nowModel w)
                  :: AppComponent.chatEvents (List.length (AppComponent.tasks c)) stream)
               c
             = Some {| AppComponent.st := s'; AppComponent.tasks := AppComponent.tasks c |}
          /\ Spec.messageAt position (AppComponent.chatHistory s') = Some m
          /\ ChatModel.text m = (delivered ++ GeminiService.errorText)%string
          /\ (delivered = EmptyString -> ChatModel.text m = GeminiService.errorText)
          /\ ChatModel.isLoading m = Some false)
    /\ flags = repeat (Some true) (S (List.length stream)) ++ [Some false]
    /\ AppComponent.clearings flags = 1%nat.
Proof.
  intros w c Hg Hmode s args response stream delivered position flags Hfail.
  assert (Hstream : stream = GeminiService.chunks response ++ [GeminiService.errorFragment]).
  { subst stream. unfold GeminiService.generateContentStream.
    fold response. now rewrite Hfail. }
  assert (Hflags : flags = repeat (Some true) (S (List.length stream)) ++ [Some false]).
  { subst flags. rewrite ExchangeFacts.beginSend_chat by assumption.
    eapply ExchangeFacts.trace_chatEvents.
    - subst position s.
      cbn [AppComponent.chatHistory AppComponent.pushMessage
           AppComponent.update_chatHistory AppComponent.set_chatHistory
           AppComponent.set_userInput AppComponent.set_isLoading].
      replace (S (List.length (AppComponent.chatHistory (AppComponent.st c))))
        with (List.length
                (AppComponent.chatHistory (AppComponent.st c)
                   ++ [AppComponent.makeUserMessage (AppComponent.nowUser w)
                         (AppComponent.set_isLoading true (AppComponent.st c))]))
        by (rewrite length_app; simpl; lia).
      apply nth_error_snoc.
    - reflexivity.
    - reflexivity. }
  split; [exact Hstream|]. split; [|split].
  - destruct (ExchangeFacts.sendMessage_chat_run w c Hg Hmode) as (s' & Hsend & Hrun).
    fold s args stream in Hsend, Hrun.
    set (userMessage := AppComponent.makeUserMessage (AppComponent.nowUser w) s).
    set (s3 := AppComponent.set_userInput EmptyString
                 (AppComponent.pushMessage userMessage
                    (AppComponent.set_isLoading true s))).
    destruct (StreamFacts.handleChat_placeholder w userMessage s3)
      as (m & _ & Hat & Htext & _ & Hload & _).
    exists s', m.
    split; [exact Hsend|]. split; [exact Hrun|].
    assert (Hs' : s' = AppComponent.sendTail
                         (stateOf (AppComponent.handleChat w userMessage s3))).
    { rewrite (ExchangeFacts.sendMessage_chat w s Hg Hmode) in Hsend.
      now injection Hsend as <-. }
    assert (Htext' : ChatModel.text m = (delivered ++ GeminiService.errorText)%string).
    { rewrite Htext.
      change (GeminiService.generateContentStream (AppComponent.remote w)
                (AppComponent.chatArgs userMessage s3)) with stream.
      rewrite Hstream. subst delivered.
      generalize (GeminiService.chunks response). intro l.
      induction l as [|chunk rest IH]; simpl; [reflexivity | now rewrite IH, append_assoc]. }
    split; [|split; [exact Htext'|split; [|exact Hload]]].
    + rewrite Hs', ExchangeFacts.sendTail_history.
      subst position.
      replace (S (List.length (AppComponent.chatHistory s)))
        with (List.length (AppComponent.chatHistory s3)); [exact Hat|].
      subst s3. simpl. rewrite length_app. simpl. lia.
    + intro He. now rewrite Htext', He.
  - exact Hflags.
  - rewrite Hflags. apply ExchangeFacts.clearings_once.
Qed.

(** C6 at a provider that fails at once. *)
Lemma stream_failure_yields_fallback_witness :
  exists s' m,
    AppComponent.sendMessage (Samples.world [] true) Samples.idle = Resolved s'
    /\ Spec.messageAt 1 (AppComponent.chatHistory s') = Some m
    /\ ChatModel.text m = GeminiService.errorText
    /\ ChatModel.isLoading m = Some false.
Proof.
  destruct (stream_failure_yields_fallback (Samples.world [] true)
              {| AppComponent.st := Samples.idle; AppComponent.tasks := [] |}
              eq_refl eq_refl eq_refl)
    as (_ & (s' & m & Hsend & _ & Hat & _ & Htext & Hload) & _).
  exists s', m. repeat split; try assumption. now apply Htext.
Defined.

(** ** Loading flags on the event loop *)

Module LoadingFacts.
Import ChatModel AppComponent.

Local Notation "'occ' x l" := (count_occ Z.eq_dec l x)
  (at level 10, x at level 9, l at level 9, only parsing).

Lemma occ_le_length (l1 l2 : list Z) :
  (forall x, (occ x l1 <= occ x l2)%nat) ->
  (List.length l1 <= List.length l2)%nat.
Proof.
  revert l2. induction l1 as [|a l1 IH]; intros l2 H; simpl; [lia|].
  assert (Hin : In a l2).
  { apply (count_occ_In Z.eq_dec). specialize (H a). simpl in H.
    destruct (Z.eq_dec a a); [lia | congruence]. }
  apply in_split in Hin. destruct Hin as (p & q & ->).
  rewrite length_app. simpl.
  enough (List.length l1 <= List.length (p ++ q))%nat
    by (rewrite length_app in *; lia).
  apply IH. intro x. specialize (H x). simpl in H.
  destruct (Z.eq_dec a x) as [->|Hne].
  - rewrite (count_occ_elt_eq Z.eq_dec p q eq_refl) in H. lia.
  - now rewrite (count_occ_elt_neq Z.eq_dec p q Hne) in H.
Qed.

Lemma loadingIds_app h1 h2 :
  loadingIds (h1 ++ h2) = loadingIds h1 ++ loadingIds h2.
Proof.
  induction h1 as [|m h1 IH]; simpl; [reflexivity|].
  destruct (loading m); simpl; now rewrite IH.
Qed.

Lemma loadingIds_keep k f h :
  (forall m, id (f m) = id m /\ loading (f m) = loading m) ->
  loadingIds (updateById k f h) = loadingIds h.
Proof.
  intro Hf. induction h as [|m h IH]; simpl; [reflexivity|].
  rewrite IH. destruct (id m =? k); [|reflexivity].
  destruct (Hf m) as [-> ->]. reflexivity.
Qed.

Lemma loadingIds_settle k f h x :
  (forall m, id (f m) = id m /\ loading (f m) = false) ->
  occ x (loadingIds (updateById k f h)) =
  if Z.eq_dec x k then 0%nat else occ x (loadingIds h).
Proof.
  intro Hf. induction h as [|m h IH]; simpl.
  - now destruct (Z.eq_dec x k).
  - destruct (id m =? k) eqn:E.
    + destruct (Hf m) as [_ ->]. rewrite IH.
      destruct (Z.eq_dec x k) as [->|Hne]; [reflexivity|].
      destruct (loading m); [|reflexivity]. simpl.
      apply Z.eqb_eq in E. destruct (Z.eq_dec (id m) x); [congruence|reflexivity].
    + destruct (loading m); simpl; rewrite IH.
      * destruct (Z.eq_dec x k) as [->|Hne].
        -- apply Z.eqb_neq in E. destruct (Z.eq_dec (id m) k); [congruence|reflexivity].
        -- reflexivity.
      * reflexivity.
Qed.

Lemma requestIds_app ts1 ts2 :
  requestIds (ts1 ++ ts2) = requestIds ts1 ++ requestIds ts2.
Proof.
  induction ts1 as [|t ts1 IH]; simpl; [reflexivity|].
  destruct (requestId t); simpl; now rewrite IH.
Qed.

Lemma requestIds_replace i t t' ts :
  nth_error ts i = Some t ->
  requestId t' = requestId t ->
  requestIds (replaceTask i t' ts) = requestIds ts.
Proof.
  intros Hn Hid. unfold replaceTask.
  rewrite <- (firstn_skipn_middle i ts Hn) at 3.
  rewrite !requestIds_app. simpl. now rewrite Hid.
Qed.

Lemma requestIds_remove_other i t ts :
  nth_error ts i = Some t ->
  requestId t = None ->
  requestIds (removeTask i ts) = requestIds ts.
Proof.
  intros Hn Hid. unfold removeTask.
  rewrite <- (firstn_skipn_middle i ts Hn) at 3.
  rewrite !requestIds_app. simpl. now rewrite Hid.
Qed.

Lemma requestIds_remove_request i t k ts x :
  nth_error ts i = Some t ->
  requestId t = Some k ->
  x <> k ->
  occ x (requestIds (removeTask i ts)) = occ x (requestIds ts).
Proof.
  intros Hn Hid Hne. unfold removeTask.
  rewrite <- (firstn_skipn_middle i ts Hn) at 3.
  rewrite !requestIds_app. simpl. rewrite Hid.
  rewrite !count_occ_app. simpl.
  destruct (Z.eq_dec k x); [congruence|reflexivity].
Qed.

(** A step that keeps the loading messages and the requests. *)
Lemma covered_keep c s' ts' :
  covered c ->
  loadingIds (chatHistory s') = loadingIds (chatHistory (st c)) ->
  requestIds ts' = requestIds (tasks c) ->
  covered {| st := s'; tasks := ts' |}.
Proof.
  intros H Hl Hr x. simpl. rewrite Hl, Hr. apply H.
Qed.

(** The end of a request: its placeholder is settled, together with
    every message that shares the id. *)
Lemma covered_finish c i t k f w :
  covered c ->
  nth_error (tasks c) i = Some t ->
  requestId t = Some k ->
  (forall m, id (f m) = id m /\ loading (f m) = false) ->
  (forall s, chatHistory (w s) = updateById k f (chatHistory s)) ->
  covered (finishSend i w c).
Proof.
  intros H Hn Hid Hf Hw x. unfold finishSend. cbn [st tasks].
  rewrite ExchangeFacts.sendTail_history, Hw, (loadingIds_settle k f _ x Hf).
  destruct (Z.eq_dec x k) as [->|Hne]; [lia|].
  rewrite (requestIds_remove_request i t k _ x Hn Hid Hne). apply H.
Qed.

End LoadingFacts.

Module InvariantFacts.
Import ChatModel AppComponent LoadingFacts.

Lemma covered_begin c nowUser k t task :
  covered c ->
  requestId task = Some k ->
  covered
    {| st := pushMessage (placeholder k t)
               (set_userInput EmptyString
                  (pushMessage (makeUserMessage nowUser (set_isLoading true (st c)))
                     (set_isLoading true (st c))));
       tasks := tasks c ++ [task] |}.
Proof.
  intros H Hid x. cbn [st tasks chatHistory pushMessage update_chatHistory
                       set_chatHistory set_userInput set_isLoading].
  rewrite !loadingIds_app, requestIds_app, !count_occ_app.
  simpl. rewrite Hid. simpl. specialize (H x). lia.
Qed.

Lemma covered_beginSend nowUser nowModel c :
  covered c -> covered (beginSend nowUser nowModel c).
Proof.
  intro H. unfold beginSend.
  destruct (guard (st c)); [assumption|].
  cbn [currentMode set_userInput pushMessage update_chatHistory set_chatHistory
       set_isLoading].
  destruct (currentMode (st c)); now apply covered_begin.
Qed.

Lemma covered_afterOperation c i t k operation :
  covered c ->
  nth_error (tasks c) i = Some t ->
  requestId t = Some k ->
  covered (afterOperation i k operation c).
Proof.
  intros H Hn Hid. unfold afterOperation.
  destruct (GeminiService.done operation).
  - destruct (truthyUri operation).
    + apply (covered_keep c); [assumption| |].
      * simpl. now apply loadingIds_keep.
      * now apply (requestIds_replace i t).
    + eapply covered_finish;
        [exact H | exact Hn | exact Hid | | intro; reflexivity];
        intro; now split.
  - apply (covered_keep c); [assumption|reflexivity|].
    now apply (requestIds_replace i t).
Qed.

Ltac finish H Hn :=
  eapply covered_finish;
  [exact H | exact Hn | reflexivity | | intro; reflexivity];
  intro; now split.

Ltac keep H :=
  match type of H with
  | covered ?c =>
      apply (covered_keep c); [exact H | try reflexivity | try reflexivity]
  end.

(** Every step of the event loop keeps the invariant. *)
Lemma fire_covered e c c' :
  fire e c = Some c' -> covered c -> covered c'.
Proof.
  intros Hfire H. destruct e; cbn [fire] in Hfire.
  - (* EvSend *)
    injection Hfire as <-. now apply covered_beginSend.
  - (* EvNewConversation *)
    injection Hfire as <-. intro x. simpl. lia.
  - injection Hfire as <-. keep H.
  - injection Hfire as <-. keep H.
  - injection Hfire as <-. keep H.
  - injection Hfire as <-. keep H.
  - injection Hfire as <-. keep H.
  - injection Hfire as <-. keep H.
  - (* EvRemoveUploadedFile *)
    injection Hfire as <-. keep H.
    unfold removeUploadedFile. simpl. now destruct (fileInputValue (st c)).
  - (* EvPlayAudio *)
    destruct (nth_error (chatHistory (st c)) position) as [message|];
      [|discriminate].
    destruct (playing message); injection Hfire as <-; [assumption|].
    keep H.
    + simpl. now apply loadingIds_keep.
    + rewrite requestIds_app. simpl. apply app_nil_r.
  - (* EvStartRecording *)
    destruct (isRecording (st c)); injection Hfire as <-; [assumption|].
    keep H. rewrite requestIds_app. simpl. apply app_nil_r.
  - (* EvStopRecording *)
    destruct (hasRecorder (st c) && isRecording (st c));
      injection Hfire as <-; [|assumption].
    keep H. rewrite requestIds_app. simpl. apply app_nil_r.
  - (* EvChunk *)
    destruct (nth_error (tasks c) i) as [t|] eqn:Hn; [|discriminate].
    destruct t; try discriminate; injection Hfire as <-; keep H.
    + simpl. now apply loadingIds_keep.
    + now apply (requestIds_replace i _ _ _ Hn).
    + now apply (requestIds_replace i _ _ _ Hn).
  - (* EvStreamEnd *)
    destruct (nth_error (tasks c) i) as [t|] eqn:Hn; [|discriminate].
    destruct t; try discriminate; injection Hfire as <-.
    + finish H Hn.
    + keep H. now apply (requestIds_remove_other i _ _ Hn).
  - (* EvImage *)
    destruct (nth_error (tasks c) i) as [t|] eqn:Hn; [|discriminate].
    destruct t; try discriminate; injection Hfire as <-.
    finish H Hn.
  - (* EvOperation *)
    destruct (nth_error (tasks c) i) as [t|] eqn:Hn; [|discriminate].
    destruct t; try discriminate; injection Hfire as <-.
    + eapply covered_afterOperation; [|exact Hn|reflexivity].
      keep H. simpl. now apply loadingIds_keep.
    + eapply covered_afterOperation; [exact H|exact Hn|reflexivity].
  - (* EvVideoData *)
    destruct (nth_error (tasks c) i) as [t|] eqn:Hn; [|discriminate].
    destruct t; try discriminate; injection Hfire as <-.
    finish H Hn.
  - (* EvSpeech *)
    destruct (nth_error (tasks c) i) as [t|] eqn:Hn; [|discriminate].
    destruct t; try discriminate; injection Hfire as <-.
    keep H. now apply (requestIds_replace i _ _ _ Hn).
  - (* EvPlaybackEnded *)
    destruct (nth_error (tasks c) i) as [t|] eqn:Hn; [|discriminate].
    destruct t; try discriminate; injection Hfire as <-.
    keep H.
    + simpl. now apply loadingIds_keep.
    + now apply (requestIds_remove_other i _ _ Hn).
  - (* EvMicGranted *)
    destruct (nth_error (tasks c) i) as [t|] eqn:Hn; [|discriminate].
    destruct t; try discriminate; injection Hfire as <-.
    keep H. now apply (requestIds_remove_other i _ _ Hn).
  - (* EvEncoded *)
    destruct (nth_error (tasks c) i) as [t|] eqn:Hn; [|discriminate].
    destruct t; try discriminate; injection Hfire as <-.
    keep H. now apply (requestIds_replace i _ _ _ Hn).
  - (* EvThrow *)
    destruct (nth_error (tasks c) i) as [t|] eqn:Hn; [|discriminate].
    destruct t; try discriminate; injection Hfire as <-;
      try (finish H Hn).
    + keep H.
      * simpl. now apply loadingIds_keep.
      * now apply (requestIds_remove_other i _ _ Hn).
    + keep H. now apply (requestIds_remove_other i _ _ Hn).
    + keep H. now apply (requestIds_remove_other i _ _ Hn).
  - (* EvSaveEffect *)
    injection Hfire as <-. keep H. now destruct accepted.
Qed.

Lemma run_covered es c c' :
  run es c = Some c' -> covered c -> covered c'.
Proof.
  revert c. induction es as [|e rest IH]; intros c Hrun H; simpl in Hrun.
  - now injection Hrun as <-.
  - destruct (fire e c) as [c1|] eqn:Hfire; [|discriminate].
    eapply IH; eauto using fire_covered.
Qed.

Lemma mapWithIds_loading clock index l :
  loadingIds (mapWithIds clock index l) = [].
Proof.
  revert index. induction l as [|msg rest IH]; intro index; simpl; auto.
Qed.

Lemma boot_covered stored input clock : covered (boot stored input clock).
Proof.
  intro x. unfold boot, loadChatHistory. simpl.
  destruct stored as [[l| |]|]; simpl; try lia.
  rewrite mapWithIds_loading. simpl. lia.
Qed.

Lemma reachable_covered c : Reachable c -> covered c.
Proof.
  intros (stored & input & clock & es & Hrun).
  eapply run_covered; eauto using boot_covered.
Qed.

End InvariantFacts.

Module ForwardFacts.
Import ChatModel AppComponent.

Lemma forwardBy_refl h : forwardBy [] h h.
Proof.
  exists (fun m => m). split.
  - now rewrite map_id, app_nil_r.
  - auto.
Qed.

Lemma forwardBy_trans e1 h1 h2 h3 :
  forwardBy e1 h1 h2 -> forwardBy [] h2 h3 ->
  exists e1', forwardBy e1' h1 h3 /\ Spec.ids e1' = Spec.ids e1.
Proof.
  intros (g1 & -> & H1) (g2 & -> & H2).
  exists (map g2 e1). split.
  - exists (fun m => g2 (g1 m)). split.
    + now rewrite map_app, map_map, app_nil_r.
    + intro m. destruct (H1 m) as (Hi & Hr & Hl).
      destruct (H2 (g1 m)) as (Hi' & Hr' & Hl').
      repeat split; try congruence. auto.
  - unfold Spec.ids. rewrite map_map. apply map_ext. intro m. apply H2.
Qed.

Lemma forwardBy_nil_trans h1 h2 h3 :
  forwardBy [] h1 h2 -> forwardBy [] h2 h3 -> forwardBy [] h1 h3.
Proof.
  intros H1 H2. destruct (forwardBy_trans _ _ _ _ H1 H2) as (e & He & Hids).
  destruct e; [assumption | discriminate].
Qed.

Lemma forward_refl h : forward h h.
Proof. exists []. apply forwardBy_refl. Qed.

Lemma forward_trans h1 h2 h3 : forward h1 h2 -> forward h2 h3 -> forward h1 h3.
Proof.
  intros (e1 & g1 & -> & H1) (e2 & g2 & -> & H2).
  exists (map g2 e1 ++ e2), (fun m => g2 (g1 m)). split.
  - now rewrite map_app, map_map, app_assoc.
  - intro m. destruct (H1 m) as (Hi & Hr & Hl).
    destruct (H2 (g1 m)) as (Hi' & Hr' & Hl').
    repeat split; try congruence. auto.
Qed.

Lemma forwardBy_update k f h :
  (forall m, id (f m) = id m /\ role (f m) = role m
             /\ (loading m = false -> loading (f m) = false)) ->
  forwardBy [] h (updateById k f h).
Proof.
  intro Hf. exists (fun m => if id m =? k then f m else m). split.
  - now rewrite app_nil_r.
  - intro m. destruct (id m =? k); [apply Hf | auto].
Qed.

Lemma forwardBy_ids extra h h' :
  forwardBy extra h h' -> Spec.ids h' = Spec.ids h ++ Spec.ids extra.
Proof.
  intros (g & -> & Hg). unfold Spec.ids. rewrite map_app, map_map.
  f_equal. apply map_ext. intro m. apply Hg.
Qed.

(** What [forward] says of one position. *)
Lemma forward_nth h h' n m :
  forward h h' ->
  nth_error h n = Some m ->
  exists m',
    nth_error h' n = Some m'
    /\ id m' = id m /\ role m' = role m
    /\ (loading m = false -> loading m' = false).
Proof.
  intros (extra & g & -> & Hg) Hn.
  exists (g m). split; [|apply Hg].
  rewrite nth_error_app1.
  - now apply map_nth_error.
  - rewrite length_map. apply nth_error_Some. congruence.
Qed.

Ltac updated :=
  apply forwardBy_update; intro; repeat split; auto.

Lemma forwardBy_beginSend nowUser nowModel c :
  forwardBy (appended (EvSend nowUser nowModel) c)
    (chatHistory (st c)) (chatHistory (st (beginSend nowUser nowModel c))).
Proof.
  unfold beginSend, appended. destruct (guard (st c)); [apply forwardBy_refl|].
  exists (fun m => m). split; [|auto]. rewrite map_id.
  cbn [currentMode set_userInput pushMessage update_chatHistory set_chatHistory
       set_isLoading chatHistory].
  destruct (currentMode (st c)); cbn [st];
    unfold pushMessage, update_chatHistory; simpl;
    now rewrite <- app_assoc.
Qed.

Lemma forwardBy_finishSend i w c :
  forwardBy [] (chatHistory (st c)) (chatHistory (w (st c))) ->
  forwardBy [] (chatHistory (st c)) (chatHistory (st (finishSend i w c))).
Proof.
  intro H. unfold finishSend. cbn [st].
  now rewrite ExchangeFacts.sendTail_history.
Qed.

Lemma forwardBy_afterOperation i k operation c :
  forwardBy [] (chatHistory (st c))
    (chatHistory (st (afterOperation i k operation c))).
Proof.
  unfold afterOperation. destruct (GeminiService.done operation).
  - destruct (truthyUri operation).
    + cbn [st]. simpl. updated.
    + apply forwardBy_finishSend. simpl. updated.
  - apply forwardBy_refl.
Qed.

(** Every step but [startNewConversation] moves the history forward,
    and only a [sendMessage] that passes the guard appends to it. *)
Lemma fire_forwardBy e c c' :
  fire e c = Some c' ->
  clears e = false ->
  forwardBy (appended e c) (chatHistory (st c)) (chatHistory (st c')).
Proof.
  intros Hfire Hclear. destruct e; cbn [fire] in Hfire; try discriminate Hclear;
    try (injection Hfire as <-; now apply forwardBy_refl).
  - injection Hfire as <-. apply forwardBy_beginSend.
  - injection Hfire as <-. unfold removeUploadedFile. simpl.
    destruct (fileInputValue (st c)); apply forwardBy_refl.
  - destruct (nth_error (chatHistory (st c)) position) as [message|];
      [|discriminate].
    destruct (playing message); injection Hfire as <-; [apply forwardBy_refl|].
    simpl. updated.
  - destruct (isRecording (st c)); injection Hfire as <-; apply forwardBy_refl.
  - destruct (hasRecorder (st c) && isRecording (st c));
      injection Hfire as <-; apply forwardBy_refl.
  - destruct (nth_error (tasks c) i) as [[]|]; try discriminate;
      injection Hfire as <-; [|apply forwardBy_refl].
    simpl. updated.
  - destruct (nth_error (tasks c) i) as [[]|]; try discriminate;
      injection Hfire as <-; [|apply forwardBy_refl].
    apply forwardBy_finishSend. simpl. updated.
  - destruct (nth_error (tasks c) i) as [[]|]; try discriminate;
      injection Hfire as <-.
    apply forwardBy_finishSend. simpl. updated.
  - destruct (nth_error (tasks c) i) as [[]|]; try discriminate;
      injection Hfire as <-.
    + eapply forwardBy_nil_trans; [|apply forwardBy_afterOperation].
      simpl. updated.
    + apply forwardBy_afterOperation.
  - destruct (nth_error (tasks c) i) as [[]|]; try discriminate;
      injection Hfire as <-.
    apply forwardBy_finishSend. simpl. updated.
  - destruct (nth_error (tasks c) i) as [[]|]; try discriminate;
      injection Hfire as <-. apply forwardBy_refl.
  - destruct (nth_error (tasks c) i) as [[]|]; try discriminate;
      injection Hfire as <-. simpl. updated.
  - destruct (nth_error (tasks c) i) as [[]|]; try discriminate;
      injection Hfire as <-. apply forwardBy_refl.
  - destruct (nth_error (tasks c) i) as [[]|]; try discriminate;
      injection Hfire as <-. apply forwardBy_refl.
  - destruct (nth_error (tasks c) i) as [[]|]; try discriminate;
      injection Hfire as <-;
      try (apply forwardBy_finishSend; simpl; updated);
      try apply forwardBy_refl.
    simpl. updated.
  - injection Hfire as <-. destruct accepted; apply forwardBy_refl.
Qed.

Lemma run_forward es c c' :
  run es c = Some c' ->
  existsb clears es = false ->
  forward (chatHistory (st c)) (chatHistory (st c')).
Proof.
  revert c. induction es as [|e rest IH]; intros c Hrun Hclear; simpl in *.
  - injection Hrun as <-. apply forward_refl.
  - destruct (fire e c) as [c1|] eqn:Hfire; [|discriminate].
    apply orb_false_iff in Hclear. destruct Hclear as [He Hrest].
    eapply forward_trans; [|eauto].
    eexists. eapply fire_forwardBy; eauto.
Qed.

(** [startNewConversation] leaves no message behind. *)
Lemma fire_clears e c c' :
  fire e c = Some c' -> clears e = true -> chatHistory (st c') = [].
Proof.
  intros Hfire Hclear. destruct e; try discriminate Hclear.
  cbn [fire] in Hfire. now injection Hfire as <-.
Qed.

End ForwardFacts.

(** C7: in every reachable configuration of the event loop the messages
    with [isLoading = true] are no more than the requests in flight, each
    being the placeholder of one of them.  And as long as the conversation
    is not cleared, every message keeps its position, id and role, and a
    loading flag that is cleared stays cleared: no operation sets it back
    to true. *)
Theorem loading_flags_only_settle :
  forall c : AppComponent.Config,
    AppComponent.Reachable c ->
    (List.length (AppComponent.loadingIds (AppComponent.chatHistory (AppComponent.st c)))
     <= List.length (AppComponent.requestIds (AppComponent.tasks c)))%nat
    /\ (forall x,
          count_occ Z.eq_dec
            (AppComponent.loadingIds (AppComponent.chatHistory (AppComponent.st c))) x
          <= count_occ Z.eq_dec (AppComponent.requestIds (AppComponent.tasks c)) x)%nat
    /\ forall es c',
         AppComponent.run es c = Some c' ->
         existsb AppComponent.clears es = false ->
         forall n m,
           nth_error (AppComponent.chatHistory (AppComponent.st c)) n = Some m ->
           exists m',
             nth_error (AppComponent.chatHistory (AppComponent.st c')) n = Some m'
             /\ ChatModel.id m' = ChatModel.id m
             /\ ChatModel.role m' = ChatModel.role m
             /\ (ChatModel.loading m = false -> ChatModel.loading m' = false).
Proof.
  intros c Hreach.
  pose proof (InvariantFacts.reachable_covered c Hreach) as Hcov.
  split; [|split].
  - now apply LoadingFacts.occ_le_length.
  - exact Hcov.
  - intros es c' Hrun Hclear n m Hn.
    eapply ForwardFacts.forward_nth; eauto using ForwardFacts.run_forward.
Qed.

(** C7 at the configuration after one [sendMessage]: one loading
    message for one request; the stream then delivers a fragment and
    ends, and the user message at position 0 is still there, unchanged
    in id and role and still not loading. *)
Lemma loading_flags_only_settle_witness :
  (List.length
     (AppComponent.loadingIds
        (AppComponent.chatHistory (AppComponent.st Samples.afterSend)))
   <= List.length (AppComponent.requestIds (AppComponent.tasks Samples.afterSend)))%nat
  /\ exists m',
       nth_error
         (AppComponent.chatHistory
            (AppComponent.sendTail
               (AppComponent.settle 1001
                  (AppComponent.consumeStream 1001 [Spec.textFragment "Hi"]
                     EmptyString [] (AppComponent.st Samples.afterSend))))) 0
       = Some m'
       /\ ChatModel.id m' = 1000
       /\ ChatModel.role m' = ChatModel.user
       /\ (false = false -> ChatModel.loading m' = false).
Proof.
  assert (Hreach : AppComponent.Reachable Samples.afterSend).
  { exists None, (Some EmptyString), (fun _ => 0),
      [AppComponent.EvSetInput "hello"; AppComponent.EvSend 1000 1000].
    reflexivity. }
  destruct (loading_flags_only_settle Samples.afterSend Hreach) as (Hle & _ & Hfwd).
  split; [exact Hle|].
  exact (Hfwd (AppComponent.chatEvents 0 [Spec.textFragment "Hi"]) _
           eq_refl eq_refl 0%nat Samples.hello eq_refl).
Defined.

(** ** Ids *)

Module IdFacts.
Import ChatModel AppComponent.

Lemma sorted_snoc (l : list Z) (a : Z) :
  StronglySorted Z.lt l ->
  (forall x, In x l -> x < a) ->
  StronglySorted Z.lt (l ++ [a]).
Proof.
  intros Hs Hlt. induction Hs as [|x l Hs IH Hx]; simpl.
  - repeat constructor.
  - constructor.
    + apply IH. intros y Hy. apply Hlt. now right.
    + apply Forall_app. split; [assumption|].
      constructor; [|constructor]. apply Hlt. now left.
Qed.

Lemma sorted_snoc2 (l : list Z) (a b : Z) :
  StronglySorted Z.lt l ->
  (forall x, In x l -> x < a) ->
  a < b ->
  StronglySorted Z.lt (l ++ [a; b]).
Proof.
  intros Hs Hlt Hab.
  change (l ++ [a; b]) with (l ++ [a] ++ [b]). rewrite app_assoc.
  apply sorted_snoc; [now apply sorted_snoc|].
  intros x Hx. apply in_app_or in Hx. destruct Hx as [Hx|[<-|[]]].
  - specialize (Hlt x Hx). lia.
  - assumption.
Qed.

Lemma sorted_NoDup (l : list Z) : StronglySorted Z.lt l -> NoDup l.
Proof.
  intro Hs. induction Hs as [|x l Hs IH Hx]; constructor; [|assumption].
  intro Hin. rewrite Forall_forall in Hx. specialize (Hx x Hin). lia.
Qed.

(** The ids a load assigns. *)
Lemma mapWithIds_sorted clock index l :
  nondecreasing clock ->
  StronglySorted Z.lt (Spec.ids (mapWithIds clock index l))
  /\ Forall (fun x => clock index + Z.of_nat index <= x)
       (Spec.ids (mapWithIds clock index l)).
Proof.
  intro Hclock. revert index.
  induction l as [|msg rest IH]; intro index; simpl.
  - split; constructor.
  - destruct (IH (S index)) as [Hs Hge]. split.
    + constructor; [assumption|].
      eapply Forall_impl; [|exact Hge]. intros x Hx. simpl in Hx.
      specialize (Hclock index). lia.
    + constructor; [lia|].
      eapply Forall_impl; [|exact Hge]. intros x Hx. simpl in Hx.
      specialize (Hclock index). lia.
Qed.

Lemma boot_sorted stored input clock :
  nondecreasing clock ->
  StronglySorted Z.lt (Spec.ids (chatHistory (st (boot stored input clock)))).
Proof.
  intro Hclock. unfold boot, loadChatHistory. simpl.
  destruct stored as [[l| |]|]; simpl; try constructor.
  now apply mapWithIds_sorted.
Qed.

(** A step with timely readings keeps the ids strictly increasing. *)
Lemma fire_sorted e c c' :
  fire e c = Some c' ->
  timely e c ->
  StronglySorted Z.lt (Spec.ids (chatHistory (st c))) ->
  StronglySorted Z.lt (Spec.ids (chatHistory (st c'))).
Proof.
  intros Hfire Htimely Hs.
  destruct (clears e) eqn:Hclear.
  - rewrite (ForwardFacts.fire_clears e c c' Hfire Hclear). constructor.
  - rewrite (ForwardFacts.forwardBy_ids _ _ _
               (ForwardFacts.fire_forwardBy e c c' Hfire Hclear)).
    destruct e; simpl; try (now rewrite app_nil_r).
    destruct (guard (st c)) eqn:Hg; simpl; [now rewrite app_nil_r|].
    destruct (Htimely Hg) as [Hlater Hle].
    apply sorted_snoc2; [assumption| |lia].
    intros x Hx. unfold Spec.ids in Hx. apply in_map_iff in Hx.
    destruct Hx as (m & <- & Hm). now apply Hlater.
Qed.

Lemma run_sorted es c c' :
  run es c = Some c' ->
  timelyRun es c ->
  StronglySorted Z.lt (Spec.ids (chatHistory (st c))) ->
  StronglySorted Z.lt (Spec.ids (chatHistory (st c'))).
Proof.
  revert c. induction es as [|e rest IH]; intros c Hrun Ht Hs; simpl in *.
  - now injection Hrun as <-.
  - destruct (fire e c) as [c1|] eqn:Hfire; [|discriminate].
    destruct Ht as [He Hrest].
    eapply IH; eauto using fire_sorted.
Qed.

End IdFacts.

(** C8, as stated, fails: three persisted messages are loaded with the
    clock at 1000 and get the ids 1000, 1001, 1002; a message sent one
    millisecond later gets the id 1001, and its placeholder 1002.  The
    clock never goes back in this run. *)
Lemma ids_repeat_after_load :
  AppComponent.nondecreasing (fun _ => 1000)
  /\ exists c,
       AppComponent.run
         [AppComponent.EvSetInput "hi"; AppComponent.EvSend 1001 1001]
         Samples.booted = Some c
       /\ AppComponent.Reachable c
       /\ Spec.ids (AppComponent.chatHistory (AppComponent.st c))
          = [1000; 1001; 1002; 1001; 1002]
       /\ ~ NoDup (Spec.ids (AppComponent.chatHistory (AppComponent.st c)))
       /\ ~ StronglySorted Z.lt
             (Spec.ids (AppComponent.chatHistory (AppComponent.st c))).
Proof.
  split; [intro i; lia|].
  eexists. split; [reflexivity|]. split.
  - exists Samples.stored3, (Some EmptyString), (fun _ => 1000),
      [AppComponent.EvSetInput "hi"; AppComponent.EvSend 1001 1001].
    reflexivity.
  - split; [reflexivity|].
    assert (Hdup : ~ NoDup [1000; 1001; 1002; 1001; 1002]).
    { intro H. inversion H as [|x l _ H1]. inversion H1 as [|y l' Hnot _].
      apply Hnot. simpl. tauto. }
    split; [exact Hdup|].
    intro Hs. apply Hdup. now apply IdFacts.sorted_NoDup.
Qed.

(** C8 (amended): when the clock does not go back while the persisted
    history is loaded, and every [sendMessage] that passes the guard reads
    a time later than every id in the conversation and then a time no
    earlier, the ids of every configuration the event loop reaches are
    strictly increasing in insertion order, hence unique. *)
Theorem ids_increase_with_timely_clock :
  forall (stored : option AppComponent.StorageItem) (input : option string)
         (clock : nat -> Z) (es : list AppComponent.Event)
         (c : AppComponent.Config),
    AppComponent.nondecreasing clock ->
    AppComponent.timelyRun es (AppComponent.boot stored input clock) ->
    AppComponent.run es (AppComponent.boot stored input clock) = Some c ->
    StronglySorted Z.lt (Spec.ids (AppComponent.chatHistory (AppComponent.st c)))
    /\ NoDup (Spec.ids (AppComponent.chatHistory (AppComponent.st c))).
Proof.
  intros stored input clock es c Hclock Htimely Hrun.
  assert (Hs : StronglySorted Z.lt
                 (Spec.ids (AppComponent.chatHistory (AppComponent.st c)))).
  { eapply IdFacts.run_sorted; eauto. now apply IdFacts.boot_sorted. }
  split; [exact Hs | now apply IdFacts.sorted_NoDup].
Qed.

(** C8 at the same load, with the message sent three milliseconds later. *)
Lemma ids_increase_with_timely_clock_witness :
  exists c,
    AppComponent.run
      [AppComponent.EvSetInput "hi"; AppComponent.EvSend 1003 1003]
      Samples.booted = Some c
    /\ Spec.ids (AppComponent.chatHistory (AppComponent.st c))
       = [1000; 1001; 1002; 1003; 1004]
    /\ StronglySorted Z.lt (Spec.ids (AppComponent.chatHistory (AppComponent.st c)))
    /\ NoDup (Spec.ids (AppComponent.chatHistory (AppComponent.st c))).
Proof.
  eexists. split; [reflexivity|]. split; [reflexivity|].
  apply (ids_increase_with_timely_clock Samples.stored3 (Some EmptyString)
           (fun _ => 1000)
           [AppComponent.EvSetInput "hi"; AppComponent.EvSend 1003 1003]).
  - intro i. lia.
  - simpl. split; [exact I|]. split; [|exact I].
    intros _. split; [|lia].
    intros m [Hm|[Hm|[Hm|[]]]]; subst m; simpl; lia.
  - reflexivity.
Defined.

(** C10 at a PDF upload, and at a message with an image and an audio
    attachment: the image is passed. *)
Lemma attachment_classification_and_priority_witness :
  (exists m,
     Spec.messageAt 0
       (AppComponent.chatHistory
          (AppComponent.st (AppComponent.beginSend 1000 1000 Samples.withPdf)))
     = Some m
     /\ ChatModel.role m = ChatModel.user
     /\ ChatModel.text m = "hello"
     /\ ChatModel.image m = None
     /\ ChatModel.video m = None
     /\ ChatModel.audio m = None)
  /\ AppComponent.callMedia (AppComponent.chatCall Samples.twoSlots Samples.idle)
     = Some [{| GeminiService.data := "iVBORw0=";
                GeminiService.partMimeType := "image/png" |}].
Proof.
  split.
  - exact (proj1 attachment_classification_and_priority 1000 1000
             Samples.withPdf Samples.pdf eq_refl eq_refl eq_refl eq_refl eq_refl).
  - exact (proj2 attachment_classification_and_priority
             Samples.twoSlots Samples.idle Samples.png eq_refl).
Defined.


(** ** Further facts *)

Module Sanity.
Import ChatModel.

Example trim_both_ends : JS.trim ("  a b " ++ String (ascii_of_nat 10) EmptyString) = "a b".
Proof. reflexivity. Qed.

Example trim_blank : JS.trim "   " = EmptyString.
Proof. reflexivity. Qed.

(** White space outside ASCII is trimmed too: a no-break space (U+00A0),
    an ideographic space (U+3000) and a byte-order mark (U+FEFF). *)
Example trim_no_break_space :
  JS.trim (Samples.nbsp ++ " a b" ++ Samples.nbsp) = "a b".
Proof. reflexivity. Qed.

Example trim_wide_spaces :
  JS.trim (Samples.ideographicSpace ++ "a" ++ Samples.byteOrderMark) = "a".
Proof. reflexivity. Qed.

(** The last byte of a letter is no white space: U+00E0, whose bytes are
    C3 A0, stays. *)
Example trim_keeps_letter :
  JS.trim (" voil" ++ Samples.aGrave ++ " ") = ("voil" ++ Samples.aGrave)%string.
Proof. reflexivity. Qed.

(** An input of no-break spaces only is refused by both revisions. *)
Example guard_no_break_space :
  AppComponent.guard
    (AppComponent.set_userInput (Samples.nbsp ++ Samples.nbsp) Samples.idle) = true
  /\ AppComponentRev2.guard
       (AppComponentRev2.set_userInput Samples.nbsp Samples.idle2) = true.
Proof. split; reflexivity. Qed.

Example strip_prefix : stripDataUrlPrefix "data:image/png;base64,iVBORw0=" = "iVBORw0=".
Proof. reflexivity. Qed.

Example strip_no_comma : stripDataUrlPrefix "iVBORw0=" = "iVBORw0=".
Proof. reflexivity. Qed.

(** [unshift] puts the media before the prompt, the last one first. *)
Example parts_order :
  GeminiService.buildParts
    {| GeminiService.prompt := "p"; GeminiService.modelName := "m";
       GeminiService.useThinking := false; GeminiService.useWebSearch := false;
       GeminiService.media :=
         Some [ {| GeminiService.data := "a"; GeminiService.partMimeType := "x" |};
                {| GeminiService.data := "b"; GeminiService.partMimeType := "y" |} ] |}
  = [GeminiService.InlineData "b" "y"; GeminiService.InlineData "a" "x";
     GeminiService.TextPart "p"].
Proof. reflexivity. Qed.

(** An empty locator counts as none. *)
Example empty_uri_is_falsy :
  AppComponent.truthyUri (Samples.finished (Some EmptyString)) = None.
Proof. reflexivity. Qed.

(** The first revision, chat mode, two fragments: the whole exchange. *)
Example chat_exchange :
  option_map (fun m => (text m, citations m, ChatModel.isLoading m))
    (nth_error
       (AppComponent.chatHistory
          (stateOf (AppComponent.sendMessage
                      (Samples.world Samples.disjoint false) Samples.idle))) 1)
  = Some ("ab", [Samples.c1; Samples.c2], Some false).
Proof. reflexivity. Qed.

(** The second revision at the handle sequence running, running, done:
    the video fetched from the locator (with the key appended) is
    attached; without a locator the fixed failure text is shown. *)
Example rev2_video_done :
  option_map (fun m => (video m, ChatModel.isLoading m))
    (nth_error
       (AppComponentRev2.chatHistory
          (stateOf (AppComponentRev2.sendMessage
                      (Samples.videoWorld2 (Some Samples.videoUri))
                      (Samples.idle2In ModeVideo)))) 1)
  = Some (Some {| dataUrl := "data:video"; mimeType := "video/mp4" |}, Some false).
Proof. reflexivity. Qed.

Example rev2_video_no_uri :
  option_map (fun m => (text m, ChatModel.isLoading m))
    (nth_error
       (AppComponentRev2.chatHistory
          (stateOf (AppComponentRev2.sendMessage
                      (Samples.videoWorld2 None) (Samples.idle2In ModeVideo)))) 1)
  = Some (AppComponentRev2.videoFailed, Some false).
Proof. reflexivity. Qed.

(** The global flag does not bound the requests in flight: the end of a
    transcription clears it, and a second [sendMessage] gets through
    while the first is suspended.  Each request has its own loading
    placeholder. *)
Example two_requests_in_flight :
  option_map
    (fun c => (AppComponent.requestIds (AppComponent.tasks c),
               AppComponent.loadingIds (AppComponent.chatHistory (AppComponent.st c))))
    (AppComponent.run Samples.overlappingSends
       (AppComponent.boot None (Some EmptyString) (fun _ => 0)))
  = Some ([1001; 2001], [1001; 2001]).
Proof. reflexivity. Qed.

End Sanity.

Module FirstRevisionFailures.
Import ChatModel AppComponent.

Lemma placeholder_position (h : list ChatMessage) (a b : ChatMessage) :
  nth_error ((h ++ [a]) ++ [b]) (S (List.length h)) = Some b.
Proof.
  replace (S (List.length h)) with (List.length (h ++ [a]))
    by (rewrite length_app; simpl; lia).
  apply nth_error_snoc.
Qed.

(** In the first revision the handlers catch their own failures: a failed
    image request leaves the apology of the image handler on the
    placeholder, settled, and the global flag cleared. *)
Lemma sendMessage_image_failure w s :
  guard s = false ->
  currentMode s = ModeImage ->
  generateImage w (JS.trim (userInput s)) (aspectRatioString (imageAspectRatio s)) = None ->
  exists s' m,
    sendMessage w s = Resolved s'
    /\ isLoading s' = false
    /\ Spec.messageAt (S (List.length (chatHistory s))) (chatHistory s') = Some m
    /\ text m = imageApology
    /\ ChatModel.isLoading m = Some false.
Proof.
  intros Hg Hmode Hfail.
  set (userMessage := makeUserMessage (nowUser w) (set_isLoading true s)).
  set (k := nowModel w + 1).
  set (p := placeholder k (placeholderText userMessage ModeImage)).
  exists (sendTail
            (settleWithText k imageApology
               (pushMessage p
                  (set_userInput EmptyString
                     (pushMessage userMessage (set_isLoading true s)))))),
    (with_isLoading (Some false) (with_text imageApology p)).
  split.
  - unfold sendMessage, dispatch. rewrite Hg. simpl. rewrite Hmode.
    unfold handleImageGeneration. simpl. now rewrite Hfail.
  - split; [reflexivity|]. split; [|split; reflexivity].
    unfold Spec.messageAt. rewrite ExchangeFacts.sendTail_history.
    unfold settleWithText, pushMessage, update_chatHistory.
    cbn [chatHistory set_chatHistory set_userInput set_isLoading].
    rewrite updateById_nth, placeholder_position. simpl.
    unfold k. now rewrite Z.eqb_refl.
Qed.

(** The same for a video job whose submission fails. *)
Lemma sendMessage_video_failure w s :
  guard s = false ->
  currentMode s = ModeVideo ->
  generateVideo w (JS.trim (userInput s))
    (videoImage (makeUserMessage (nowUser w) s) s) = None ->
  exists s' m,
    sendMessage w s = Resolved s'
    /\ isLoading s' = false
    /\ Spec.messageAt (S (List.length (chatHistory s))) (chatHistory s') = Some m
    /\ text m = videoApology
    /\ ChatModel.isLoading m = Some false.
Proof.
  intros Hg Hmode Hfail.
  set (userMessage := makeUserMessage (nowUser w) (set_isLoading true s)).
  set (k := nowModel w + 1).
  set (p := placeholder k videoStarting).
  exists (sendTail
            (settleWithText k videoApology
               (pushMessage p
                  (set_userInput EmptyString
                     (pushMessage userMessage (set_isLoading true s)))))),
    (with_isLoading (Some false) (with_text videoApology p)).
  split.
  - unfold sendMessage, dispatch. rewrite Hg. simpl. rewrite Hmode.
    unfold handleVideoGeneration. simpl.
    change (videoImage (makeUserMessage (nowUser w) (set_isLoading true s)) _)
      with (videoImage (makeUserMessage (nowUser w) s) s).
    now rewrite Hfail.
  - split; [reflexivity|]. split; [|split; reflexivity].
    unfold Spec.messageAt. rewrite ExchangeFacts.sendTail_history.
    unfold settleWithText, pushMessage, update_chatHistory.
    cbn [chatHistory set_chatHistory set_userInput set_isLoading].
    rewrite updateById_nth, placeholder_position. simpl.
    unfold k. now rewrite Z.eqb_refl.
Qed.

End FirstRevisionFailures.

Module SecondRevisionGuard.
Import AppComponentRev2.

(** The guard of the second revision is the same. *)
Lemma sendMessage_guarded w s :
  (JS.trim (userInput s) = EmptyString /\ uploadedFile s = None)
  \/ isLoading s = true ->
  sendMessage w s = Resolved s.
Proof.
  intro H. unfold sendMessage.
  replace (guard s) with true; [reflexivity|].
  unfold guard. destruct H as [[Ht Hf] | Hl].
  - now rewrite Ht, Hf.
  - rewrite Hl. now rewrite orb_true_r.
Qed.

End SecondRevisionGuard.

(** ** Data URLs and request parts *)

Module DataUrlFacts.

Lemma indexOf_comma_free (s : string) :
  Observe.commaFree s = true -> JS.indexOf "," s = -1.
Proof.
  induction s as [|c r IH]; simpl; [reflexivity|].
  rewrite andb_true_iff, negb_true_iff. intros [Hc Hr].
  rewrite Hc, (IH Hr). reflexivity.
Qed.

Lemma indexOf_after_header (header payload : string) :
  Observe.commaFree header = true ->
  JS.indexOf "," (header ++ String "," payload)%string
  = Z.of_nat (String.length header).
Proof.
  induction header as [|c r IH]; simpl; [reflexivity|].
  rewrite andb_true_iff, negb_true_iff. intros [Hc Hr].
  rewrite Hc, (IH Hr).
  destruct (Z.of_nat (String.length r) <? 0) eqn:E.
  - apply Z.ltb_lt in E. lia.
  - lia.
Qed.

Lemma drop_header (header payload : string) (c : ascii) :
  JS.drop (S (String.length header)) (header ++ String c payload)%string = payload.
Proof.
  induction header as [|d r IH]; simpl; [reflexivity|]. exact IH.
Qed.

Lemma strip_after_header (header payload : string) :
  Observe.commaFree header = true ->
  stripDataUrlPrefix (header ++ String "," payload)%string = payload.
Proof.
  intro H. unfold stripDataUrlPrefix, JS.substring.
  rewrite (indexOf_after_header header payload H).
  replace (Z.to_nat (Z.of_nat (String.length header) + 1))
    with (S (String.length header)) by lia.
  apply drop_header.
Qed.

Lemma strip_comma_free (s : string) :
  Observe.commaFree s = true -> stripDataUrlPrefix s = s.
Proof.
  intro H. unfold stripDataUrlPrefix, JS.substring.
  now rewrite (indexOf_comma_free s H).
Qed.

Lemma fold_unshift (ms : list GeminiService.MediaPart) (acc : list GeminiService.Part) :
  fold_left
    (fun parts m =>
       GeminiService.InlineData (GeminiService.data m) (GeminiService.partMimeType m)
         :: parts) ms acc
  = rev (map Observe.inlinePart ms) ++ acc.
Proof.
  revert acc. induction ms as [|m rest IH]; intro acc; simpl; [reflexivity|].
  rewrite IH, <- app_assoc. reflexivity.
Qed.

End DataUrlFacts.

(** X1: [stripDataUrlPrefix] returns what follows the first comma: for a
    data URL whose header holds no comma that is the whole payload, commas
    of the payload included; a string without any comma comes back
    unchanged. *)
Theorem stripDataUrlPrefix_payload :
  forall header payload : string,
    Observe.commaFree header = true ->
    stripDataUrlPrefix (header ++ String "," payload)%string = payload
    /\ stripDataUrlPrefix header = header.
Proof.
  intros header payload H. split.
  - now apply DataUrlFacts.strip_after_header.
  - now apply DataUrlFacts.strip_comma_free.
Qed.

Lemma stripDataUrlPrefix_payload_witness :
  stripDataUrlPrefix ("data:image/png;base64" ++ String "," "iVB,ORw0=")%string
  = "iVB,ORw0="
  /\ stripDataUrlPrefix "data:image/png;base64" = "data:image/png;base64".
Proof.
  exact (stripDataUrlPrefix_payload "data:image/png;base64" "iVB,ORw0=" eq_refl).
Defined.

(** X2: the parts of a request end with the prompt, and the media items
    come before it in the reverse of the order in which they were given
    (each is put in front by [unshift]). *)
Theorem buildParts_prompt_last :
  forall a : GeminiService.StreamArgs,
    GeminiService.buildParts a
    = rev (map Observe.inlinePart (Observe.mediaOf a))
        ++ [GeminiService.TextPart (GeminiService.prompt a)].
Proof.
  intro a. unfold GeminiService.buildParts, Observe.mediaOf.
  destruct (GeminiService.media a) as [ms|]; [|reflexivity].
  apply DataUrlFacts.fold_unshift.
Qed.

(** X3: in video mode the start image sent with the job is the pending
    upload exactly when its mime type starts with [image/]; an upload of
    another kind, or none, sends no image.  The second look at the
    pending upload in [handleVideoGeneration] never adds anything. *)
Theorem videoImage_is_image_upload :
  forall (now : Z) (s s' : AppComponent.State),
    AppComponent.uploadedFile s' = AppComponent.uploadedFile s ->
    AppComponent.videoImage (AppComponent.makeUserMessage now s) s'
    = option_map toMediaPart (slotFor "image/" (AppComponent.uploadedFile s)).
Proof.
  intros now s s' H. unfold AppComponent.videoImage. simpl. rewrite H.
  destruct (slotFor "image/" (AppComponent.uploadedFile s)); reflexivity.
Qed.

Lemma videoImage_is_image_upload_witness :
  AppComponent.videoImage
    (AppComponent.makeUserMessage 1000 MoreSamples.withPng)
    (AppComponent.set_userInput EmptyString MoreSamples.withPng)
  = Some {| GeminiService.data := "iVBORw0=";
            GeminiService.partMimeType := "image/png" |}.
Proof.
  exact (videoImage_is_image_upload 1000 MoreSamples.withPng
           (AppComponent.set_userInput EmptyString MoreSamples.withPng) eq_refl).
Defined.

(** ** What a dispatch of the first revision leaves behind *)

Module FirstRevisionFlow.
Import ChatModel AppComponent.

Ltac at_placeholder :=
  unfold Spec.messageAt;
  repeat progress (simpl; rewrite ?updateById_nth, ?nth_error_snoc, ?Z.eqb_refl);
  try reflexivity.




End FirstRevisionFlow.

Module SendOutcome.
Import ChatModel AppComponent.



End SendOutcome.



(** X5: [handleImageGeneration] of the first revision always resolves
    with its placeholder settled.  When the provider delivers image bytes
    the placeholder has an empty text and a PNG attachment from whose data
    URL [stripDataUrlPrefix] gives the same bytes back; when the request
    fails it has the fixed apology and no image. *)
Theorem handleImageGeneration_attaches_or_apologises :
  forall (w : AppComponent.World) (userMessage : ChatModel.ChatMessage)
         (s : AppComponent.State),
    exists s' m,
      AppComponent.handleImageGeneration w userMessage s = Resolved s'
      /\ Spec.messageAt (List.length (AppComponent.chatHistory s))
           (AppComponent.chatHistory s') = Some m
      /\ ChatModel.isLoading m = Some false
      /\ match AppComponent.generateImage w (ChatModel.text userMessage)
                 (aspectRatioString (AppComponent.imageAspectRatio s)) with
         | Some imageBytes =>
             ChatModel.text m = EmptyString
             /\ exists a,
                  ChatModel.image m = Some a
                  /\ ChatModel.mimeType a = "image/png"
                  /\ stripDataUrlPrefix (ChatModel.dataUrl a) = imageBytes
         | None =>
             ChatModel.text m = AppComponent.imageApology
             /\ ChatModel.image m = None
         end.
Proof.
  intros w userMessage s. unfold AppComponent.handleImageGeneration.
  change (AppComponent.imageAspectRatio
            (AppComponent.pushMessage
               (AppComponent.placeholder (AppComponent.nowModel w + 1)
                  (AppComponent.imagePending userMessage)) s))
    with (AppComponent.imageAspectRatio s).
  destruct (AppComponent.generateImage w (ChatModel.text userMessage)
              (aspectRatioString (AppComponent.imageAspectRatio s)))
    as [imageBytes|].
  - eexists. eexists. split; [reflexivity|].
    split; [FirstRevisionFlow.at_placeholder|].
    split; [reflexivity|]. split; [reflexivity|].
    eexists. split; [reflexivity|]. split; [reflexivity|].
    apply (DataUrlFacts.strip_after_header "data:image/png;base64" imageBytes).
    reflexivity.
  - eexists. eexists. split; [reflexivity|].
    split; [FirstRevisionFlow.at_placeholder|].
    repeat split.
Qed.

(** ** The second revision, mode by mode *)

Module SecondRevisionFlow.
Import ChatModel AppComponentRev2.

(** The state in which the handler is entered. *)
Lemma prepare_entered w s :
  exists s4,
    prepare w s = (makeUserMessage (nowUser w) s, nowModel w + 1, s4)
    /\ chatHistory s4
       = chatHistory s ++ [makeUserMessage (nowUser w) s; placeholder (nowModel w + 1)]
    /\ currentMode s4 = currentMode s
    /\ chatModel s4 = chatModel s
    /\ useWebSearch s4 = useWebSearch s
    /\ imageAspectRatio s4 = imageAspectRatio s
    /\ isLoading s4 = true.
Proof.
  unfold prepare, removeUploadedFile. simpl.
  destruct (fileInputValue s); eexists; (split; [reflexivity|]); simpl;
    rewrite <- app_assoc; repeat split.
Qed.

Lemma entered_placeholder (h : list ChatMessage) (a b : ChatMessage) :
  nth_error (h ++ [a; b]) (S (List.length h)) = Some b.
Proof.
  change (h ++ [a; b]) with (h ++ [a] ++ [b]). rewrite app_assoc.
  apply FirstRevisionFailures.placeholder_position.
Qed.

Lemma chatArgs_entered userMessage s s4 :
  chatModel s4 = chatModel s -> useWebSearch s4 = useWebSearch s ->
  chatArgs userMessage s4 = chatArgs userMessage s.
Proof. intros H1 H2. unfold chatArgs. now rewrite H1, H2. Qed.

(** Polls that find the job running are written to the placeholder and
    passed over. *)
Lemma pollLoop_passes_running k operation pending final rest s :
  GeminiService.done operation = false ->
  Forall (fun h => GeminiService.done h = false) pending ->
  GeminiService.done final = true ->
  exists s',
    pollLoop k operation (map Some pending ++ Some final :: rest) s
    = (PollDone final, s')
    /\ Spec.keys (chatHistory s') = Spec.keys (chatHistory s)
    /\ isLoading s' = isLoading s.
Proof.
  intros Hop Hpending Hfinal. revert operation s Hop.
  induction Hpending as [|h pending Hh _ IH]; intros operation s Hop; simpl.
  - rewrite Hop. destruct rest; simpl; rewrite Hfinal; eexists;
      (split; [reflexivity|]); split; try reflexivity;
      now apply updateById_keys.
  - rewrite Hop. destruct (IH h (writeText k (videoProgress h) s) Hh)
      as (s' & -> & Hkeys & Hload).
    exists s'. split; [reflexivity|]. split; [|exact Hload].
    rewrite Hkeys. now apply updateById_keys.
Qed.

End SecondRevisionFlow.

(** ** The guard of [sendMessage], second revision *)

Module SecondRevisionSend.
Import AppComponentRev2.

Lemma guard_cases_rev2 s :
  guard s = true <->
  (JS.trim (userInput s) = EmptyString /\ uploadedFile s = None)
  \/ isLoading s = true.
Proof.
  unfold guard.
  rewrite orb_true_iff, andb_true_iff, negb_true_iff, SendFacts.truthy_false.
  destruct (uploadedFile s); intuition congruence.
Qed.

(** A call that passes the guard leaves a history longer by two. *)
Lemma sendMessage_grows w s :
  guard s = false ->
  List.length (chatHistory (stateOf (sendMessage w s)))
  = S (S (List.length (chatHistory s))).
Proof.
  intro Hg. unfold sendMessage. rewrite Hg.
  destruct (SecondRevisionFlow.prepare_entered w s) as (s4 & -> & Hhist & _).
  cbv iota beta.
  pose proof (DispatchFacts.dispatch_keys w
                (makeUserMessage (nowUser w) s) (nowModel w + 1) s4) as Hkeys.
  apply (f_equal (@List.length _)) in Hkeys.
  unfold Spec.keys in Hkeys. rewrite !length_map in Hkeys.
  rewrite Hhist, length_app in Hkeys. simpl in Hkeys.
  destruct (dispatch w (makeUserMessage (nowUser w) s) (nowModel w + 1) s4)
    as [s5|s5|s5]; simpl in Hkeys |- *; rewrite ?updateById_length; lia.
Qed.

End SecondRevisionSend.

(** C5: [sendMessage] is a no-op in exactly two cases: the trimmed input
    is empty with no pending upload, or a request is already in flight.
    In these cases the call resolves with the very same state; in every
    other case the history changes (it grows by two messages).  This
    holds of both revisions of the method. *)
Theorem sendMessage_noop_iff_guarded :
  (forall (w : AppComponent.World) (s : AppComponent.State),
      let guarded :=
        (JS.trim (AppComponent.userInput s) = EmptyString
         /\ AppComponent.uploadedFile s = None)
        \/ AppComponent.isLoading s = true in
      (guarded <-> AppComponent.sendMessage w s = Resolved s)
      /\ (guarded <->
          AppComponent.chatHistory (stateOf (AppComponent.sendMessage w s)) =
          AppComponent.chatHistory s))
  /\ (forall (w : AppComponentRev2.World) (s : AppComponentRev2.State),
        let guarded :=
          (JS.trim (AppComponentRev2.userInput s) = EmptyString
           /\ AppComponentRev2.uploadedFile s = None)
          \/ AppComponentRev2.isLoading s = true in
        (guarded <-> AppComponentRev2.sendMessage w s = Resolved s)
        /\ (guarded <->
            AppComponentRev2.chatHistory
              (stateOf (AppComponentRev2.sendMessage w s)) =
            AppComponentRev2.chatHistory s)).
Proof.
  split.
  - intros w s guarded.
    assert (Hno : guarded -> AppComponent.sendMessage w s = Resolved s).
    { intro H. apply SendFacts.guard_cases in H.
      unfold AppComponent.sendMessage. now rewrite H. }
    assert (Hyes : AppComponent.chatHistory (stateOf (AppComponent.sendMessage w s)) =
                   AppComponent.chatHistory s -> guarded).
    { intro H. apply SendFacts.guard_cases.
      destruct (AppComponent.guard s) eqn:Hg; [reflexivity|].
      apply (f_equal (@List.length _)) in H.
      rewrite SendFacts.sendMessage_length in H by assumption. lia. }
    split; split; intro H.
    + now apply Hno.
    + apply Hyes. now rewrite H.
    + now rewrite (Hno H).
    + now apply Hyes.
  - intros w s guarded.
    assert (Hno : guarded -> AppComponentRev2.sendMessage w s = Resolved s).
    { intro H. apply SecondRevisionSend.guard_cases_rev2 in H.
      unfold AppComponentRev2.sendMessage. now rewrite H. }
    assert (Hyes : AppComponentRev2.chatHistory
                     (stateOf (AppComponentRev2.sendMessage w s)) =
                   AppComponentRev2.chatHistory s -> guarded).
    { intro H. apply SecondRevisionSend.guard_cases_rev2.
      destruct (AppComponentRev2.guard s) eqn:Hg; [reflexivity|].
      apply (f_equal (@List.length _)) in H.
      rewrite SecondRevisionSend.sendMessage_grows in H by assumption. lia. }
    split; split; intro H.
    + now apply Hno.
    + apply Hyes. now rewrite H.
    + now rewrite (Hno H).
    + now apply Hyes.
Qed.


(** X6: in image mode a [sendMessage] of the second revision that passes
    the guard resolves with the global flag false and the placeholder
    settled: with the caption and the PNG attachment when the provider
    delivers bytes, with the generic failure text and no image when the
    request throws. *)
Theorem sendMessage_image_mode :
  forall (w : AppComponentRev2.World) (s : AppComponentRev2.State),
    AppComponentRev2.guard s = false ->
    AppComponentRev2.currentMode s = ModeImage ->
    let prompt := JS.trim (AppComponentRev2.userInput s) in
    exists s' m,
      AppComponentRev2.sendMessage w s = Resolved s'
      /\ AppComponentRev2.isLoading s' = false
      /\ Spec.messageAt (S (List.length (AppComponentRev2.chatHistory s)))
           (AppComponentRev2.chatHistory s') = Some m
      /\ ChatModel.isLoading m = Some false
      /\ match AppComponentRev2.generateImage w prompt
                 (aspectRatioString (AppComponentRev2.imageAspectRatio s)) with
         | Some base64Image =>
             ChatModel.text m
             = ("Here is the generated image for: " ++ JS.quote ++ prompt
                  ++ JS.quote)%string
             /\ ChatModel.image m
                = Some {| ChatModel.dataUrl :=
                            ("data:image/png;base64," ++ base64Image)%string;
                          ChatModel.mimeType := "image/png" |}
         | None =>
             ChatModel.text m = AppComponentRev2.genericFailure
             /\ ChatModel.image m = None
         end.
Proof.
  intros w s Hg Hmode prompt.
  unfold AppComponentRev2.sendMessage. rewrite Hg.
  destruct (SecondRevisionFlow.prepare_entered w s)
    as (s4 & -> & Hhist & Hmode4 & _ & _ & Hratio & _).
  cbv iota beta. unfold AppComponentRev2.dispatch. rewrite Hmode4, Hmode.
  unfold AppComponentRev2.handleImageGeneration. rewrite Hratio.
  change (ChatModel.text (AppComponentRev2.makeUserMessage
                            (AppComponentRev2.nowUser w) s)) with prompt.
  destruct (AppComponentRev2.generateImage w prompt
              (aspectRatioString (AppComponentRev2.imageAspectRatio s)))
    as [base64Image|].
  - eexists. eexists. split; [reflexivity|]. split; [reflexivity|].
    split.
    + unfold Spec.messageAt.
      cbn [AppComponentRev2.chatHistory AppComponentRev2.set_isLoading
           AppComponentRev2.update_chatHistory AppComponentRev2.set_chatHistory].
      rewrite updateById_nth, Hhist, SecondRevisionFlow.entered_placeholder.
      simpl. rewrite Z.eqb_refl. reflexivity.
    + repeat split.
  - eexists. eexists. split; [reflexivity|]. split; [reflexivity|].
    split.
    + unfold Spec.messageAt.
      cbn [AppComponentRev2.chatHistory AppComponentRev2.set_isLoading
           AppComponentRev2.settleWithText
           AppComponentRev2.update_chatHistory AppComponentRev2.set_chatHistory].
      rewrite updateById_nth, Hhist, SecondRevisionFlow.entered_placeholder.
      simpl. rewrite Z.eqb_refl. reflexivity.
    + repeat split.
Qed.

Lemma sendMessage_image_mode_witness :
  exists s' m,
    AppComponentRev2.sendMessage MoreSamples.imageWorld2 (Samples.idle2In ModeImage)
    = Resolved s'
    /\ Spec.messageAt 1 (AppComponentRev2.chatHistory s') = Some m
    /\ ChatModel.image m
       = Some {| ChatModel.dataUrl := "data:image/png;base64,iVBORw0=";
                 ChatModel.mimeType := "image/png" |}.
Proof.
  destruct (sendMessage_image_mode MoreSamples.imageWorld2
              (Samples.idle2In ModeImage) eq_refl eq_refl)
    as (s' & m & Hsend & _ & Hat & _ & Hcase).
  exists s', m. split; [exact Hsend|]. split; [exact Hat|].
  exact (proj2 Hcase).
Defined.

(** X7: in chat mode a [sendMessage] of the second revision that passes
    the guard resolves with the global flag false; the placeholder then
    holds the ordered concatenation of the fragments' texts and the
    citation list of the last fragment that carried one (earlier lists
    are replaced, not merged), and it is settled. *)
Theorem sendMessage_chat_mode :
  forall (w : AppComponentRev2.World) (s : AppComponentRev2.State),
    AppComponentRev2.guard s = false ->
    AppComponentRev2.currentMode s = ModeChat ->
    let stream :=
      GeminiService.generateContentStream (AppComponentRev2.remote w)
        (AppComponentRev2.chatArgs
           (AppComponentRev2.makeUserMessage (AppComponentRev2.nowUser w) s) s) in
    exists s' m,
      AppComponentRev2.sendMessage w s = Resolved s'
      /\ AppComponentRev2.isLoading s' = false
      /\ Spec.messageAt (S (List.length (AppComponentRev2.chatHistory s)))
           (AppComponentRev2.chatHistory s') = Some m
      /\ ChatModel.text m = Spec.concatTexts stream
      /\ ChatModel.groundingChunks m = Spec.lastSupplied stream None
      /\ ChatModel.isLoading m = Some false.
Proof.
  intros w s Hg Hmode stream.
  unfold AppComponentRev2.sendMessage. rewrite Hg.
  destruct (SecondRevisionFlow.prepare_entered w s)
    as (s4 & -> & Hhist & Hmode4 & Hmodel & Hsearch & _ & _).
  cbv iota beta. unfold AppComponentRev2.dispatch. rewrite Hmode4, Hmode.
  set (userMessage := AppComponentRev2.makeUserMessage (AppComponentRev2.nowUser w) s).
  set (k := AppComponentRev2.nowModel w + 1).
  assert (Hn : nth_error (AppComponentRev2.chatHistory s4)
                 (S (List.length (AppComponentRev2.chatHistory s)))
               = Some (AppComponentRev2.placeholder k)).
  { rewrite Hhist. apply SecondRevisionFlow.entered_placeholder. }
  destruct (StreamFactsRev2.handleChat_message w userMessage k s4 _ _ Hn eq_refl)
    as (m & Hat & Htext & Hground & Hload).
  rewrite (SecondRevisionFlow.chatArgs_entered userMessage s s4 Hmodel Hsearch)
    in Htext, Hground.
  fold stream in Htext, Hground.
  eexists. exists m. split; [reflexivity|]. split; [reflexivity|].
  split; [exact Hat|]. repeat split; assumption.
Qed.

Lemma sendMessage_chat_mode_witness :
  exists s' m,
    AppComponentRev2.sendMessage (Samples.world2 Samples.disjoint false) Samples.idle2
    = Resolved s'
    /\ Spec.messageAt 1 (AppComponentRev2.chatHistory s') = Some m
    /\ ChatModel.text m = "ab"
    /\ ChatModel.groundingChunks m = Some [Samples.c2].
Proof.
  destruct (sendMessage_chat_mode (Samples.world2 Samples.disjoint false)
              Samples.idle2 eq_refl eq_refl)
    as (s' & m & Hsend & _ & Hat & Htext & Hground & _).
  exists s', m. repeat split; assumption.
Defined.

(** X8: in video mode of the second revision, when the job is submitted
    and found running, any number of polls find it running and the next
    finds it done, [sendMessage] resolves with the global flag false and
    the placeholder settled.  With a locator [U] the video is fetched from
    [U] followed by [&key=] and the API key; the placeholder then has the
    fetched video and the caption, or, when that fetch throws, the generic
    failure text.  Without a locator it has the fixed failure text. *)
Theorem sendMessage_video_mode :
  forall (w : AppComponentRev2.World) (s : AppComponentRev2.State)
         (submitted final : GeminiService.Operation)
         (pending : list GeminiService.Operation)
         (rest : list (option GeminiService.Operation)),
    AppComponentRev2.guard s = false ->
    AppComponentRev2.currentMode s = ModeVideo ->
    AppComponentRev2.generateVideo w (JS.trim (AppComponentRev2.userInput s))
      (option_map toMediaPart (slotFor "image/" (AppComponentRev2.uploadedFile s)))
    = Some submitted ->
    GeminiService.done submitted = false ->
    Forall (fun h => GeminiService.done h = false) pending ->
    GeminiService.done final = true ->
    AppComponentRev2.getVideosOperation w = map Some pending ++ Some final :: rest ->
    exists s' m,
      AppComponentRev2.sendMessage w s = Resolved s'
      /\ AppComponentRev2.isLoading s' = false
      /\ Spec.messageAt (S (List.length (AppComponentRev2.chatHistory s)))
           (AppComponentRev2.chatHistory s') = Some m
      /\ ChatModel.isLoading m = Some false
      /\ match AppComponentRev2.truthyUri final with
         | Some U =>
             match AppComponentRev2.fetchAsDataUrl w
                     (U ++ "&key=" ++ AppComponentRev2.apiKey w)%string with
             | Some d =>
                 ChatModel.video m
                 = Some {| ChatModel.dataUrl := d; ChatModel.mimeType := "video/mp4" |}
                 /\ ChatModel.text m
                    = ("Here is the generated video for: " ++ JS.quote
                         ++ JS.trim (AppComponentRev2.userInput s) ++ JS.quote)%string
             | None => ChatModel.text m = AppComponentRev2.genericFailure
             end
         | None => ChatModel.text m = AppComponentRev2.videoFailed
         end.
Proof.
  intros w s submitted final pending rest
         Hg Hmode Hsubmit Hrunning Hpending Hdone Hanswers.
  unfold AppComponentRev2.sendMessage. rewrite Hg.
  destruct (SecondRevisionFlow.prepare_entered w s)
    as (s4 & -> & Hhist & Hmode4 & _ & _ & _ & _).
  cbv iota beta. unfold AppComponentRev2.dispatch. rewrite Hmode4, Hmode.
  set (userMessage := AppComponentRev2.makeUserMessage (AppComponentRev2.nowUser w) s).
  set (k := AppComponentRev2.nowModel w + 1).
  unfold AppComponentRev2.handleVideoGeneration.
  assert (Himage :
            match ChatModel.image userMessage with
            | Some a => Some (toMediaPart a)
            | None => None
            end
            = option_map toMediaPart
                (slotFor "image/" (AppComponentRev2.uploadedFile s))).
  { simpl. now destruct (slotFor "image/" (AppComponentRev2.uploadedFile s)). }
  rewrite Himage.
  change (ChatModel.text userMessage) with (JS.trim (AppComponentRev2.userInput s)).
  rewrite Hsubmit, Hanswers.
  destruct (SecondRevisionFlow.pollLoop_passes_running k submitted pending final rest
              (AppComponentRev2.writeText k AppComponentRev2.videoStarted s4)
              Hrunning Hpending Hdone)
    as (s2 & -> & Hkeys & _).
  assert (Hn : exists m', nth_error (AppComponentRev2.chatHistory s2)
                           (S (List.length (AppComponentRev2.chatHistory s)))
                         = Some m'
                         /\ ChatModel.id m' = k).
  { destruct (DispatchFacts.keys_nth
                (AppComponentRev2.chatHistory s4) (AppComponentRev2.chatHistory s2)
                (S (List.length (AppComponentRev2.chatHistory s)))
                (AppComponentRev2.placeholder k)) as (m' & Hm' & Hid & _).
    - rewrite Hkeys. simpl. now apply updateById_keys.
    - rewrite Hhist. apply SecondRevisionFlow.entered_placeholder.
    - exists m'. now split. }
  destruct Hn as (m' & Hm' & Hid).
  destruct (AppComponentRev2.truthyUri final) as [U|].
  - destruct (AppComponentRev2.fetchAsDataUrl w
                (U ++ "&key=" ++ AppComponentRev2.apiKey w)%string) as [d|].
    + eexists. eexists. split; [reflexivity|]. split; [reflexivity|]. split.
      * unfold Spec.messageAt.
        cbn [AppComponentRev2.chatHistory AppComponentRev2.set_isLoading
             AppComponentRev2.update_chatHistory AppComponentRev2.set_chatHistory].
        rewrite updateById_nth, Hm'. simpl. rewrite Hid, Z.eqb_refl. reflexivity.
      * repeat split.
    + eexists. eexists. split; [reflexivity|]. split; [reflexivity|]. split.
      * unfold Spec.messageAt.
        cbn [AppComponentRev2.chatHistory AppComponentRev2.set_isLoading
             AppComponentRev2.settleWithText
             AppComponentRev2.update_chatHistory AppComponentRev2.set_chatHistory].
        rewrite updateById_nth, Hm'. simpl. rewrite Hid, Z.eqb_refl. reflexivity.
      * repeat split.
  - eexists. eexists. split; [reflexivity|]. split; [reflexivity|]. split.
    + unfold Spec.messageAt.
      cbn [AppComponentRev2.chatHistory AppComponentRev2.set_isLoading
           AppComponentRev2.settleWithText
           AppComponentRev2.update_chatHistory AppComponentRev2.set_chatHistory].
      rewrite updateById_nth, Hm'. simpl. rewrite Hid, Z.eqb_refl. reflexivity.
    + repeat split.
Qed.

Lemma sendMessage_video_mode_witness :
  exists s' m,
    AppComponentRev2.sendMessage (Samples.videoWorld2 (Some Samples.videoUri))
      (Samples.idle2In ModeVideo) = Resolved s'
    /\ Spec.messageAt 1 (AppComponentRev2.chatHistory s') = Some m
    /\ ChatModel.video m
       = Some {| ChatModel.dataUrl := "data:video"; ChatModel.mimeType := "video/mp4" |}.
Proof.
  assert (Hp : Forall (fun h => GeminiService.done h = false)
                 [Samples.running; Samples.running])
    by (repeat constructor).
  destruct (sendMessage_video_mode (Samples.videoWorld2 (Some Samples.videoUri))
              (Samples.idle2In ModeVideo)
              Samples.running (Samples.finished (Some Samples.videoUri))
              [Samples.running; Samples.running] []
              eq_refl eq_refl eq_refl eq_refl Hp eq_refl eq_refl)
    as (s' & m & Hsend & _ & Hat & _ & Hcase).
  exists s', m. split; [exact Hsend|]. split; [exact Hat|].
  exact (proj1 Hcase).
Defined.

(** X9: whatever the mode and whatever the provider answers, a
    [sendMessage] of the second revision that passes the guard adds
    exactly two messages at the end of the history, the user message with
    the first clock reading as id and the model message with the second
    reading plus one, and leaves the id and the role of every earlier
    message as they were. *)
Theorem sendMessage_appends_two :
  forall (w : AppComponentRev2.World) (s : AppComponentRev2.State),
    AppComponentRev2.guard s = false ->
    Spec.keys (AppComponentRev2.chatHistory (stateOf (AppComponentRev2.sendMessage w s)))
    = Spec.keys (AppComponentRev2.chatHistory s)
        ++ [(AppComponentRev2.nowUser w, ChatModel.user);
            (AppComponentRev2.nowModel w + 1, ChatModel.model)].
Proof.
  intros w s Hg.
  unfold AppComponentRev2.sendMessage. rewrite Hg.
  destruct (SecondRevisionFlow.prepare_entered w s)
    as (s4 & -> & Hhist & _).
  cbv iota beta.
  pose proof (DispatchFacts.dispatch_keys w
                (AppComponentRev2.makeUserMessage (AppComponentRev2.nowUser w) s)
                (AppComponentRev2.nowModel w + 1) s4) as Hkeys.
  assert (H4 : Spec.keys (AppComponentRev2.chatHistory s4)
               = Spec.keys (AppComponentRev2.chatHistory s)
                   ++ [(AppComponentRev2.nowUser w, ChatModel.user);
                       (AppComponentRev2.nowModel w + 1, ChatModel.model)]).
  { rewrite Hhist. unfold Spec.keys. now rewrite map_app. }
  destruct (AppComponentRev2.dispatch w
              (AppComponentRev2.makeUserMessage (AppComponentRev2.nowUser w) s)
              (AppComponentRev2.nowModel w + 1) s4) as [s5|s5|s5];
    simpl in Hkeys |- *; rewrite <- H4, <- Hkeys; try reflexivity.
  now apply updateById_keys.
Qed.

Lemma sendMessage_appends_two_witness :
  Spec.keys
    (AppComponentRev2.chatHistory
       (stateOf (AppComponentRev2.sendMessage (Samples.world2 [] true) Samples.idle2)))
  = [(1000, ChatModel.user); (1001, ChatModel.model)].
Proof.
  exact (sendMessage_appends_two (Samples.world2 [] true) Samples.idle2 eq_refl).
Defined.

(** ** Audio playback, recording and transcription on the event loop *)

Module AudioFacts.
Import ChatModel AppComponent.

Lemma setPlaying_twice k b1 b2 s :
  setPlaying k b2 (setPlaying k b1 s) = setPlaying k b2 s.
Proof.
  unfold setPlaying, update_chatHistory, set_chatHistory; simpl.
  f_equal. now apply updateById_fuse.
Qed.

Lemma setPlaying_content k b s :
  map Observe.content (chatHistory (setPlaying k b s))
  = map Observe.content (chatHistory s).
Proof.
  simpl. unfold updateById. rewrite map_map. apply map_ext.
  intro m. now destruct (id m =? k).
Qed.

Lemma setPlaying_flag k b s m :
  In m (chatHistory (setPlaying k b s)) -> id m = k ->
  isPlayingAudio m = Some b.
Proof.
  simpl. unfold updateById. rewrite in_map_iff.
  intros (m0 & <- & _) Hid. destruct (id m0 =? k) eqn:E; [reflexivity|].
  apply Z.eqb_neq in E. contradiction.
Qed.

(** The transcription loop: the fragments are accumulated in the local
    variable, and the end of the stream writes the trimmed text. *)
Lemma run_transcription ts stream fullResponse s :
  run (map (EvChunk (List.length ts)) stream ++ [EvStreamEnd (List.length ts)])
    {| st := s; tasks := ts ++ [TranscribeTask fullResponse] |}
  = Some {| st := set_isLoading false
                    (set_userInput
                       (JS.trim (fullResponse ++ Spec.concatTexts stream)%string) s);
            tasks := ts |}.
Proof.
  revert fullResponse.
  induction stream as [|chunk rest IH]; intro fullResponse.
  - cbn [map app run fire st tasks]. rewrite nth_error_snoc.
    cbn [run]. now rewrite ExchangeFacts.removeTask_snoc, append_empty_r.
  - cbn [map app run fire st tasks].
    rewrite nth_error_snoc, ExchangeFacts.replaceTask_snoc.
    rewrite IH. unfold nextText. simpl.
    now rewrite append_assoc.
Qed.

End AudioFacts.

(** X10: [playAudio] on a message that is already playing changes
    nothing and starts nothing.  On a message that is not playing, once
    the speech request has failed, or the playback has ended, the state is
    the one before except that every message with that id is marked not
    playing: no text, attachment, citation or loading flag is touched, and
    no continuation is left behind. *)
Theorem playAudio_marks_and_unmarks :
  forall (c : AppComponent.Config) (position : nat) (message : ChatModel.ChatMessage)
         (errorName : string),
    nth_error (AppComponent.chatHistory (AppComponent.st c)) position = Some message ->
    let i := List.length (AppComponent.tasks c) in
    let after :=
      {| AppComponent.st :=
           AppComponent.setPlaying (ChatModel.id message) false (AppComponent.st c);
         AppComponent.tasks := AppComponent.tasks c |} in
    (ChatModel.playing message = true ->
       AppComponent.fire (AppComponent.EvPlayAudio position) c = Some c)
    /\ (ChatModel.playing message = false ->
        AppComponent.run
          [AppComponent.EvPlayAudio position; AppComponent.EvThrow i errorName] c
        = Some after
        /\ AppComponent.run
             [AppComponent.EvPlayAudio position; AppComponent.EvSpeech i;
              AppComponent.EvPlaybackEnded i] c
           = Some after)
    /\ map Observe.content (AppComponent.chatHistory (AppComponent.st after))
       = map Observe.content (AppComponent.chatHistory (AppComponent.st c))
    /\ forall m, In m (AppComponent.chatHistory (AppComponent.st after)) ->
                 ChatModel.id m = ChatModel.id message ->
                 ChatModel.isPlayingAudio m = Some false.
Proof.
  intros c position message errorName Hn i after.
  split; [|split; [|split]].
  - intro Hp. cbn [AppComponent.fire]. now rewrite Hn, Hp.
  - intro Hp. split.
    + cbn [AppComponent.run AppComponent.fire]. rewrite Hn, Hp.
      cbn [AppComponent.st AppComponent.tasks]. subst i.
      rewrite nth_error_snoc. cbn [AppComponent.run AppComponent.st AppComponent.tasks].
      rewrite ExchangeFacts.removeTask_snoc, AudioFacts.setPlaying_twice.
      reflexivity.
    + cbn [AppComponent.run AppComponent.fire]. rewrite Hn, Hp.
      cbn [AppComponent.st AppComponent.tasks]. subst i.
      rewrite nth_error_snoc. cbn [AppComponent.st AppComponent.tasks].
      rewrite ExchangeFacts.replaceTask_snoc, nth_error_snoc.
      cbn [AppComponent.run AppComponent.st AppComponent.tasks].
      rewrite ExchangeFacts.removeTask_snoc, AudioFacts.setPlaying_twice.
      reflexivity.
  - apply AudioFacts.setPlaying_content.
  - intros m Hin Hid.
    exact (AudioFacts.setPlaying_flag (ChatModel.id message) false
             (AppComponent.st c) m Hin Hid).
Qed.

Lemma playAudio_marks_and_unmarks_witness :
  AppComponent.fire (AppComponent.EvPlayAudio 0) MoreSamples.sounding
  = Some MoreSamples.sounding
  /\ AppComponent.run
       [AppComponent.EvPlayAudio 0; AppComponent.EvSpeech 0;
        AppComponent.EvPlaybackEnded 0] MoreSamples.quiet
     = Some {| AppComponent.st :=
                 AppComponent.setPlaying 1000 false (AppComponent.st MoreSamples.quiet);
               AppComponent.tasks := [] |}.
Proof.
  split.
  - exact (proj1 (playAudio_marks_and_unmarks MoreSamples.sounding 0
                    (ChatModel.with_isPlayingAudio (Some true) MoreSamples.played)
                    "NetworkError" eq_refl) eq_refl).
  - exact (proj2 (proj1 (proj2 (playAudio_marks_and_unmarks MoreSamples.quiet 0
                    MoreSamples.played "NetworkError" eq_refl)) eq_refl)).
Defined.

(** X11: [startRecording] while a recording runs does nothing.
    Otherwise it clears the last microphone error, and when access to the
    microphone is refused the failure is not thrown on: the recording flag
    is false, the error state holds the permission message for
    [NotAllowedError] and [PermissionDeniedError] and the availability
    message for every other error, and nothing else changes. *)
Theorem startRecording_reports_refusal :
  forall (c : AppComponent.Config) (errorName : string),
    let s := AppComponent.st c in
    (AppComponent.isRecording s = true ->
       AppComponent.fire AppComponent.EvStartRecording c = Some c)
    /\ (AppComponent.isRecording s = false ->
        AppComponent.run
          [AppComponent.EvStartRecording;
           AppComponent.EvThrow (List.length (AppComponent.tasks c)) errorName] c
        = Some {| AppComponent.st :=
                    AppComponent.set_micError
                      (Some (AppComponent.micErrorFor errorName)) s;
                  AppComponent.tasks := AppComponent.tasks c |})
    /\ AppComponent.micErrorFor "NotAllowedError" = AppComponent.micDenied
    /\ AppComponent.micErrorFor "PermissionDeniedError" = AppComponent.micDenied
    /\ (errorName <> "NotAllowedError" -> errorName <> "PermissionDeniedError" ->
        AppComponent.micErrorFor errorName = AppComponent.micUnavailable).
Proof.
  intros c errorName s. split; [|split; [|split; [|split]]].
  - intro H. cbn [AppComponent.fire]. fold s. now rewrite H.
  - intro H. cbn [AppComponent.run AppComponent.fire]. fold s. rewrite H.
    cbn [AppComponent.st AppComponent.tasks].
    rewrite nth_error_snoc. cbn [AppComponent.run AppComponent.st AppComponent.tasks].
    rewrite ExchangeFacts.removeTask_snoc.
    do 2 f_equal. destruct s as [a1 a2 a3 a4 a5 a6 a7 a8 a9 a10 a11 a12 a13].
    simpl in H. subst a4. reflexivity.
  - reflexivity.
  - reflexivity.
  - intros H1 H2. unfold AppComponent.micErrorFor.
    apply String.eqb_neq in H1, H2. now rewrite H1, H2.
Qed.

Lemma startRecording_reports_refusal_witness :
  AppComponent.run
    [AppComponent.EvStartRecording; AppComponent.EvThrow 0 "NotFoundError"]
    {| AppComponent.st := Samples.idle; AppComponent.tasks := [] |}
  = Some {| AppComponent.st :=
              AppComponent.set_micError (Some AppComponent.micUnavailable) Samples.idle;
            AppComponent.tasks := [] |}.
Proof.
  exact (proj1 (proj2 (startRecording_reports_refusal
                         {| AppComponent.st := Samples.idle; AppComponent.tasks := [] |}
                         "NotFoundError")) eq_refl).
Defined.

(** X12: [stopRecording] does nothing unless a recorder exists and is
    recording.  When it is, and the recording has been encoded and the
    transcription stream has been consumed, the input field holds the
    trimmed concatenation of the fragments' texts, the recording flag and
    the global loading flag are false, the history is untouched and no
    continuation is left behind. *)
Theorem stopRecording_transcribes :
  forall (c : AppComponent.Config) (stream : list GeminiService.Fragment),
    let s := AppComponent.st c in
    let i := List.length (AppComponent.tasks c) in
    (AppComponent.hasRecorder s && AppComponent.isRecording s = false ->
       AppComponent.fire AppComponent.EvStopRecording c = Some c)
    /\ (AppComponent.hasRecorder s && AppComponent.isRecording s = true ->
        AppComponent.run
          (AppComponent.EvStopRecording :: AppComponent.EvEncoded i
             :: map (AppComponent.EvChunk i) stream ++ [AppComponent.EvStreamEnd i]) c
        = Some {| AppComponent.st :=
                    AppComponent.set_isLoading false
                      (AppComponent.set_userInput
                         (JS.trim (Spec.concatTexts stream))
                         (AppComponent.set_isRecording false s));
                  AppComponent.tasks := AppComponent.tasks c |}).
Proof.
  intros c stream s i. split.
  - intro H. cbn [AppComponent.fire]. fold s. now rewrite H.
  - intro H. cbn [AppComponent.run AppComponent.fire]. fold s. rewrite H.
    cbn [AppComponent.st AppComponent.tasks]. subst i.
    rewrite nth_error_snoc, ExchangeFacts.replaceTask_snoc.
    rewrite AudioFacts.run_transcription. reflexivity.
Qed.

Lemma stopRecording_transcribes_witness :
  AppComponent.run
    [AppComponent.EvStopRecording; AppComponent.EvEncoded 0;
     AppComponent.EvChunk 0 (Spec.textFragment " send ");
     AppComponent.EvChunk 0 (Spec.textFragment "it ");
     AppComponent.EvStreamEnd 0] MoreSamples.recording
  = Some {| AppComponent.st :=
              AppComponent.set_isLoading false
                (AppComponent.set_userInput "send it"
                   (AppComponent.set_isRecording false
                      (AppComponent.st MoreSamples.recording)));
            AppComponent.tasks := [] |}.
Proof.
  exact (proj2 (stopRecording_transcribes MoreSamples.recording
                  [Spec.textFragment " send "; Spec.textFragment "it "]) eq_refl).
Defined.

(** X13: the end of a transcription clears the global loading flag
    whatever else is going on.  So a [sendMessage] with a non-blank input
    right after it passes the guard even while earlier requests are still
    in flight: it appends its two messages and becomes one more request
    in flight. *)
Theorem transcription_end_unlocks_send :
  forall (c : AppComponent.Config) (i : nat) (fullResponse t : string)
         (nowUser nowModel : Z),
    nth_error (AppComponent.tasks c) i = Some (AppComponent.TranscribeTask fullResponse) ->
    JS.trim t <> EmptyString ->
    exists c',
      AppComponent.run
        [AppComponent.EvStreamEnd i; AppComponent.EvSetInput t;
         AppComponent.EvSend nowUser nowModel] c = Some c'
      /\ AppComponent.requestIds (AppComponent.tasks c')
         = AppComponent.requestIds (AppComponent.tasks c) ++ [nowModel + 1]
      /\ List.length (AppComponent.chatHistory (AppComponent.st c'))
         = S (S (List.length (AppComponent.chatHistory (AppComponent.st c))))
      /\ AppComponent.isLoading (AppComponent.st c') = true.
Proof.
  intros c i fullResponse t nowUser nowModel Hn Ht.
  cbn [AppComponent.run AppComponent.fire]. rewrite Hn.
  cbn [AppComponent.st AppComponent.tasks].
  eexists. split; [reflexivity|].
  unfold AppComponent.beginSend.
  assert (Hg : AppComponent.guard
                 (AppComponent.set_userInput t
                    (AppComponent.set_isLoading false
                       (AppComponent.set_userInput (JS.trim fullResponse)
                          (AppComponent.st c)))) = false).
  { unfold AppComponent.guard. simpl.
    destruct (JS.trim t); [congruence|]. reflexivity. }
  cbn [AppComponent.st AppComponent.tasks]. rewrite Hg.
  pose proof (LoadingFacts.requestIds_remove_other i _ _ Hn eq_refl) as Hrem.
  cbn [AppComponent.currentMode AppComponent.set_userInput AppComponent.pushMessage
       AppComponent.update_chatHistory AppComponent.set_chatHistory
       AppComponent.set_isLoading].
  destruct (AppComponent.currentMode (AppComponent.st c));
    cbn [AppComponent.st AppComponent.tasks];
    rewrite LoadingFacts.requestIds_app, Hrem;
    (split; [reflexivity|]); split; try reflexivity;
    unfold AppComponent.pushMessage, AppComponent.update_chatHistory; simpl;
    rewrite !length_app; simpl; lia.
Qed.

Lemma transcription_end_unlocks_send_witness :
  exists c',
    AppComponent.run
      [AppComponent.EvStreamEnd 1; AppComponent.EvSetInput "second";
       AppComponent.EvSend 2000 2000] MoreSamples.transcribing = Some c'
    /\ AppComponent.requestIds (AppComponent.tasks c') = [1001; 2001].
Proof.
  destruct (transcription_end_unlocks_send MoreSamples.transcribing 1 "so far "
              "second" 2000 2000 eq_refl)
    as (c' & Hrun & Hids & _).
  - discriminate.
  - exists c'. split; [exact Hrun | exact Hids].
Defined.

(** ** Starting over, and the text along a stream *)

Module StartFacts.
Import ChatModel AppComponent.

(** Along the chunk events the placeholder shows the text received so
    far. *)
Lemma trace_texts ts k stream fullText groundingChunks s n m :
  nth_error (chatHistory s) n = Some m ->
  id m = k ->
  map (Observe.textAt n)
    (trace (map (EvChunk (List.length ts)) stream)
       {| st := s; tasks := ts ++ [ChatTask k fullText groundingChunks] |})
  = Some (text m) :: map Some (Observe.textsSoFar fullText stream).
Proof.
  revert fullText groundingChunks s m.
  induction stream as [|chunk rest IH];
    intros fullText groundingChunks s m Hn Hid.
  - cbn [map trace Observe.textsSoFar]. unfold Observe.textAt. simpl.
    now rewrite Hn.
  - cbn [map trace fire st tasks Observe.textsSoFar].
    rewrite nth_error_snoc, ExchangeFacts.replaceTask_snoc.
    cbn [map]. f_equal.
    + unfold Observe.textAt. simpl. now rewrite Hn.
    + rewrite (IH _ _ _
                 (with_groundingChunks (Some (nextGrounding groundingChunks chunk))
                    (with_text (nextText fullText chunk) m))).
      * reflexivity.
      * simpl. rewrite updateById_nth, Hn. simpl.
        rewrite Hid, Z.eqb_refl. reflexivity.
      * exact Hid.
Qed.

End StartFacts.

(** X14: [startNewChat(prompt)] always clears the conversation, the
    pending upload and the storage entry.  While a request is in flight
    the send that follows is refused, so the history stays empty and the
    prompt is left in the input field.  Otherwise, for a non-blank prompt,
    the history becomes exactly the user message with the trimmed prompt
    and no attachment, followed by a loading placeholder, whatever the
    conversation held before. *)
Theorem startNewChat_restarts :
  forall (c : AppComponent.Config) (prompt : string) (nowUser nowModel : Z),
    exists c',
      AppComponent.run (AppComponent.startNewChat prompt nowUser nowModel) c = Some c'
      /\ AppComponent.localStorage (AppComponent.st c') = None
      /\ AppComponent.uploadedFile (AppComponent.st c') = None
      /\ (AppComponent.isLoading (AppComponent.st c) = true ->
          AppComponent.chatHistory (AppComponent.st c') = []
          /\ AppComponent.userInput (AppComponent.st c') = prompt
          /\ AppComponent.tasks c' = AppComponent.tasks c)
      /\ (AppComponent.isLoading (AppComponent.st c) = false ->
          JS.trim prompt <> EmptyString ->
          exists userMessage placeholder,
            AppComponent.chatHistory (AppComponent.st c') = [userMessage; placeholder]
            /\ ChatModel.role userMessage = ChatModel.user
            /\ ChatModel.id userMessage = nowUser
            /\ ChatModel.text userMessage = JS.trim prompt
            /\ Observe.attachments userMessage = (None, None, None)
            /\ ChatModel.role placeholder = ChatModel.model
            /\ ChatModel.id placeholder = nowModel + 1
            /\ ChatModel.isLoading placeholder = Some true
            /\ AppComponent.userInput (AppComponent.st c') = EmptyString
            /\ AppComponent.isLoading (AppComponent.st c') = true).
Proof.
  intros c prompt nowUser nowModel.
  unfold AppComponent.startNewChat. cbn [AppComponent.run AppComponent.fire].
  cbn [AppComponent.st AppComponent.tasks].
  eexists. split; [reflexivity|].
  unfold AppComponent.beginSend. cbn [AppComponent.st AppComponent.tasks].
  unfold AppComponent.guard.
  cbn [AppComponent.userInput AppComponent.uploadedFile AppComponent.isLoading
       AppComponent.set_userInput AppComponent.startNewConversation
       AppComponent.set_localStorage AppComponent.set_uploadedFile
       AppComponent.set_chatHistory].
  destruct (AppComponent.isLoading (AppComponent.st c)) eqn:Hl.
  - rewrite orb_true_r. cbn [AppComponent.st AppComponent.tasks].
    split; [reflexivity|]. split; [reflexivity|]. split.
    + intros _. repeat split.
    + discriminate.
  - rewrite orb_false_r, andb_true_r.
    destruct (JS.trim prompt) as [|ch rest] eqn:Ht.
    + simpl. split; [reflexivity|]. split; [reflexivity|]. split.
      * discriminate.
      * intros _ H. now contradiction H.
    + simpl.
      destruct (AppComponent.currentMode (AppComponent.st c)); simpl;
        (split; [reflexivity|]); (split; [reflexivity|]); (split; [discriminate|]);
        intros _ _; eexists; eexists; (split; [reflexivity|]); simpl;
        rewrite Ht; repeat split.
Qed.

Lemma startNewChat_restarts_witness :
  exists c',
    AppComponent.run (AppComponent.startNewChat " draw a cat " 5000 5000)
      Samples.booted = Some c'
    /\ Spec.keys (AppComponent.chatHistory (AppComponent.st c'))
       = [(5000, ChatModel.user); (5001, ChatModel.model)]
    /\ option_map ChatModel.text
         (nth_error (AppComponent.chatHistory (AppComponent.st c')) 0)
       = Some "draw a cat".
Proof.
  destruct (startNewChat_restarts Samples.booted " draw a cat " 5000 5000)
    as (c' & Hrun & _ & _ & _ & Hsend).
  destruct (Hsend eq_refl) as (userMessage & placeholder & Hhist & Hr & Hi & Ht
                               & _ & Hr' & Hi' & _).
  - discriminate.
  - exists c'. split; [exact Hrun|]. rewrite Hhist.
    unfold Spec.keys, Spec.key. cbn [map nth_error option_map].
    rewrite Hr, Hi, Ht, Hr', Hi'. split; reflexivity.
Defined.

(** X15: while the chat stream of the first revision is consumed, the
    placeholder shows after each fragment exactly the concatenation of the
    texts received so far: the displayed text only ever grows at its
    end. *)
Theorem streaming_shows_text_so_far :
  forall (c : AppComponent.Config) (nowUser nowModel : Z)
         (stream : list GeminiService.Fragment),
    AppComponent.guard (AppComponent.st c) = false ->
    AppComponent.currentMode (AppComponent.st c) = ModeChat ->
    let position := S (List.length (AppComponent.chatHistory (AppComponent.st c))) in
    map (Observe.textAt position)
      (AppComponent.trace
         (map (AppComponent.EvChunk (List.length (AppComponent.tasks c))) stream)
         (AppComponent.beginSend nowUser nowModel c))
    = Some EmptyString :: map Some (Observe.textsSoFar EmptyString stream).
Proof.
  intros c nowUser nowModel stream Hg Hmode position.
  rewrite ExchangeFacts.beginSend_chat by assumption.
  apply (StartFacts.trace_texts (AppComponent.tasks c) (nowModel + 1) stream
           EmptyString [] _ position
           (AppComponent.placeholder (nowModel + 1) EmptyString)).
  - unfold AppComponent.pushMessage, AppComponent.update_chatHistory.
    cbn [AppComponent.chatHistory AppComponent.set_chatHistory
         AppComponent.set_userInput AppComponent.set_isLoading].
    apply FirstRevisionFailures.placeholder_position.
  - reflexivity.
Qed.

Lemma streaming_shows_text_so_far_witness :
  map (Observe.textAt 1)
    (AppComponent.trace
       [AppComponent.EvChunk 0 (Spec.textFragment "Hel");
        AppComponent.EvChunk 0 (Spec.textFragment "lo")]
       Samples.afterSend)
  = [Some EmptyString; Some "Hel"; Some "Hello"].
Proof.
  exact (streaming_shows_text_so_far
           {| AppComponent.st := Samples.idle; AppComponent.tasks := [] |}
           1000 1000 [Spec.textFragment "Hel"; Spec.textFragment "lo"]
           eq_refl eq_refl).
Defined.

Module ReloadFacts.
Import ChatModel AppComponent.

Lemma mapWithIds_length clock index l :
  List.length (mapWithIds clock index l) = List.length l.
Proof.
  revert index. induction l as [|msg rest IH]; intro index; simpl; [reflexivity|].
  now rewrite IH.
Qed.

Lemma mapWithIds_attachments clock index l m :
  In m (mapWithIds clock index l) -> Observe.attachments m = (None, None, None).
Proof.
  revert index. induction l as [|msg rest IH]; intro index; simpl.
  - intros [].
  - intros [<- | H]; [reflexivity | eauto].
Qed.

Lemma toSaved_mapWithIds clock index l :
  map toSaved (mapWithIds clock index l) = l.
Proof.
  revert index. induction l as [|[r t g] rest IH]; intro index; simpl; [reflexivity|].
  now rewrite IH.
Qed.

End ReloadFacts.

(** X16: what a reload brings back carries no attachment: after a save
    and a load every message has lost its image, video and audio, the
    number of messages is the same, and message number [i] gets as id the
    clock reading taken for it plus [i]. *)
Theorem reload_drops_attachments :
  forall (s : AppComponent.State) (clock : nat -> Z),
    let reloaded :=
      AppComponent.chatHistory
        (AppComponent.loadChatHistory clock (AppComponent.saveChatHistory true s)) in
    List.length reloaded = List.length (AppComponent.chatHistory s)
    /\ (forall m, In m reloaded -> Observe.attachments m = (None, None, None))
    /\ Spec.ids reloaded
       = map (fun i => clock i + Z.of_nat i)
           (seq 0 (List.length (AppComponent.chatHistory s))).
Proof.
  intros s clock reloaded. subst reloaded.
  change (AppComponent.chatHistory
            (AppComponent.loadChatHistory clock (AppComponent.saveChatHistory true s)))
    with (AppComponent.mapWithIds clock 0
            (map AppComponent.toSaved (AppComponent.chatHistory s))).
  split; [|split].
  - now rewrite ReloadFacts.mapWithIds_length, length_map.
  - apply ReloadFacts.mapWithIds_attachments.
  - now rewrite PersistenceFacts.mapWithIds_ids, length_map.
Qed.

(** X17: loading a stored history and saving it again writes back the
    entry that was read: the storage round trip is the identity on valid
    entries. *)
Theorem load_save_roundtrip :
  forall (s : AppComponent.State) (clock : nat -> Z)
         (l : list AppComponent.SavedMessage),
    AppComponent.localStorage s = Some (AppComponent.JsonHistory l) ->
    AppComponent.localStorage
      (AppComponent.saveChatHistory true (AppComponent.loadChatHistory clock s))
    = Some (AppComponent.JsonHistory l).
Proof.
  intros s clock l H. unfold AppComponent.loadChatHistory. rewrite H.
  unfold AppComponent.saveChatHistory.
  cbn [AppComponent.chatHistory AppComponent.set_chatHistory
       AppComponent.localStorage AppComponent.set_localStorage].
  now rewrite ReloadFacts.toSaved_mapWithIds.
Qed.

Lemma load_save_roundtrip_witness :
  AppComponent.localStorage
    (AppComponent.saveChatHistory true
       (AppComponent.loadChatHistory (fun _ => 1000)
          (AppComponent.initialState Samples.stored3 None)))
  = Samples.stored3.
Proof.
  exact (load_save_roundtrip (AppComponent.initialState Samples.stored3 None)
           (fun _ => 1000) _ eq_refl).
Defined.

(** ** The byte copy of [textToSpeech] *)

Module SpeechFacts.
Import GeminiService.

Lemma charCodeAt_nth (s : string) (i : nat) :
  charCodeAt i s = nth i (Observe.codes s) 0.
Proof.
  unfold charCodeAt, Observe.codes. revert i.
  induction s as [|c r IH]; intro i; simpl.
  - now destruct i.
  - destruct i as [|j]; [reflexivity | apply IH].
Qed.

Lemma codes_length (s : string) :
  List.length (Observe.codes s) = String.length s.
Proof.
  unfold Observe.codes. rewrite length_map.
  induction s as [|c r IH]; simpl; [reflexivity | now rewrite IH].
Qed.

Lemma codes_range (s : string) :
  Forall (fun x => 0 <= x < 256) (Observe.codes s).
Proof.
  unfold Observe.codes. apply Forall_forall. intros x Hx.
  apply in_map_iff in Hx. destruct Hx as (c & <- & _).
  pose proof (nat_ascii_bounded c). lia.
Qed.

Lemma store_at (pre rest : list Z) (b v : Z) :
  store (List.length pre) v (pre ++ b :: rest) = pre ++ (v mod 256) :: rest.
Proof.
  induction pre as [|p pre IH]; simpl; [reflexivity | now rewrite IH].
Qed.

Lemma firstn_succ (l : list Z) (i : nat) :
  (i < List.length l)%nat ->
  firstn (S i) l = firstn i l ++ [nth i l 0].
Proof.
  revert i. induction l as [|x l IH]; intros i Hi; simpl in Hi; [lia|].
  destruct i as [|j]; [reflexivity|].
  change (firstn (S (S j)) (x :: l)) with (x :: firstn (S j) l).
  rewrite IH by lia. reflexivity.
Qed.

(** The invariant of the loop: the first [i] bytes are written, the
    remaining ones are still zero. *)
Lemma copyLoop_fills (s : string) (remaining i : nat) :
  (i + remaining = String.length s)%nat ->
  copyLoop s i remaining (firstn i (Observe.codes s) ++ repeat 0 remaining)
  = Observe.codes s.
Proof.
  revert i. induction remaining as [|n IH]; intros i Hlen.
  - simpl. rewrite app_nil_r. apply firstn_all2. rewrite codes_length. lia.
  - cbn [copyLoop repeat].
    assert (Hi : (i < List.length (Observe.codes s))%nat)
      by (rewrite codes_length; lia).
    assert (Hfirst : List.length (firstn i (Observe.codes s)) = i)
      by (apply firstn_length_le; lia).
    pose proof (store_at (firstn i (Observe.codes s)) (repeat 0 n) 0
                  (charCodeAt i s)) as Hstore.
    rewrite Hfirst in Hstore. rewrite Hstore, charCodeAt_nth.
    assert (Hrange : 0 <= nth i (Observe.codes s) 0 < 256).
    { pose proof (codes_range s) as H. rewrite Forall_forall in H.
      apply H. now apply nth_In. }
    rewrite Z.mod_small by exact Hrange.
    change (firstn i (Observe.codes s) ++ nth i (Observe.codes s) 0 :: repeat 0 n)
      with (firstn i (Observe.codes s) ++ [nth i (Observe.codes s) 0] ++ repeat 0 n).
    rewrite app_assoc, <- firstn_succ by exact Hi.
    apply IH. lia.
Qed.

End SpeechFacts.

(** X18: the loop of [textToSpeech] that copies the decoded audio into
    the byte array returns one byte per character, byte [i] being the
    code of character [i]; every byte is below 256, so nothing is lost by
    the array's wrap-around. *)
Theorem decodedBytes_are_codes :
  forall binaryString : string,
    GeminiService.decodedBytes binaryString = Observe.codes binaryString
    /\ List.length (GeminiService.decodedBytes binaryString)
       = String.length binaryString
    /\ Forall (fun b => 0 <= b < 256) (GeminiService.decodedBytes binaryString).
Proof.
  intro s.
  assert (H : GeminiService.decodedBytes s = Observe.codes s).
  { unfold GeminiService.decodedBytes.
    exact (SpeechFacts.copyLoop_fills s (String.length s) 0 eq_refl). }
  rewrite H. split; [reflexivity|]. split.
  - apply SpeechFacts.codes_length.
  - apply SpeechFacts.codes_range.
Qed.

(** ** The second revision: starting a chat from a suggested prompt *)

Module SecondRevisionStart.
Import ChatModel AppComponentRev2.

Lemma consumeStream_mode k stream s :
  currentMode (consumeStream k stream s) = currentMode s.
Proof.
  revert s. induction stream as [|chunk rest IH]; intro s; simpl; [reflexivity|].
  now rewrite IH.
Qed.

Lemma guard_open s :
  isLoading s = false -> JS.trim (userInput s) <> EmptyString -> guard s = false.
Proof.
  intros Hl Ht. unfold guard. rewrite Hl.
  destruct (JS.trim (userInput s)); [congruence|]. reflexivity.
Qed.

End SecondRevisionStart.

(** X19: [startNewChat(prompt)] of the second revision, called with a
    non-blank prompt while no request is in flight, answers in chat mode
    whatever mode was selected, and keeps the conversation: it resolves,
    the mode is chat and the global flag false, and the history is the
    earlier one, ids and roles unchanged, followed by the user message
    and the model message. *)
Theorem startNewChat_keeps_conversation :
  forall (w : AppComponentRev2.World) (s : AppComponentRev2.State) (prompt : string),
    AppComponentRev2.isLoading s = false ->
    JS.trim prompt <> EmptyString ->
    exists s',
      AppComponentRev2.startNewChat prompt w s = Resolved s'
      /\ AppComponentRev2.currentMode s' = ModeChat
      /\ AppComponentRev2.isLoading s' = false
      /\ Spec.keys (AppComponentRev2.chatHistory s')
         = Spec.keys (AppComponentRev2.chatHistory s)
             ++ [(AppComponentRev2.nowUser w, ChatModel.user);
                 (AppComponentRev2.nowModel w + 1, ChatModel.model)].
Proof.
  intros w s prompt Hl Ht.
  unfold AppComponentRev2.startNewChat.
  set (s0 := AppComponentRev2.set_userInput prompt
               (AppComponentRev2.set_currentMode ModeChat s)).
  assert (Hg : AppComponentRev2.guard s0 = false)
    by (apply SecondRevisionStart.guard_open; assumption).
  unfold AppComponentRev2.sendMessage. rewrite Hg.
  destruct (SecondRevisionFlow.prepare_entered w s0)
    as (s4 & -> & Hhist & Hmode4 & _).
  cbv iota beta. unfold AppComponentRev2.dispatch. rewrite Hmode4.
  change (AppComponentRev2.currentMode s0) with ModeChat. cbv iota.
  pose proof (DispatchFacts.handleChat_keys w
                (AppComponentRev2.makeUserMessage (AppComponentRev2.nowUser w) s0)
                (AppComponentRev2.nowModel w + 1) s4) as Hkeys.
  unfold AppComponentRev2.handleChat in *. cbn [stateOf] in Hkeys.
  eexists. split; [reflexivity|]. split; [|split; [reflexivity|]].
  - cbn [AppComponentRev2.currentMode AppComponentRev2.set_isLoading
         AppComponentRev2.settle AppComponentRev2.update_chatHistory
         AppComponentRev2.set_chatHistory].
    now rewrite SecondRevisionStart.consumeStream_mode, Hmode4.
  - change (AppComponentRev2.chatHistory
              (AppComponentRev2.set_isLoading false
                 (AppComponentRev2.settle (AppComponentRev2.nowModel w + 1)
                    (AppComponentRev2.consumeStream (AppComponentRev2.nowModel w + 1)
                       (GeminiService.generateContentStream (AppComponentRev2.remote w)
                          (AppComponentRev2.chatArgs
                             (AppComponentRev2.makeUserMessage
                                (AppComponentRev2.nowUser w) s0) s4)) s4))))
      with (AppComponentRev2.chatHistory
              (AppComponentRev2.settle (AppComponentRev2.nowModel w + 1)
                 (AppComponentRev2.consumeStream (AppComponentRev2.nowModel w + 1)
                    (GeminiService.generateContentStream (AppComponentRev2.remote w)
                       (AppComponentRev2.chatArgs
                          (AppComponentRev2.makeUserMessage
                             (AppComponentRev2.nowUser w) s0) s4)) s4))).
    rewrite Hkeys, Hhist. unfold Spec.keys. now rewrite map_app.
Qed.

Lemma startNewChat_keeps_conversation_witness :
  exists s',
    AppComponentRev2.startNewChat "hello" (Samples.world2 [] false)
      (Samples.idle2In ModeVideo) = Resolved s'
    /\ AppComponentRev2.currentMode s' = ModeChat
    /\ Spec.keys (AppComponentRev2.chatHistory s')
       = [(1000, ChatModel.user); (1001, ChatModel.model)].
Proof.
  destruct (startNewChat_keeps_conversation (Samples.world2 [] false)
              (Samples.idle2In ModeVideo) "hello" eq_refl)
    as (s' & Hstart & Hmode & _ & Hkeys).
  - discriminate.
  - exists s'. repeat split; assumption.
Defined.

(** ** One upload, one slot *)

Module SlotFacts.

Lemma prefix_head (c d : ascii) (p m : string) :
  String.prefix (String c p) (String d m) = true -> c = d.
Proof.
  simpl. destruct (ascii_dec c d); [auto | discriminate].
Qed.

Lemma not_two_prefixes (c d : ascii) (p q m : string) :
  c <> d ->
  JS.startsWith m (String c p) = true ->
  JS.startsWith m (String d q) = false.
Proof.
  unfold JS.startsWith. intros Hne H.
  destruct m as [|e m]; [discriminate H|].
  apply prefix_head in H. subst e. simpl.
  destruct (ascii_dec d c); [congruence | reflexivity].
Qed.

End SlotFacts.

(** X20: the user message that [sendMessage] builds carries the pending
    upload in exactly the slot that its mime prefix names: the image slot
    for [image/], the video slot for [video/], the audio slot for
    [audio/], the two other slots being empty.  An upload of another type
    fills no slot, and without an upload all three are empty. *)
Theorem makeUserMessage_one_slot :
  forall (now : Z) (s : AppComponent.State),
    (AppComponent.uploadedFile s = None ->
     Observe.attachments (AppComponent.makeUserMessage now s)
     = (None, None, None))
    /\ (forall a, AppComponent.uploadedFile s = Some a ->
          Observe.attachments (AppComponent.makeUserMessage now s)
          = if JS.startsWith (ChatModel.mimeType a) "image/"
            then (Some a, None, None)
            else if JS.startsWith (ChatModel.mimeType a) "video/"
            then (None, Some a, None)
            else if JS.startsWith (ChatModel.mimeType a) "audio/"
            then (None, None, Some a)
            else (None, None, None)).
Proof.
  intros now s. unfold Observe.attachments. simpl. split.
  - intros ->. reflexivity.
  - intros a ->. simpl.
    destruct (JS.startsWith (ChatModel.mimeType a) "image/") eqn:Hi.
    + rewrite (SlotFacts.not_two_prefixes "i" "v" _ _ _ ltac:(discriminate) Hi).
      rewrite (SlotFacts.not_two_prefixes "i" "a" _ _ _ ltac:(discriminate) Hi).
      reflexivity.
    + destruct (JS.startsWith (ChatModel.mimeType a) "video/") eqn:Hv.
      * rewrite (SlotFacts.not_two_prefixes "v" "a" _ _ _ ltac:(discriminate) Hv).
        reflexivity.
      * destruct (JS.startsWith (ChatModel.mimeType a) "audio/"); reflexivity.
Qed.

(** X20 without an upload, and at a PNG image, a WebM recording and a PDF
    upload. *)
Lemma makeUserMessage_one_slot_witness :
  Observe.attachments (AppComponent.makeUserMessage 1000 Samples.idle)
  = (None, None, None)
  /\ Observe.attachments (AppComponent.makeUserMessage 1000 MoreSamples.withPng)
     = (Some Samples.png, None, None)
  /\ Observe.attachments
       (AppComponent.makeUserMessage 1000
          (AppComponent.set_uploadedFile (Some Samples.webm) Samples.idle))
     = (None, None, Some Samples.webm)
  /\ Observe.attachments
       (AppComponent.makeUserMessage 1000 (AppComponent.st Samples.withPdf))
     = (None, None, None).
Proof.
  split; [|split; [|split]].
  - exact (proj1 (makeUserMessage_one_slot 1000 Samples.idle) eq_refl).
  - exact (proj2 (makeUserMessage_one_slot 1000 MoreSamples.withPng)
             Samples.png eq_refl).
  - exact (proj2 (makeUserMessage_one_slot 1000
                    (AppComponent.set_uploadedFile (Some Samples.webm)
                       Samples.idle))
             Samples.webm eq_refl).
  - exact (proj2 (makeUserMessage_one_slot 1000 (AppComponent.st Samples.withPdf))
             Samples.pdf eq_refl).
Defined.
